(** * OpenXR eye trackers: PSVR2 Toolkit IPC feed and VRChat OSC feed

    A shallow embedding of [openxr-api-layer/psvr2_toolkit.cpp] and
    [openxr-api-layer/vrchat_osc.cpp], and the properties of the gaze cache,
    the device handshake, the two vector conversions and the teardown
    sequence that the specification states about them.

    Conventions of the embedding:
    - a C++ [float] is an IEEE 754 binary32 value, a [double] a binary64
      value, both carried by [spec_float] with the operations of
      [SpecFloat] at the matching precision;
    - a [std::chrono::high_resolution_clock::time_point] is the integer
      count of nanoseconds since the epoch of the clock; every reading of
      the clock is an explicit argument [now] of the function that takes it.
      The count is a signed 64-bit integer in the source and an integer
      here: a statement that depends on [now - m_lastReceivedTime] being
      the difference of the two counts says that this difference is in
      [Int64.in_range], outside of which the subtraction overflows;
    - [spec_float] has one NaN: the sign and the payload of a NaN are
      not modelled, and an equality of two floats says that both are the
      same number (with the sign of a zero or an infinity) or both NaN;
    - the socket, the OSC library and the C library's [sin]/[cos] are the
      environment: the socket is a script of outcomes, the trigonometric
      functions are parameters;
    - a [Sleep] takes time and nothing else, and is left out; the
      retry counters, which only count down, are natural numbers. *)

From Stdlib Require Import ZArith List Bool String Ascii Lia SpecFloat.
From Stdlib Require Import Strings.Byte.
Import ListNotations.

Local Open Scope Z_scope.

(** ** IEEE 754 arithmetic at the two widths the code uses *)

Module F32.
Definition prec : Z := 24.
Definition emax : Z := 128.

Definition add := SFadd prec emax.
Definition sub := SFsub prec emax.
Definition mul := SFmul prec emax.
Definition div := SFdiv prec emax.
Definition opp := SFopp.
Definition eqb := SFeqb.

(** [std::isnan] *)
Definition isnan (f : spec_float) : bool :=
  match f with
  | S754_nan => true
  | _ => false
  end.

Definition zero : spec_float := S754_zero false.
Definition neg_zero : spec_float := S754_zero true.
Definition one : spec_float := S754_finite false 8388608 (-23).
Definition two : spec_float := S754_finite false 8388608 (-22).
Definition infinity : spec_float := S754_infinity false.
Definition nan : spec_float := S754_nan.

(** Decoding of the 32-bit pattern of a binary32 value (sign, 8 exponent
    bits, 23 fraction bits). *)
Definition of_bits (w : Z) : spec_float :=
  let s := Z.testbit w 31 in
  let e := Z.land (Z.shiftr w 23) 255 in
  let m := Z.land w 8388607 in
  if e =? 255 then (if m =? 0 then S754_infinity s else S754_nan)
  else if e =? 0 then
    match m with
    | Zpos p => S754_finite s p (-149)
    | _ => S754_zero s
    end
  else
    match m + 8388608 with
    | Zpos p => S754_finite s p (e - 150)
    | _ => S754_nan
    end.
End F32.

Module F64.
Definition prec : Z := 53.
Definition emax : Z := 1024.

Definition mul := SFmul prec emax.
Definition div := SFdiv prec emax.

(** Promotion of a [float] operand to [double]: the value is kept and
    the mantissa is re-aligned to 53 bits. *)
Definition of_float (f : spec_float) : spec_float :=
  match f with
  | S754_finite s m e => binary_round prec emax s m e
  | _ => f
  end.

(** Conversion of a [double] to [float], rounding to nearest even. *)
Definition to_float (d : spec_float) : spec_float :=
  match d with
  | S754_finite s m e => binary_round F32.prec F32.emax s m e
  | _ => d
  end.

(** [M_PI] of <math.h>, 3.14159265358979323846 as a double
    (bit pattern 0x400921FB54442D18). *)
Definition M_PI : spec_float := S754_finite false 7074237752028440 (-51).
Definition c180 : spec_float := S754_finite false 6333186975989760 (-45).
Definition minus_one : spec_float := S754_finite true 4503599627370496 (-52).
End F64.

Definition float : Set := spec_float.

(** ** The host's vector type and the clock *)

Record XrVector3f := mkXrVector3f { x : float; y : float; z : float }.

Definition XrVector3f_zero : XrVector3f := mkXrVector3f F32.zero F32.zero F32.zero.

(** A vector has a NaN component. *)
Definition has_nan (v : XrVector3f) : bool :=
  F32.isnan (x v) || F32.isnan (y v) || F32.isnan (z v).

(** Component-wise [==] of the C++ floats. *)
Definition vec_eqb (a b : XrVector3f) : bool :=
  F32.eqb (x a) (x b) && F32.eqb (y a) (y b) && F32.eqb (z a) (z b).

(** Nanoseconds since the epoch of [high_resolution_clock]: the value
    of [count()] of a duration of that clock, whose period is the
    nanosecond. *)
Definition time_point := Z.

(** A default-constructed [time_point] is the epoch of its clock. *)
Definition time_point_default : time_point := 0.

(** The representation of the count of a duration of the clock
    ([long long]): the values a subtraction of two time points can give
    without overflow. *)
Module Int64.
Definition min_value : Z := -9223372036854775808.
Definition max_value : Z := 9223372036854775807.

Definition in_range (count : Z) : Prop := min_value <= count <= max_value.

(** What the target leaves in the count when a subtraction overflows:
    the difference reduced modulo 2^64 into the range. *)
Definition wrap (count : Z) : Z :=
  (count - min_value) mod 18446744073709551616 + min_value.
End Int64.

Definition XrTime := Z.
Definition XrSession := Z.

Inductive TrackerType := Psvr2Toolkit_t | VRChatOSC_t.

(** [m_listeningThread]: no thread yet, a running thread, a thread whose
    function has returned. *)
Inductive thread_state := NoThread | Running | Finished.

(** ** An error monad for the code that throws *)

Inductive result (E A : Type) :=
| Ok (a : A)
| Throw (e : E).
Arguments Ok {E A} a.
Arguments Throw {E A} e.

Definition bind {E A B : Type} (r : result E A) (k : A -> result E B) : result E B :=
  match r with
  | Ok a => k a
  | Throw e => Throw e
  end.

Notation "'do' p <- r ; k" := (bind r (fun p => k))
  (at level 10, p pattern, r at level 100, k at level 200).

(** ** psvr2_toolkit.cpp *)

Module Psvr2Toolkit.

(** *** The socket *)

Definition SOCKET := Z.
(** <winsock2.h>: [INVALID_SOCKET] is [(SOCKET)(~0)], [SOCKET_ERROR] is -1. *)
Definition INVALID_SOCKET : SOCKET := 18446744073709551615.
Definition SOCKET_ERROR : Z := -1.
Definition WSAEISCONN : Z := 10056.
Definition WSAEWOULDBLOCK : Z := 10035.

(** What one call of [connect] on the non-blocking socket gives: 0, or
    [SOCKET_ERROR] with the code [WSAGetLastError] reports. *)
Inductive connect_outcome :=
| ConnectOk
| ConnectError (wsa_error : Z).

(** What one call of [recv] finds: nothing ([SOCKET_ERROR]), or bytes
    that the peer has sent. No bytes at all is the orderly close, for
    which [recv] returns 0. *)
Inductive recv_event :=
| RecvError
| RecvData (bs : list byte).

(** The peer, as a script: the outcome of each [connect], then the
    arrivals on the stream. A script that has run out keeps failing. *)
Record Network := mkNetwork {
  connects : list connect_outcome;
  inbound : list recv_event
}.

(** [connect(m_socket, ...)] followed by [WSAGetLastError()]. *)
Definition connect (script : list connect_outcome)
  : Z * Z * list connect_outcome :=
  match script with
  | [] => (SOCKET_ERROR, WSAEWOULDBLOCK, [])
  | ConnectOk :: rest => (0, 0, rest)
  | ConnectError e :: rest => (SOCKET_ERROR, e, rest)
  end.

(** [recv(m_socket, buf, len, 0)]: the return value, the bytes copied to
    [buf], and the stream afterwards. At most [len] bytes are taken; what
    does not fit stays in the stream. *)
Definition recv (inb : list recv_event) (len : Z)
  : Z * list byte * list recv_event :=
  match inb with
  | [] => (SOCKET_ERROR, [], [])
  | RecvError :: rest => (SOCKET_ERROR, [], rest)
  | RecvData bs :: rest =>
      let got := firstn (Z.to_nat len) bs in
      let left := skipn (Z.to_nat len) bs in
      (Z.of_nat (List.length got), got,
       match left with
       | [] => rest
       | _ :: _ => RecvData left :: rest
       end)
  end.

(** The bytes [data] written into [buffer] from position [offset] on. *)
Definition store (buffer : list byte) (offset : Z) (data : list byte) : list byte :=
  firstn (Z.to_nat offset) buffer ++ data
    ++ skipn (Z.to_nat offset + List.length data) buffer.

(** A zero-initialised object of [size] bytes ([response{}]). *)
Definition zeroed (size : Z) : list byte := repeat x00 (Z.to_nat size).

(** The read loop that both the constructor (lines 94-108) and
    [ipcThread] (lines 179-193) run over [response]:
<<
    while (retries) {
        const auto result = recv(m_socket, buffer + offset, sizeof(response) - offset, 0);
        if (result > 0) { offset += result; }
        if (offset >= sizeof(response)) { break; }
        Sleep(..);
        retries--;
    }
>>
    It gives the value of [retries] on exit, the buffer, the offset and
    the stream. *)
Fixpoint recv_loop (size : Z) (retries : nat) (buffer : list byte) (offset : Z)
    (inb : list recv_event) : nat * list byte * Z * list recv_event :=
  match retries with
  | O => (O, buffer, offset, inb)
  | S retries' =>
      let '(result, data, inb') := recv inb (size - offset) in
      let buffer' := if 0 <? result then store buffer offset data else buffer in
      let offset' := if 0 <? result then offset + result else offset in
      if offset' >=? size then (retries, buffer', offset', inb')
      else recv_loop size retries' buffer' offset' inb'
  end.

(** The connect loop of the constructor (lines 55-66); it gives the
    value of [retries] on exit and the rest of the script. *)
Fixpoint connect_loop (retries : nat) (script : list connect_outcome)
    : nat * list connect_outcome :=
  match retries with
  | O => (O, script)
  | S retries' =>
      let '(rc, last_error, script') := connect script in
      if rc =? 0 then (retries, script')
      else if last_error =? WSAEISCONN then (retries, script')
      else connect_loop retries' script'
  end.

(** *** The wire format

    <ipc_protocol.h> belongs to the device server and is not part of
    these sources: the tags, the sizes of the packed structures and the
    placement of their fields are parameters. *)

Record GazeEyeResult := mkGazeEyeResult {
  isGazeDirValid : bool;
  gazeDirNorm : XrVector3f
}.

Record CommandDataServerGazeDataResult_t := mkGazeDataResult {
  leftEye : GazeEyeResult;
  rightEye : GazeEyeResult
}.

(** The tags of the handshake, [sizeof(response)] in the constructor
    with the two fields the constructor reads from the bytes of
    [response], and [sizeof(response)] in [ipcThread] with
    [response.payload]. *)
Record IpcProtocol := mkIpcProtocol {
  Command_ServerHandshakeResult : Z;
  HandshakeResult_Success : Z;
  sizeof_handshake_response : Z;
  handshake_header_type : list byte -> Z;
  handshake_payload_result : list byte -> Z;
  sizeof_gaze_response : Z;
  gaze_payload : list byte -> CommandDataServerGazeDataResult_t
}.

(** *** The tracker *)

Record Psvr2ToolkitEyeTracker := mkTracker {
  m_started : bool;
  m_listeningThread : thread_state;
  m_socket : SOCKET;
  m_latestGaze : XrVector3f;
  m_lastReceivedTime : time_point
}.

Inductive exception := EyeTrackerNotSupportedException.

(** The object as its member initialisers leave it, with the socket the
    constructor has opened. *)
Definition constructed (sock : SOCKET) : Psvr2ToolkitEyeTracker :=
  {| m_started := false;
     m_listeningThread := NoThread;
     m_socket := sock;
     m_latestGaze := XrVector3f_zero;
     m_lastReceivedTime := time_point_default |}.

Section WithProtocol.
Variable abi : IpcProtocol.

(** [Psvr2ToolkitEyeTracker::Psvr2ToolkitEyeTracker()]. [sock] is the
    handle that [socket()] returned. *)
Definition ctor (sock : SOCKET) (net : Network)
  : result exception Psvr2ToolkitEyeTracker * Network :=
  let '(retries, script) := connect_loop 15 (connects net) in
  if (retries =? 0)%nat then
    (Throw EyeTrackerNotSupportedException, mkNetwork script (inbound net))
  else
    (* send(m_socket, &request, ...) *)
    let size := sizeof_handshake_response abi in
    let '(retries, response, _, inb) :=
      recv_loop size 5 (zeroed size) 0 (inbound net) in
    if (retries =? 0)%nat
       || negb (handshake_header_type abi response =? Command_ServerHandshakeResult abi)
       || negb (handshake_payload_result abi response =? HandshakeResult_Success abi)
    then (Throw EyeTrackerNotSupportedException, mkNetwork script inb)
    else (Ok (constructed sock), mkNetwork script inb).

(** [createPsvr2ToolkitEyeTracker()]: an exception of the constructor
    becomes the empty pointer. *)
Definition createPsvr2ToolkitEyeTracker (sock : SOCKET) (net : Network)
  : option Psvr2ToolkitEyeTracker * Network :=
  match ctor sock net with
  | (Ok t, net') => (Some t, net')
  | (Throw _, net') => (None, net')
  end.

(** The vector [ipcThread] computes from a response (lines 198-202). *)
Definition averaged_gaze (payload : CommandDataServerGazeDataResult_t) : XrVector3f :=
  let l := gazeDirNorm (leftEye payload) in
  let r := gazeDirNorm (rightEye payload) in
  {| x := F32.div (F32.opp (F32.add (x l) (x r))) F32.two;
     y := F32.div (F32.add (y l) (y r)) F32.two;
     z := F32.div (F32.opp (F32.add (z l) (z r))) F32.two |}.

(** One turn of the loop of [ipcThread] (lines 165-216); [now] is the
    reading of the clock at line 196. *)
Definition ipcThread_body (now : time_point) (t : Psvr2ToolkitEyeTracker)
    (inb : list recv_event) : Psvr2ToolkitEyeTracker * list recv_event :=
  (* send(m_socket, &request, ...) *)
  let size := sizeof_gaze_response abi in
  let '(retries, response, _, inb') := recv_loop size 5 (zeroed size) 0 inb in
  let payload := gaze_payload abi response in
  if negb (retries =? 0)%nat
     && isGazeDirValid (leftEye payload)
     && isGazeDirValid (rightEye payload)
  then
    let gaze := averaged_gaze payload in
    if negb (F32.isnan (x gaze) || F32.isnan (y gaze) || F32.isnan (z gaze))
    then
      ({| m_started := m_started t;
          m_listeningThread := m_listeningThread t;
          m_socket := m_socket t;
          m_latestGaze := gaze;
          m_lastReceivedTime := now |}, inb')
    else (t, inb')
  else (t, inb').
End WithProtocol.

(** [start(session)] *)
Definition start (session : XrSession) (t : Psvr2ToolkitEyeTracker)
  : Psvr2ToolkitEyeTracker :=
  {| m_started := true;
     m_listeningThread := Running;
     m_socket := m_socket t;
     m_latestGaze := m_latestGaze t;
     m_lastReceivedTime := m_lastReceivedTime t |}.

(** [stop()] *)
Definition stop (t : Psvr2ToolkitEyeTracker) : Psvr2ToolkitEyeTracker := t.

(** [isGazeAvailable(time)]; [now] is the reading of the clock. *)
Definition isGazeAvailable (t : Psvr2ToolkitEyeTracker) (now : time_point)
    (time : XrTime) : bool :=
  now - m_lastReceivedTime t <? 1000000000.

(** [getGaze(time, unitVector)]: the returned flag and the value of
    [unitVector] afterwards. *)
Definition getGaze (t : Psvr2ToolkitEyeTracker) (now : time_point)
    (time : XrTime) (unitVector : XrVector3f) : bool * XrVector3f :=
  if negb (isGazeAvailable t now time) then (false, unitVector)
  else (true, m_latestGaze t).

Definition getType (t : Psvr2ToolkitEyeTracker) : TrackerType := Psvr2Toolkit_t.

(** *** The time spent in [Sleep]

    The loops again, for the milliseconds they sleep. [delay] is the
    argument of the [Sleep] in the read loop: 100 in the constructor
    (line 106), 1 in [ipcThread] (line 191). *)

Fixpoint recv_loop_slept (delay : Z) (size : Z) (retries : nat) (offset : Z)
    (inb : list recv_event) : Z :=
  match retries with
  | O => 0
  | S retries' =>
      let '(result, _, inb') := recv inb (size - offset) in
      let offset' := if 0 <? result then offset + result else offset in
      if offset' >=? size then 0
      else delay + recv_loop_slept delay size retries' offset' inb'
  end.

(** The connect loop sleeps 100 ms after each failed attempt (line 64). *)
Fixpoint connect_loop_slept (retries : nat) (script : list connect_outcome) : Z :=
  match retries with
  | O => 0
  | S retries' =>
      let '(rc, last_error, script') := connect script in
      if rc =? 0 then 0
      else if last_error =? WSAEISCONN then 0
      else 100 + connect_loop_slept retries' script'
  end.

(** The milliseconds the constructor sleeps: in the connect loop, and in
    the handshake read if it gets there. *)
Definition ctor_slept (abi : IpcProtocol) (net : Network) : Z :=
  let '(retries, _) := connect_loop 15 (connects net) in
  connect_loop_slept 15 (connects net)
  + if (retries =? 0)%nat then 0
    else recv_loop_slept 100 (sizeof_handshake_response abi) 5 0 (inbound net).

(** The milliseconds one turn of the loop of [ipcThread] sleeps: in the
    read loop, and in [Sleep(5 - (5 - retries))] at line 216, computed
    on [unsigned int]. *)
Definition ipcThread_body_slept (abi : IpcProtocol) (inb : list recv_event) : Z :=
  let size := sizeof_gaze_response abi in
  let '(retries, _, _, _) := recv_loop size 5 (zeroed size) 0 inb in
  recv_loop_slept 1 size 5 0 inb
  + (5 - (5 - Z.of_nat retries) mod 4294967296) mod 4294967296.

(** *** The destructor and the thread, step by step

    The destructor runs on the thread of the owner while [ipcThread]
    runs on [m_listeningThread]. A state of the two together is the
    object, the stream of the socket, the statement the destructor is
    about to execute, and the calls it has made so far, oldest first. *)

Inductive dtor_pc :=
| DtorNotCalled
| DtorIfStarted      (* line 119: if (m_started) *)
| DtorJoin           (* line 120: m_listeningThread.join() *)
| DtorIfSocket       (* line 122: if (m_socket != INVALID_SOCKET) *)
| DtorShutdown       (* line 123: shutdown(m_socket, 2) *)
| DtorClosesocket    (* line 124: closesocket(m_socket) *)
| DtorClearSocket    (* line 125: m_socket = 0 *)
| DtorWSACleanup     (* line 127: WSACleanup() *)
| DtorReturned.

Inductive teardown_call :=
| JoinReturned
| ShutdownCalled
| ClosesocketCalled
| WSACleanupCalled.

Record System := mkSystem {
  obj : Psvr2ToolkitEyeTracker;
  stream : list recv_event;
  dtor : dtor_pc;
  calls : list teardown_call
}.

Definition set_socket (sock : SOCKET) (t : Psvr2ToolkitEyeTracker) :=
  {| m_started := m_started t;
     m_listeningThread := m_listeningThread t;
     m_socket := sock;
     m_latestGaze := m_latestGaze t;
     m_lastReceivedTime := m_lastReceivedTime t |}.

Definition set_thread (th : thread_state) (t : Psvr2ToolkitEyeTracker) :=
  {| m_started := m_started t;
     m_listeningThread := th;
     m_socket := m_socket t;
     m_latestGaze := m_latestGaze t;
     m_lastReceivedTime := m_lastReceivedTime t |}.

(** One statement of [~Psvr2ToolkitEyeTracker()]. [None]: the
    destructor cannot move, because [join] waits for a thread that has
    not returned, or because the destructor has returned. After
    [shutdown] nothing arrives on the socket any more. *)
Definition dtor_step (s : System) : option System :=
  match dtor s with
  | DtorNotCalled =>
      Some (mkSystem (obj s) (stream s) DtorIfStarted (calls s))
  | DtorIfStarted =>
      Some (mkSystem (obj s) (stream s)
              (if m_started (obj s) then DtorJoin else DtorIfSocket) (calls s))
  | DtorJoin =>
      match m_listeningThread (obj s) with
      | Finished =>
          Some (mkSystem (obj s) (stream s) DtorIfSocket (calls s ++ [JoinReturned]))
      | _ => None
      end
  | DtorIfSocket =>
      Some (mkSystem (obj s) (stream s)
              (if m_socket (obj s) =? INVALID_SOCKET then DtorWSACleanup else DtorShutdown)
              (calls s))
  | DtorShutdown =>
      Some (mkSystem (obj s) [] DtorClosesocket (calls s ++ [ShutdownCalled]))
  | DtorClosesocket =>
      Some (mkSystem (obj s) [] DtorClearSocket (calls s ++ [ClosesocketCalled]))
  | DtorClearSocket =>
      Some (mkSystem (set_socket 0 (obj s)) (stream s) DtorWSACleanup (calls s))
  | DtorWSACleanup =>
      Some (mkSystem (obj s) (stream s) DtorReturned (calls s ++ [WSACleanupCalled]))
  | DtorReturned => None
  end.

Section Lifecycle.
Variable abi : IpcProtocol.

(** One step of [ipcThread] on [m_listeningThread]: the test of
    [while (m_started)] followed by the body of the loop, or by the
    return of the thread function. *)
Definition ipc_step (now : time_point) (s : System) : option System :=
  match m_listeningThread (obj s) with
  | Running =>
      if m_started (obj s) then
        let '(t', inb') := ipcThread_body abi now (obj s) (stream s) in
        Some (mkSystem t' inb' (dtor s) (calls s))
      else
        Some (mkSystem (set_thread Finished (obj s)) (stream s) (dtor s) (calls s))
  | _ => None
  end.

(** The owner calls [start] on an object it has not started and has
    not begun to destroy. *)
Definition start_step (session : XrSession) (s : System) : option System :=
  match dtor s with
  | DtorNotCalled =>
      if m_started (obj s) then None
      else Some (mkSystem (start session (obj s)) (stream s) (dtor s) (calls s))
  | _ => None
  end.

Inductive step : System -> System -> Prop :=
| step_start session s s' : start_step session s = Some s' -> step s s'
| step_ipc now s s' : ipc_step now s = Some s' -> step s s'
| step_dtor s s' : dtor_step s = Some s' -> step s s'.

Inductive steps : System -> System -> Prop :=
| steps_refl s : steps s s
| steps_snoc s1 s2 s3 : steps s1 s2 -> step s2 s3 -> steps s1 s3.

(** The destructor run on its own for [fuel] statements. *)
Fixpoint run_dtor (fuel : nat) (s : System) : System :=
  match fuel with
  | O => s
  | S fuel' =>
      match dtor_step s with
      | Some s' => run_dtor fuel' s'
      | None => s
      end
  end.

(** The loop of [ipcThread] with nobody else running, one clock
    reading per turn. *)
Fixpoint ipc_run (clock : list time_point) (t : Psvr2ToolkitEyeTracker)
    (inb : list recv_event) : Psvr2ToolkitEyeTracker * list recv_event :=
  match clock with
  | [] => (t, inb)
  | now :: clock' =>
      let '(t', inb') := ipcThread_body abi now t inb in
      ipc_run clock' t' inb'
  end.
End Lifecycle.

(** The two cached fields of the object. *)
Definition cached (t : Psvr2ToolkitEyeTracker) : XrVector3f * time_point :=
  (m_latestGaze t, m_lastReceivedTime t).

(** The state of affairs while the thread runs on a started object:
    the destructor has got to [join] at most and has made no call. *)
Definition waiting (s : System) : Prop :=
  m_started (obj s) = true
  /\ m_listeningThread (obj s) = Running
  /\ calls s = []
  /\ (dtor s = DtorNotCalled \/ dtor s = DtorIfStarted \/ dtor s = DtorJoin).

(** The calls the destructor has made when it stands before each of its
    statements: [join] has returned first if the object was started, and
    the calls on the socket follow. *)
Definition teardown_order (s : System) : Prop :=
  let joined := if m_started (obj s) then [JoinReturned] else [] in
  match dtor s with
  | DtorNotCalled | DtorIfStarted => calls s = []
  | DtorJoin => calls s = [] /\ m_started (obj s) = true
  | DtorIfSocket | DtorShutdown => calls s = joined
  | DtorClosesocket => calls s = joined ++ [ShutdownCalled]
  | DtorClearSocket => calls s = joined ++ [ShutdownCalled; ClosesocketCalled]
  | DtorWSACleanup =>
      calls s = joined ++ [ShutdownCalled; ClosesocketCalled] \/ calls s = joined
  | DtorReturned =>
      calls s = joined ++ [ShutdownCalled; ClosesocketCalled; WSACleanupCalled]
      \/ calls s = joined ++ [WSACleanupCalled]
  end.

End Psvr2Toolkit.

(** ** vrchat_osc.cpp *)

Module VRChatOSC.

(** *** The OSC library, as far as [ProcessMessage] uses it

    An argument of a received message carries its type tag; the argument
    stream throws when an argument is missing, has another type than the
    one asked for, or is left over at [osc::EndMessage]. *)

Inductive osc_arg :=
| OscFloat (f : float)
| OscInt32 (i : Z)
| OscString (s : string).

Record ReceivedMessage := mkMessage {
  AddressPattern : string;
  ArgumentStream : list osc_arg
}.

Inductive osc_Exception :=
| MissingArgumentException
| WrongArgumentTypeException
| ExcessArgumentException.

(** [args >> f] for a [float& f] *)
Definition read_float (args : list osc_arg)
  : result osc_Exception (float * list osc_arg) :=
  match args with
  | [] => Throw MissingArgumentException
  | OscFloat f :: rest => Ok (f, rest)
  | _ :: _ => Throw WrongArgumentTypeException
  end.

(** [args >> osc::EndMessage] *)
Definition read_EndMessage (args : list osc_arg) : result osc_Exception unit :=
  match args with
  | [] => Ok tt
  | _ :: _ => Throw ExcessArgumentException
  end.

(** [m_socket], a [UdpListeningReceiveSocket]: all that matters of it
    here is whether [AsynchronousBreak] has been called, which makes
    [Run] return. *)
Record UdpListeningReceiveSocket := mkSocket { break_ : bool }.

Record VRChatOSCEyeTracker := mkTracker {
  m_started : bool;
  m_listeningThread : thread_state;
  m_socket : UdpListeningReceiveSocket;
  m_latestGaze : XrVector3f;
  m_lastReceivedTime : time_point
}.

(** The object after its constructor (the socket is bound to port 9000). *)
Definition constructed : VRChatOSCEyeTracker :=
  {| m_started := false;
     m_listeningThread := NoThread;
     m_socket := mkSocket false;
     m_latestGaze := XrVector3f_zero;
     m_lastReceivedTime := time_point_default |}.

(** [createVRChatOSCEyeTracker()]: the constructor throws when the
    socket cannot be bound, and the factory then gives the empty pointer. *)
Definition createVRChatOSCEyeTracker (bind_succeeds : bool)
  : option VRChatOSCEyeTracker :=
  if bind_succeeds then Some constructed else None.

Definition address_pattern : string := "/tracking/eye/LeftRightPitchYaw".

Section WithLibm.
(** [sin] and [cos] applied to a [float]: the overloads of <cmath> that
    take and give a [float]. *)
Variables sinf cosf : float -> float.

(** [angle * M_PI / 180.0f * -1.0f], computed in [double] and stored
    in a [const float] (lines 96 and 98). *)
Definition pitch_radians (angle : float) : float :=
  F64.to_float
    (F64.mul (F64.div (F64.mul (F64.of_float angle) F64.M_PI) F64.c180)
             F64.minus_one).

(** [angle * M_PI / 180.0f] (lines 97 and 99). *)
Definition yaw_radians (angle : float) : float :=
  F64.to_float (F64.div (F64.mul (F64.of_float angle) F64.M_PI) F64.c180).

(** The initialiser of [unitVector] (lines 101-105). *)
Definition unit_vector (leftPitch leftYaw rightPitch rightYaw : float) : XrVector3f :=
  let leftPitchRad := pitch_radians leftPitch in
  let leftYawRad := yaw_radians leftYaw in
  let rightPitchRad := pitch_radians rightPitch in
  let rightYawRad := yaw_radians rightYaw in
  {| x := F32.div
            (F32.add (F32.mul (sinf leftYawRad) (cosf leftPitchRad))
                     (F32.mul (sinf rightYawRad) (cosf rightPitchRad)))
            F32.two;
     y := F32.div (F32.add (sinf leftPitchRad) (sinf rightPitchRad)) F32.two;
     z := F32.div
            (F32.sub (F32.mul (F32.opp (cosf leftYawRad)) (cosf leftPitchRad))
                     (F32.mul (cosf rightYawRad) (cosf rightPitchRad)))
            F32.two |}.

(** The body of the [try] block of [ProcessMessage]. *)
Definition ProcessMessage_try (now : time_point) (m : ReceivedMessage)
    (t : VRChatOSCEyeTracker) : result osc_Exception VRChatOSCEyeTracker :=
  if String.eqb (AddressPattern m) address_pattern then
    let args := ArgumentStream m in
    do (leftPitch, args) <- read_float args;
    do (leftYaw, args) <- read_float args;
    do (rightPitch, args) <- read_float args;
    do (rightYaw, args) <- read_float args;
    do tt <- read_EndMessage args;
    let unitVector := unit_vector leftPitch leftYaw rightPitch rightYaw in
    if negb (F32.isnan leftPitch || F32.isnan leftYaw
             || F32.isnan rightPitch || F32.isnan rightYaw)
    then
      Ok {| m_started := m_started t;
            m_listeningThread := m_listeningThread t;
            m_socket := m_socket t;
            m_latestGaze := unitVector;
            m_lastReceivedTime := now |}
    else Ok t
  else Ok t.

(** [ProcessMessage(m, remoteEndpoint)]: an [osc::Exception] is caught
    and traced. [now] is the reading of the clock at line 84. *)
Definition ProcessMessage (now : time_point) (m : ReceivedMessage)
    (t : VRChatOSCEyeTracker) : VRChatOSCEyeTracker :=
  match ProcessMessage_try now m t with
  | Ok t' => t'
  | Throw _ => t
  end.
End WithLibm.

(** [start(session)] *)
Definition start (session : XrSession) (t : VRChatOSCEyeTracker)
  : VRChatOSCEyeTracker :=
  {| m_started := true;
     m_listeningThread := Running;
     m_socket := m_socket t;
     m_latestGaze := m_latestGaze t;
     m_lastReceivedTime := m_lastReceivedTime t |}.

(** [stop()] *)
Definition stop (t : VRChatOSCEyeTracker) : VRChatOSCEyeTracker := t.

(** [isGazeAvailable(time)]; [now] is the reading of the clock. *)
Definition isGazeAvailable (t : VRChatOSCEyeTracker) (now : time_point)
    (time : XrTime) : bool :=
  now - m_lastReceivedTime t <? 1000000000.

(** [getGaze(time, unitVector)]: the returned flag and the value of
    [unitVector] afterwards. *)
Definition getGaze (t : VRChatOSCEyeTracker) (now : time_point)
    (time : XrTime) (unitVector : XrVector3f) : bool * XrVector3f :=
  if negb (isGazeAvailable t now time) then (false, unitVector)
  else (true, m_latestGaze t).

Definition getType (t : VRChatOSCEyeTracker) : TrackerType := VRChatOSC_t.

(** *** The destructor and the listening thread, step by step *)

Inductive dtor_pc :=
| DtorNotCalled
| DtorIfStarted          (* line 45: if (m_started) *)
| DtorAsynchronousBreak  (* line 46: m_socket.AsynchronousBreak() *)
| DtorJoin               (* line 47: m_listeningThread.join() *)
| DtorReturned.

Inductive teardown_call :=
| AsynchronousBreakCalled
| JoinReturned.

Record System := mkSystem {
  obj : VRChatOSCEyeTracker;
  dtor : dtor_pc;
  calls : list teardown_call
}.

Definition set_socket (sock : UdpListeningReceiveSocket) (t : VRChatOSCEyeTracker) :=
  {| m_started := m_started t;
     m_listeningThread := m_listeningThread t;
     m_socket := sock;
     m_latestGaze := m_latestGaze t;
     m_lastReceivedTime := m_lastReceivedTime t |}.

Definition set_thread (th : thread_state) (t : VRChatOSCEyeTracker) :=
  {| m_started := m_started t;
     m_listeningThread := th;
     m_socket := m_socket t;
     m_latestGaze := m_latestGaze t;
     m_lastReceivedTime := m_lastReceivedTime t |}.

(** One statement of [~VRChatOSCEyeTracker()]. *)
Definition dtor_step (s : System) : option System :=
  match dtor s with
  | DtorNotCalled => Some (mkSystem (obj s) DtorIfStarted (calls s))
  | DtorIfStarted =>
      Some (mkSystem (obj s)
              (if m_started (obj s) then DtorAsynchronousBreak else DtorReturned)
              (calls s))
  | DtorAsynchronousBreak =>
      Some (mkSystem (set_socket (mkSocket true) (obj s)) DtorJoin
              (calls s ++ [AsynchronousBreakCalled]))
  | DtorJoin =>
      match m_listeningThread (obj s) with
      | Finished => Some (mkSystem (obj s) DtorReturned (calls s ++ [JoinReturned]))
      | _ => None
      end
  | DtorReturned => None
  end.

Section Lifecycle.
Variables sinf cosf : float -> float.

(** One step of [m_socket.Run()] on [m_listeningThread]: it returns
    once the break has been requested, and otherwise hands the next
    message to [ProcessMessage]. *)
Definition run_step (now : time_point) (m : ReceivedMessage) (s : System)
  : option System :=
  match m_listeningThread (obj s) with
  | Running =>
      if break_ (m_socket (obj s)) then
        Some (mkSystem (set_thread Finished (obj s)) (dtor s) (calls s))
      else
        Some (mkSystem (ProcessMessage sinf cosf now m (obj s)) (dtor s) (calls s))
  | _ => None
  end.

Definition start_step (session : XrSession) (s : System) : option System :=
  match dtor s with
  | DtorNotCalled =>
      if m_started (obj s) then None
      else Some (mkSystem (start session (obj s)) (dtor s) (calls s))
  | _ => None
  end.

Inductive step : System -> System -> Prop :=
| step_start session s s' : start_step session s = Some s' -> step s s'
| step_run now m s s' : run_step now m s = Some s' -> step s s'
| step_dtor s s' : dtor_step s = Some s' -> step s s'.

Inductive steps : System -> System -> Prop :=
| steps_refl s : steps s s
| steps_snoc s1 s2 s3 : steps s1 s2 -> step s2 s3 -> steps s1 s3.

(** The messages of a run handed to [ProcessMessage] one after the
    other, each with the clock reading taken for it. *)
Fixpoint process_all (ms : list (time_point * ReceivedMessage))
    (t : VRChatOSCEyeTracker) : VRChatOSCEyeTracker :=
  match ms with
  | [] => t
  | (now, m) :: ms' => process_all ms' (ProcessMessage sinf cosf now m t)
  end.
End Lifecycle.

(** The two cached fields of the object. *)
Definition cached (t : VRChatOSCEyeTracker) : XrVector3f * time_point :=
  (m_latestGaze t, m_lastReceivedTime t).

(** The state of affairs on a started object: the thread exists, and
    once the destructor is past [AsynchronousBreak] the break has been
    requested. *)
Definition break_requested (s : System) : Prop :=
  m_started (obj s) = true
  /\ m_listeningThread (obj s) <> NoThread
  /\ (dtor s = DtorJoin -> break_ (m_socket (obj s)) = true).

(** Where the destructor of a started object stands, what it has called
    and what the thread does: the thread runs until the break has been
    requested, and the destructor returns after the thread. *)
Definition teardown_order (s : System) : Prop :=
  m_started (obj s) = true
  /\ match dtor s with
     | DtorNotCalled | DtorIfStarted | DtorAsynchronousBreak =>
         calls s = []
         /\ break_ (m_socket (obj s)) = false
         /\ m_listeningThread (obj s) = Running
     | DtorJoin =>
         calls s = [AsynchronousBreakCalled]
         /\ break_ (m_socket (obj s)) = true
         /\ m_listeningThread (obj s) <> NoThread
     | DtorReturned =>
         calls s = [AsynchronousBreakCalled; JoinReturned]
         /\ break_ (m_socket (obj s)) = true
         /\ m_listeningThread (obj s) = Finished
     end.

End VRChatOSC.

(** ** The mutex around the two cached fields

    Both trackers guard [m_latestGaze] and [m_lastReceivedTime] with
    [m_mutex] in the same three places: the background thread stores an
    accepted sample (psvr2_toolkit.cpp lines 209-211, vrchat_osc.cpp
    lines 115-117), and a caller loads the time (lines 141-142, 62-63) or
    the vector (lines 151-152, 72-73). Each statement below is one step
    of one thread. *)

Module CriticalSection.

Inductive owner :=
| Writer
| Reader (i : nat).

(** The background thread: outside the block; after
    [std::unique_lock lock(m_mutex)]; after [m_latestGaze = v]; after
    [m_lastReceivedTime = now]. *)
Inductive writer_pc :=
| WOutside
| WLocked (v : XrVector3f) (now : time_point)
| WGazeStored (v : XrVector3f) (now : time_point)
| WTimeStored.

(** A caller: outside the block; after the lock; after the load. A
    block loads the time or the vector; [RLoaded] keeps what the two
    fields were at that load. *)
Inductive reader_pc :=
| ROutside
| RLocked
| RLoaded (v : XrVector3f) (t : time_point).

(** The two fields, the owner of [m_mutex], where each thread stands,
    and every sample stored so far, newest first. *)
Record Machine := mkMachine {
  m_latestGaze : XrVector3f;
  m_lastReceivedTime : time_point;
  m_mutex : option owner;
  writer : writer_pc;
  readers : nat -> reader_pc;
  accepted : list (XrVector3f * time_point)
}.

Definition set_reader (i : nat) (pc : reader_pc) (rs : nat -> reader_pc)
  : nat -> reader_pc :=
  fun j => if Nat.eqb j i then pc else rs j.

Inductive step : Machine -> Machine -> Prop :=
| w_lock v now m :
    writer m = WOutside -> m_mutex m = None ->
    step m (mkMachine (m_latestGaze m) (m_lastReceivedTime m) (Some Writer)
              (WLocked v now) (readers m) (accepted m))
| w_store_gaze v now m :
    writer m = WLocked v now ->
    step m (mkMachine v (m_lastReceivedTime m) (m_mutex m)
              (WGazeStored v now) (readers m) (accepted m))
| w_store_time v now m :
    writer m = WGazeStored v now ->
    step m (mkMachine (m_latestGaze m) now (m_mutex m)
              WTimeStored (readers m) ((v, now) :: accepted m))
| w_unlock m :
    writer m = WTimeStored ->
    step m (mkMachine (m_latestGaze m) (m_lastReceivedTime m) None
              WOutside (readers m) (accepted m))
| r_lock i m :
    readers m i = ROutside -> m_mutex m = None ->
    step m (mkMachine (m_latestGaze m) (m_lastReceivedTime m) (Some (Reader i))
              (writer m) (set_reader i RLocked (readers m)) (accepted m))
| r_load i m :
    readers m i = RLocked ->
    step m (mkMachine (m_latestGaze m) (m_lastReceivedTime m) (m_mutex m)
              (writer m)
              (set_reader i (RLoaded (m_latestGaze m) (m_lastReceivedTime m)) (readers m))
              (accepted m))
| r_unlock i v t m :
    readers m i = RLoaded v t ->
    step m (mkMachine (m_latestGaze m) (m_lastReceivedTime m) None
              (writer m) (set_reader i ROutside (readers m)) (accepted m)).

Inductive steps : Machine -> Machine -> Prop :=
| steps_refl m : steps m m
| steps_snoc m1 m2 m3 : steps m1 m2 -> step m2 m3 -> steps m1 m3.

(** A tracker that has just been constructed: both fields as their
    member initialisers leave them, nobody in a block. *)
Definition initial : Machine :=
  mkMachine XrVector3f_zero time_point_default None WOutside
    (fun _ => ROutside) [].

(** The pair [(v, t)] is what one store left: the newest accepted
    sample, or the initial values when nothing was stored. *)
Definition from_one_sample (v : XrVector3f) (t : time_point)
    (acc : list (XrVector3f * time_point)) : Prop :=
  match acc with
  | [] => v = XrVector3f_zero /\ t = time_point_default
  | s :: _ => (v, t) = s
  end.

(** The pair [(v, t)] is the initial one or that of some accepted sample. *)
Definition from_a_sample (v : XrVector3f) (t : time_point)
    (acc : list (XrVector3f * time_point)) : Prop :=
  (v = XrVector3f_zero /\ t = time_point_default) \/ In (v, t) acc.

(** What holds of the machine at each statement: the background thread
    holds the mutex from its lock to its unlock, and the two fields
    disagree only between its two stores; a caller inside a block holds
    the mutex; what a caller has loaded is the pair of one sample. *)
Definition consistent (m : Machine) : Prop :=
  match writer m with
  | WOutside =>
      m_mutex m <> Some Writer
      /\ from_one_sample (m_latestGaze m) (m_lastReceivedTime m) (accepted m)
  | WLocked _ _ =>
      m_mutex m = Some Writer
      /\ from_one_sample (m_latestGaze m) (m_lastReceivedTime m) (accepted m)
  | WGazeStored v _ =>
      m_mutex m = Some Writer /\ m_latestGaze m = v
  | WTimeStored =>
      m_mutex m = Some Writer
      /\ from_one_sample (m_latestGaze m) (m_lastReceivedTime m) (accepted m)
  end
  /\ (forall i, readers m i <> ROutside -> m_mutex m = Some (Reader i))
  /\ (forall i v t, readers m i = RLoaded v t -> from_a_sample v t (accepted m)).

(** Every state of a list is reached from the one before it. *)
Fixpoint chain (m : Machine) (ms : list Machine) : Prop :=
  match ms with
  | [] => True
  | m' :: ms' => step m m' /\ chain m' ms'
  end.

(** Whoever owns the mutex is inside a block. *)
Definition held_from_inside (m : Machine) : Prop :=
  match m_mutex m with
  | None => True
  | Some Writer => writer m <> WOutside
  | Some (Reader i) => readers m i <> ROutside
  end.

End CriticalSection.

(** ** Reference definitions, in the words of the specification *)

Module Spec.

(** "FreshnessWindow: fixed constant, one second." *)
Definition FreshnessWindow : Z := 1000000000.

(** "[isFresh(now)]: true iff [now - storedTimestamp < FreshnessWindow]." *)
Definition isFresh (storedTimestamp now : time_point) : bool :=
  now - storedTimestamp <? FreshnessWindow.

(** "averages the two eye direction vectors component-wise" *)
Definition average (a b : float) : float := F32.div (F32.add a b) F32.two.

Definition vec_average (a b : XrVector3f) : XrVector3f :=
  {| x := average (x a) (x b);
     y := average (y a) (y b);
     z := average (z a) (z b) |}.

(** "a fixed axis-sign convention (X and Z negated, Y unchanged)" *)
Definition negate_x_z (v : XrVector3f) : XrVector3f :=
  {| x := F32.opp (x v); y := y v; z := F32.opp (z v) |}.

(** "X = sin(yaw)·cos(pitch), Y = sin(pitch), Z = −cos(yaw)·cos(pitch)" *)
Definition project (sinf cosf : float -> float) (pitch yaw : float) : XrVector3f :=
  {| x := F32.mul (sinf yaw) (cosf pitch);
     y := sinf pitch;
     z := F32.opp (F32.mul (cosf yaw) (cosf pitch)) |}.

(** The bytes that the first [n] calls of [recv] can draw on. *)
Fixpoint arrivals (n : nat) (inb : list Psvr2Toolkit.recv_event) : list byte :=
  match n, inb with
  | S n', Psvr2Toolkit.RecvData bs :: rest => bs ++ arrivals n' rest
  | S n', Psvr2Toolkit.RecvError :: rest => arrivals n' rest
  | _, _ => []
  end.

(** "bounded retries and partial-read accumulation": the response is
    fully read when the arrivals of the five attempts fill it. *)
Definition fully_read (size : Z) (inb : list Psvr2Toolkit.recv_event) : Prop :=
  size <= Z.of_nat (List.length (arrivals 5 inb)).

(** The response object after the read: the first [size] bytes that
    arrived, over the zeros it was initialised with. *)
Definition response_bytes (size : Z) (inb : list Psvr2Toolkit.recv_event) : list byte :=
  Psvr2Toolkit.store (Psvr2Toolkit.zeroed size) 0
    (firstn (Z.to_nat size) (arrivals 5 inb)).

(** One of the first [n] attempts to connect succeeds, or finds the
    socket connected already. *)
Definition connect_attempt_ok (o : Psvr2Toolkit.connect_outcome) : bool :=
  match o with
  | Psvr2Toolkit.ConnectOk => true
  | Psvr2Toolkit.ConnectError e => e =? Psvr2Toolkit.WSAEISCONN
  end.

Definition connects_within (n : nat) (script : list Psvr2Toolkit.connect_outcome) : bool :=
  existsb connect_attempt_ok (firstn n script).

(** All the bytes of a stream, in order. *)
Fixpoint stream_bytes (inb : list Psvr2Toolkit.recv_event) : list byte :=
  match inb with
  | [] => []
  | Psvr2Toolkit.RecvData bs :: rest => bs ++ stream_bytes rest
  | Psvr2Toolkit.RecvError :: rest => stream_bytes rest
  end.

(** The position, among the first [n] attempts to connect, of the first
    that succeeds or finds the socket connected. *)
Fixpoint first_connect (n : nat) (script : list Psvr2Toolkit.connect_outcome)
  : option nat :=
  match n, script with
  | S n', o :: rest =>
      if connect_attempt_ok o then Some O
      else option_map S (first_connect n' rest)
  | _, _ => None
  end.


(** "if the read fully completed and both per-eye validity flags in the
    payload are set, averages the two eye direction vectors
    component-wise, applies a fixed axis-sign convention [...] and - if no
    component is NaN - hands the result and the current monotonic time to
    the cache": the vector one iteration hands over, if any. *)
Definition device_sample (abi : Psvr2Toolkit.IpcProtocol)
    (inb : list Psvr2Toolkit.recv_event) : option XrVector3f :=
  let size := Psvr2Toolkit.sizeof_gaze_response abi in
  let payload := Psvr2Toolkit.gaze_payload abi (response_bytes size inb) in
  let l := Psvr2Toolkit.leftEye payload in
  let r := Psvr2Toolkit.rightEye payload in
  let v := negate_x_z (vec_average (Psvr2Toolkit.gazeDirNorm l)
                                   (Psvr2Toolkit.gazeDirNorm r)) in
  if (size <=? Z.of_nat (List.length (arrivals 5 inb)))
     && Psvr2Toolkit.isGazeDirValid l
     && Psvr2Toolkit.isGazeDirValid r
     && negb (has_nan v)
  then Some v else None.

(** The samples handed over in a run of the loop, oldest first, each with
    the clock reading of its iteration. The stream goes from one
    iteration to the next as the read loop leaves it. *)
Fixpoint device_samples (abi : Psvr2Toolkit.IpcProtocol) (clock : list time_point)
    (inb : list Psvr2Toolkit.recv_event) : list (XrVector3f * time_point) :=
  match clock with
  | [] => []
  | now :: clock' =>
      let size := Psvr2Toolkit.sizeof_gaze_response abi in
      let inb' := snd (Psvr2Toolkit.recv_loop size 5 (Psvr2Toolkit.zeroed size) 0 inb) in
      match device_sample abi inb with
      | Some v => (v, now) :: device_samples abi clock' inb'
      | None => device_samples abi clock' inb'
      end
  end.

(** "only a specific eye-tracking address pattern is handled [...] The
    matched message's payload is parsed as four floating-point fields
    [...] If any input angle is NaN, the sample is discarded; malformed
    or unparseable messages are caught": the vector one message hands to
    the cache, if any. *)
Definition osc_sample (sinf cosf : float -> float) (m : VRChatOSC.ReceivedMessage)
  : option XrVector3f :=
  if String.eqb (VRChatOSC.AddressPattern m) VRChatOSC.address_pattern then
    match VRChatOSC.ArgumentStream m with
    | [VRChatOSC.OscFloat leftPitch; VRChatOSC.OscFloat leftYaw;
       VRChatOSC.OscFloat rightPitch; VRChatOSC.OscFloat rightYaw] =>
        if F32.isnan leftPitch || F32.isnan leftYaw
           || F32.isnan rightPitch || F32.isnan rightYaw
        then None
        else Some (vec_average
                     (project sinf cosf (VRChatOSC.pitch_radians leftPitch)
                        (VRChatOSC.yaw_radians leftYaw))
                     (project sinf cosf (VRChatOSC.pitch_radians rightPitch)
                        (VRChatOSC.yaw_radians rightYaw)))
    | _ => None
    end
  else None.

(** The samples handed over by the messages of a run, oldest first, each
    with the clock reading taken for its message. *)
Fixpoint osc_samples (sinf cosf : float -> float)
    (ms : list (time_point * VRChatOSC.ReceivedMessage))
  : list (XrVector3f * time_point) :=
  match ms with
  | [] => []
  | (now, m) :: ms' =>
      match osc_sample sinf cosf m with
      | Some v => (v, now) :: osc_samples sinf cosf ms'
      | None => osc_samples sinf cosf ms'
      end
  end.

(** "[readIfFresh(now)]: returns the stored vector only if
    [isFresh(now)]; otherwise signals unavailable", for a cache that
    holds [sample]. *)
Definition readIfFresh (sample : XrVector3f * time_point) (now : time_point)
  : option XrVector3f :=
  if isFresh (snd sample) now then Some (fst sample) else None.

(** "the most recently recorded non-NaN vector" of the samples of a run,
    oldest first, with its timestamp. *)
Definition newest_non_nan (samples : list (XrVector3f * time_point))
  : option (XrVector3f * time_point) :=
  last (map Some (filter (fun s => negb (has_nan (fst s))) samples)) None.

End Spec.

(** ** The samples of a run, step by step

    What the steps of the background thread hand to the cache in a run
    in which the owner and the destructor take steps too, and the same
    run at the level of the statements of the locked block. *)

Module History.

Definition sample : Type := XrVector3f * time_point.

(** What the step of [ipcThread] taken at clock reading [now] hands to
    the cache: the sample of the response it reads, if the body of the
    loop runs and there is one. *)
Definition device_handed (abi : Psvr2Toolkit.IpcProtocol) (now : time_point)
    (s : Psvr2Toolkit.System) : list sample :=
  match Psvr2Toolkit.m_listeningThread (Psvr2Toolkit.obj s) with
  | Running =>
      if Psvr2Toolkit.m_started (Psvr2Toolkit.obj s) then
        match Spec.device_sample abi (Psvr2Toolkit.stream s) with
        | Some v => [(v, now)]
        | None => []
        end
      else []
  | _ => []
  end.

(** A run of the device tracker with the samples handed to the cache on
    the way, oldest first. *)
Inductive device_trace (abi : Psvr2Toolkit.IpcProtocol)
  : Psvr2Toolkit.System -> list sample -> Psvr2Toolkit.System -> Prop :=
| device_trace_nil s : device_trace abi s [] s
| device_trace_start s1 log s2 session s3 :
    device_trace abi s1 log s2 ->
    Psvr2Toolkit.start_step session s2 = Some s3 ->
    device_trace abi s1 log s3
| device_trace_ipc s1 log s2 now s3 :
    device_trace abi s1 log s2 ->
    Psvr2Toolkit.ipc_step abi now s2 = Some s3 ->
    device_trace abi s1 (log ++ device_handed abi now s2) s3
| device_trace_dtor s1 log s2 s3 :
    device_trace abi s1 log s2 ->
    Psvr2Toolkit.dtor_step s2 = Some s3 ->
    device_trace abi s1 log s3.

(** What the step of [Run] that takes the message [m] at clock reading
    [now] hands to the cache. *)
Definition osc_handed (sinf cosf : float -> float) (now : time_point)
    (m : VRChatOSC.ReceivedMessage) (s : VRChatOSC.System) : list sample :=
  match VRChatOSC.m_listeningThread (VRChatOSC.obj s) with
  | Running =>
      if VRChatOSC.break_ (VRChatOSC.m_socket (VRChatOSC.obj s)) then []
      else
        match Spec.osc_sample sinf cosf m with
        | Some v => [(v, now)]
        | None => []
        end
  | _ => []
  end.

Inductive osc_trace (sinf cosf : float -> float)
  : VRChatOSC.System -> list sample -> VRChatOSC.System -> Prop :=
| osc_trace_nil s : osc_trace sinf cosf s [] s
| osc_trace_start s1 log s2 session s3 :
    osc_trace sinf cosf s1 log s2 ->
    VRChatOSC.start_step session s2 = Some s3 ->
    osc_trace sinf cosf s1 log s3
| osc_trace_run s1 log s2 now m s3 :
    osc_trace sinf cosf s1 log s2 ->
    VRChatOSC.run_step sinf cosf now m s2 = Some s3 ->
    osc_trace sinf cosf s1 (log ++ osc_handed sinf cosf now m s2) s3
| osc_trace_dtor s1 log s2 s3 :
    osc_trace sinf cosf s1 log s2 ->
    VRChatOSC.dtor_step s2 = Some s3 ->
    osc_trace sinf cosf s1 log s3.

(** The locked block of the background thread for the sample
    [(v, now)], statement by statement: the machine after the lock, after
    [m_latestGaze = v], after [m_lastReceivedTime = now] and after the
    unlock. *)
Definition store_block (v : XrVector3f) (now : time_point)
    (m : CriticalSection.Machine) : list CriticalSection.Machine :=
  let rs := CriticalSection.readers m in
  let acc := CriticalSection.accepted m in
  [ CriticalSection.mkMachine (CriticalSection.m_latestGaze m)
      (CriticalSection.m_lastReceivedTime m) (Some CriticalSection.Writer)
      (CriticalSection.WLocked v now) rs acc;
    CriticalSection.mkMachine v
      (CriticalSection.m_lastReceivedTime m) (Some CriticalSection.Writer)
      (CriticalSection.WGazeStored v now) rs acc;
    CriticalSection.mkMachine v now (Some CriticalSection.Writer)
      CriticalSection.WTimeStored rs ((v, now) :: acc);
    CriticalSection.mkMachine v now None
      CriticalSection.WOutside rs ((v, now) :: acc) ].

(** The machine after the locked block has run once for each sample of
    [log], oldest first. *)
Fixpoint replay (log : list sample) (m : CriticalSection.Machine)
  : CriticalSection.Machine :=
  match log with
  | [] => m
  | (v, now) :: log' => replay log' (last (store_block v now m) m)
  end.

End History.

(** ** Instances for the examples

    A packed little-endian layout that fits the description of the wire
    format (a header of a 16-bit type tag and a 32-bit payload length; a
    one-byte result code; per eye a direction vector of three binary32
    values followed by a one-byte validity flag), and a [sin]/[cos] pair
    that has the values of Annex F of the C standard at the zeros, the
    infinities and NaN, with the first-order approximations [sin x = x]
    and [cos x = 1] elsewhere. They give the assumptions of the theorems
    below an inhabitant and the examples a concrete input. *)

Module Sample.
Import Psvr2Toolkit.

Definition u8 (b : byte) : Z := Z.of_N (Byte.to_N b).

Definition little_endian (bs : list byte) : Z :=
  fold_right (fun b acc => u8 b + 256 * acc) 0 bs.

Definition field (offset len : nat) (bs : list byte) : Z :=
  little_endian (firstn len (skipn offset bs)).

Definition float_at (offset : nat) (bs : list byte) : float :=
  F32.of_bits (field offset 4 bs).

Definition vector_at (offset : nat) (bs : list byte) : XrVector3f :=
  {| x := float_at offset bs;
     y := float_at (offset + 4) bs;
     z := float_at (offset + 8) bs |}.

Definition eye_at (offset : nat) (bs : list byte) : GazeEyeResult :=
  {| isGazeDirValid := negb (field (offset + 12) 1 bs =? 0);
     gazeDirNorm := vector_at offset bs |}.

Definition abi : IpcProtocol :=
  {| Command_ServerHandshakeResult := 3;
     HandshakeResult_Success := 1;
     sizeof_handshake_response := 7;
     handshake_header_type := field 0 2;
     handshake_payload_result := field 6 1;
     sizeof_gaze_response := 32;
     gaze_payload := fun bs =>
       {| leftEye := eye_at 6 bs; rightEye := eye_at 19 bs |} |}.

Definition sinf (a : float) : float :=
  match a with
  | S754_infinity _ => S754_nan
  | _ => a
  end.

Definition cosf (a : float) : float :=
  match a with
  | S754_infinity _ | S754_nan => S754_nan
  | _ => F32.one
  end.
End Sample.

(** ** Inputs of the examples *)

Module Examples.
Import Psvr2Toolkit.

(** A handshake response in the layout of [Sample.abi]: type 3,
    payload length 1, result 1. *)
Definition good_response : list byte := [x03; x00; x01; x00; x00; x00; x01].

(** The server is there and answers at once. *)
Definition net_ready : Network :=
  {| connects := [ConnectError WSAEWOULDBLOCK; ConnectError WSAEISCONN];
     inbound := [RecvError; RecvData [x03; x00; x01]; RecvData [x00; x00; x00; x01]] |}.

(** The server starts to listen only after the fifteenth attempt has
    been refused ([WSAECONNREFUSED]); its response would follow. *)
Definition net_late : Network :=
  {| connects := repeat (ConnectError 10061) 15 ++ [ConnectOk];
     inbound := [RecvData good_response] |}.

(** A gaze response in the layout of [Sample.abi]: the header, then
    per eye three binary32 values and the validity flag. *)
Definition gaze_response (lx ly lz : list byte) (lvalid : byte)
    (rx ry rz : list byte) (rvalid : byte) : list byte :=
  [x05; x00; x1a; x00; x00; x00]
    ++ lx ++ ly ++ lz ++ [lvalid] ++ rx ++ ry ++ rz ++ [rvalid].

Definition f_zero : list byte := [x00; x00; x00; x00].
Definition f_one : list byte := [x00; x00; x80; x3f].
Definition f_minus_one : list byte := [x00; x00; x80; xbf].
Definition f_nan : list byte := [x00; x00; xc0; x7f].
(** 0.1f, 0.2f and 0.3f *)
Definition f_0_1 : list byte := [xcd; xcc; xcc; x3d].
Definition f_0_2 : list byte := [xcd; xcc; x4c; x3e].
Definition f_0_3 : list byte := [x9a; x99; x99; x3e].

(** left = (1, 0, 0), right = (-1, 0, 0), both valid, in two pieces *)
Definition stream_opposite : list recv_event :=
  [RecvData (firstn 10 (gaze_response f_one f_zero f_zero x01
                          f_minus_one f_zero f_zero x01));
   RecvError;
   RecvData (skipn 10 (gaze_response f_one f_zero f_zero x01
                         f_minus_one f_zero f_zero x01))].

(** left = (0.1, 0.2, 0.3), right = (0.3, 0.2, 0.1), the right eye not
    valid *)
Definition stream_one_invalid : list recv_event :=
  [RecvData (gaze_response f_0_1 f_0_2 f_0_3 x01 f_0_3 f_0_2 f_0_1 x00)].

(** left = (NaN, 0, 0), right = (0, 0, 0), both valid *)
Definition stream_nan : list recv_event :=
  [RecvData (gaze_response f_nan f_zero f_zero x01 f_zero f_zero f_zero x01)].

(** OSC messages on the eye-tracking address *)
Definition eye_message (leftPitch leftYaw rightPitch rightYaw : float)
  : VRChatOSC.ReceivedMessage :=
  VRChatOSC.mkMessage VRChatOSC.address_pattern
    [VRChatOSC.OscFloat leftPitch; VRChatOSC.OscFloat leftYaw;
     VRChatOSC.OscFloat rightPitch; VRChatOSC.OscFloat rightYaw].

Definition msg_zero := eye_message F32.zero F32.zero F32.zero F32.zero.
Definition msg_nan_pitch := eye_message F32.nan F32.zero F32.zero F32.zero.
Definition msg_infinite_yaw := eye_message F32.zero F32.infinity F32.zero F32.zero.
(** three arguments only *)
Definition msg_short : VRChatOSC.ReceivedMessage :=
  VRChatOSC.mkMessage VRChatOSC.address_pattern
    [VRChatOSC.OscFloat F32.zero; VRChatOSC.OscFloat F32.zero;
     VRChatOSC.OscFloat F32.zero].
Definition msg_other_address : VRChatOSC.ReceivedMessage :=
  VRChatOSC.mkMessage "/avatar/parameters/VRMode"
    [VRChatOSC.OscFloat F32.zero; VRChatOSC.OscFloat F32.zero;
     VRChatOSC.OscFloat F32.zero; VRChatOSC.OscFloat F32.zero].

(** A device tracker that has been constructed on socket 1 and started,
    with nothing arriving, before anybody destroys it. *)
Definition device_started : System :=
  mkSystem (start 0 (constructed 1)) [] DtorNotCalled [].

(** A network tracker that has been constructed and started, before
    anybody destroys it. *)
Definition osc_started : VRChatOSC.System :=
  VRChatOSC.mkSystem (VRChatOSC.start 0 VRChatOSC.constructed)
    VRChatOSC.DtorNotCalled [].

(** The background thread stores the sample ((0, -0, -1), 5) and a
    caller then loads the two fields: the states of the machine on the
    way, one per statement. *)
Definition sample_vector : XrVector3f :=
  mkXrVector3f F32.zero F32.neg_zero (F32.opp F32.one).

Definition nobody_inside : nat -> CriticalSection.reader_pc :=
  fun _ => CriticalSection.ROutside.

Definition machine_run : list CriticalSection.Machine :=
  let log := [(sample_vector, 5)] in
  let locked := CriticalSection.set_reader 0 CriticalSection.RLocked nobody_inside in
  [ CriticalSection.mkMachine XrVector3f_zero 0 (Some CriticalSection.Writer)
      (CriticalSection.WLocked sample_vector 5) nobody_inside [];
    CriticalSection.mkMachine sample_vector 0 (Some CriticalSection.Writer)
      (CriticalSection.WGazeStored sample_vector 5) nobody_inside [];
    CriticalSection.mkMachine sample_vector 5 (Some CriticalSection.Writer)
      CriticalSection.WTimeStored nobody_inside log;
    CriticalSection.mkMachine sample_vector 5 None
      CriticalSection.WOutside nobody_inside log;
    CriticalSection.mkMachine sample_vector 5 (Some (CriticalSection.Reader 0))
      CriticalSection.WOutside locked log;
    CriticalSection.mkMachine sample_vector 5 (Some (CriticalSection.Reader 0))
      CriticalSection.WOutside
      (CriticalSection.set_reader 0 (CriticalSection.RLoaded sample_vector 5) locked)
      log ].

(** Three turns of the device loop with nothing on the socket, and one
    turn that reads the response of [stream_opposite]. *)
Definition clock_idle : list time_point := [1; 2; 3].
Definition clock_one : list time_point := [77].
(** One message with the four angles 0, taken at clock reading 10. *)
Definition messages_one : list (time_point * VRChatOSC.ReceivedMessage) :=
  [(10, msg_zero)].
(** Messages that hand nothing over. *)
Definition messages_idle : list (time_point * VRChatOSC.ReceivedMessage) :=
  [(1, msg_other_address); (2, msg_short); (3, msg_nan_pitch)].

(** Angles in degrees, by their bit patterns: 180, 90, 45, 1, 0.1,
    -30.5, the least subnormal, the greatest finite value, +infinity
    and -0. *)
Definition sample_angles : list float :=
  map F32.of_bits
    [0x43340000; 0x42B40000; 0x42340000; 0x3F800000; 0x3DCCCCCD;
     0xC1F40000; 0x00000001; 0x7F7FFFFF; 0x7F800000; 0x80000000].

(** A gaze response that comes in six pieces, one more than the loop
    has attempts; the two eyes are valid and look straight ahead. *)
Definition stream_slow : list recv_event :=
  let r := gaze_response f_zero f_zero f_minus_one x01 f_zero f_zero f_minus_one x01 in
  [RecvData (firstn 6 r); RecvData (firstn 6 (skipn 6 r));
   RecvData (firstn 6 (skipn 12 r)); RecvData (firstn 6 (skipn 18 r));
   RecvData (firstn 6 (skipn 24 r)); RecvData (skipn 30 r)].

(** The handshake response and the first gaze response in one segment. *)
Definition net_coalesced : Network :=
  {| connects := [ConnectOk];
     inbound := [RecvData (good_response
                             ++ gaze_response f_one f_zero f_zero x01
                                  f_minus_one f_zero f_zero x01)] |}.

(** A device tracker just constructed on socket 1, with the response of
    [stream_nan] and then the one of [stream_opposite] on their way. *)
Definition device_fresh : System :=
  mkSystem (constructed 1) (stream_nan ++ stream_opposite) DtorNotCalled [].

(** Messages on the eye-tracking address that the argument stream
    refuses: an integer where a float is due, and a fifth argument. *)
Definition msg_wrong_type : VRChatOSC.ReceivedMessage :=
  VRChatOSC.mkMessage VRChatOSC.address_pattern
    [VRChatOSC.OscFloat F32.zero; VRChatOSC.OscInt32 0;
     VRChatOSC.OscFloat F32.zero; VRChatOSC.OscFloat F32.zero].
Definition msg_long : VRChatOSC.ReceivedMessage :=
  VRChatOSC.mkMessage VRChatOSC.address_pattern
    [VRChatOSC.OscFloat F32.zero; VRChatOSC.OscFloat F32.zero;
     VRChatOSC.OscFloat F32.zero; VRChatOSC.OscFloat F32.zero;
     VRChatOSC.OscFloat F32.zero].

(** A network tracker that holds the sample of [msg_zero], taken at 10. *)
Definition osc_with_sample : VRChatOSC.VRChatOSCEyeTracker :=
  VRChatOSC.mkTracker true Running (VRChatOSC.mkSocket false) sample_vector 10.

End Examples.

(** * Properties *)

(** ** Sign symmetry of the IEEE operations *)

Section SignSymmetry.
Variables prec emax : Z.

Lemma binary_round_aux_negb (s : bool) (m e : Z) (l : location) :
  binary_round_aux prec emax (negb s) m e l
  = SFopp (binary_round_aux prec emax s m e l).
Proof.
  unfold binary_round_aux.
  destruct (shr_fexp prec emax m e l) as [mrs' e'].
  destruct (shr_fexp prec emax _ e' loc_Exact) as [mrs'' e''].
  destruct (shr_m mrs'') as [|p|p]; simpl; try reflexivity.
  destruct (e'' <=? emax - prec); reflexivity.
Qed.

Lemma SFdiv_opp_l (a b : spec_float) :
  SFdiv prec emax (SFopp a) b = SFopp (SFdiv prec emax a b).
Proof.
  destruct a as [sa|sa| |sa ma ea], b as [sb|sb| |sb mb eb]; simpl;
    try reflexivity; try (destruct sa, sb; reflexivity).
  destruct (SFdiv_core_binary prec emax (Z.pos ma) ea (Z.pos mb) eb) as [[mz ez] lz].
  rewrite <- binary_round_aux_negb.
  destruct sa, sb; reflexivity.
Qed.

Lemma SFmul_opp_l (a b : spec_float) :
  SFmul prec emax (SFopp a) b = SFopp (SFmul prec emax a b).
Proof.
  destruct a as [sa|sa| |sa ma ea], b as [sb|sb| |sb mb eb]; simpl;
    try reflexivity; try (destruct sa, sb; reflexivity).
  rewrite <- binary_round_aux_negb.
  destruct sa, sb; reflexivity.
Qed.

Lemma SFsub_add_opp (a b : spec_float) :
  SFsub prec emax a b = SFadd prec emax a (SFopp b).
Proof.
  destruct a as [sa|sa| |sa ma ea], b as [sb|sb| |sb mb eb]; simpl;
    try reflexivity; destruct sa, sb; reflexivity.
Qed.
End SignSymmetry.


(** ** The newest element of a log *)

Module ListFacts.
Lemma last_cons {A : Type} (a d : A) (l : list A) : last (a :: l) d = last l a.
Proof.
revert a d. induction l as [|b l IH]; intros a d; [reflexivity|].
change (last (a :: b :: l) d) with (last (b :: l) d).
rewrite !IH. reflexivity.
Qed.

Lemma last_Forall {A : Type} (P : A -> Prop) (l : list A) (d : A) :
  Forall P l -> P d -> P (last l d).
Proof.
revert d. induction l as [|a l IH]; intros d Hl Hd; [exact Hd|].
rewrite last_cons. inversion Hl; subst. apply IH; assumption.
Qed.
End ListFacts.

(** ** The read loop *)

Module RecvLoop.
Import Psvr2Toolkit.

Lemma arrivals_nil (n : nat) : Spec.arrivals n [] = [].
Proof. destruct n; reflexivity. Qed.

Lemma store_nil (buffer : list byte) (offset : Z) :
  store buffer offset [] = buffer.
Proof.
  unfold store. simpl. rewrite Nat.add_0_r. apply firstn_skipn.
Qed.

Lemma store_length (buffer data : list byte) (offset : Z) :
  (Z.to_nat offset + List.length data <= List.length buffer)%nat ->
  List.length (store buffer offset data) = List.length buffer.
Proof.
  intros H. unfold store.
  rewrite !length_app, length_firstn, length_skipn. lia.
Qed.

Lemma store_app (buffer d1 d2 : list byte) (offset : Z) :
  0 <= offset ->
  (Z.to_nat offset <= List.length buffer)%nat ->
  store (store buffer offset d1) (offset + Z.of_nat (List.length d1)) d2
  = store buffer offset (d1 ++ d2).
Proof.
  intros Hpos Hle. unfold store.
  replace (Z.to_nat (offset + Z.of_nat (List.length d1)))
    with (Z.to_nat offset + List.length d1)%nat by lia.
  set (o := Z.to_nat offset) in *.
  assert (Hf : List.length (firstn o buffer) = o)
    by (rewrite length_firstn; lia).
  rewrite (app_assoc (firstn o buffer) d1).
  rewrite firstn_app.
  replace (o + List.length d1 - List.length (firstn o buffer ++ d1))%nat
    with 0%nat by (rewrite length_app; lia).
  rewrite firstn_all2 by (rewrite length_app; lia).
  simpl firstn. rewrite app_nil_r.
  rewrite skipn_app.
  rewrite (skipn_all2 (firstn o buffer ++ d1)) by (rewrite length_app; lia).
  replace (o + List.length d1 + List.length d2 - List.length (firstn o buffer ++ d1))%nat
    with (List.length d2) by (rewrite length_app; lia).
  rewrite skipn_skipn. simpl app.
  rewrite length_app, <- !app_assoc.
  replace (List.length d2 + (o + List.length d1))%nat
    with (o + (List.length d1 + List.length d2))%nat by lia.
  reflexivity.
Qed.

(** The loop stops with [retries] left exactly when the arrivals of its
    attempts fill the response, and it leaves in the buffer the bytes
    that arrived, in order, from [offset] on. *)
Lemma recv_loop_spec (size : Z) (n : nat) :
  forall (buffer : list byte) (offset : Z) (inb : list recv_event),
    0 <= offset < size ->
    List.length buffer = Z.to_nat size ->
    let a := Spec.arrivals n inb in
    let '(r, buf, _, _) := recv_loop size n buffer offset inb in
    (r <> O <-> size <= offset + Z.of_nat (List.length a))
    /\ buf = store buffer offset (firstn (Z.to_nat (size - offset)) a).
Proof.
  induction n as [|n IH]; intros buffer offset inb Hoff Hlen; cbn zeta.
  - simpl. split; [split; [congruence | lia] |].
    rewrite firstn_nil, store_nil. reflexivity.
  - destruct inb as [|[|bs] rest].
    + (* nothing arrives *)
      cbn [recv_loop recv]. cbn -[recv_loop Z.sub].
      destruct (offset >=? size) eqn:E; [lia|].
      specialize (IH buffer offset [] Hoff Hlen). cbn zeta in IH.
      rewrite arrivals_nil in IH. exact IH.
    + cbn [recv_loop recv]. cbn -[recv_loop Z.sub].
      destruct (offset >=? size) eqn:E; [lia|].
      exact (IH buffer offset rest Hoff Hlen).
    + cbn [recv_loop recv Spec.arrivals].
      set (k := Z.to_nat (size - offset)).
      set (got := firstn k bs).
      assert (Hgot : (List.length got <= k)%nat) by apply firstn_le_length.
      destruct (0 <? Z.of_nat (List.length got)) eqn:Epos.
      * destruct (offset + Z.of_nat (List.length got) >=? size) eqn:Efull.
        -- (* the response is complete *)
           assert (Hk : List.length got = k) by lia.
           assert (Hbs : (k <= List.length bs)%nat).
           { subst got. rewrite length_firstn in Hk. lia. }
           split.
           ++ split; [intros _; rewrite length_app; lia | intros _; discriminate].
           ++ rewrite firstn_app.
              replace (k - List.length bs)%nat with 0%nat by lia.
              simpl firstn. rewrite app_nil_r. reflexivity.
        -- (* a part of it has arrived *)
           assert (Hlt : (List.length got < k)%nat) by lia.
           assert (Hall : got = bs).
           { subst got. apply firstn_all2.
             rewrite length_firstn in Hlt. lia. }
           assert (Hskip : skipn k bs = []).
           { apply skipn_all2. rewrite <- Hall. lia. }
           rewrite Hskip.
           rewrite Hall in *.
           specialize (IH (store buffer offset bs) (offset + Z.of_nat (List.length bs)) rest).
           cbn zeta in IH.
           destruct (recv_loop size n (store buffer offset bs)
                       (offset + Z.of_nat (List.length bs)) rest)
             as [[[r buf] off] inb'].
           destruct IH as [IH1 IH2]; [lia | rewrite store_length; lia |].
           split.
           ++ rewrite IH1, length_app. lia.
           ++ rewrite IH2, store_app by lia.
              f_equal. rewrite firstn_app.
              rewrite (firstn_all2 (n := k)) by lia.
              f_equal. f_equal. lia.
      * (* the peer has closed the stream *)
        assert (Hnil : bs = []).
        { destruct bs as [|b bs']; [reflexivity|].
          subst got. rewrite length_firstn in Epos.
          apply Z.ltb_ge in Epos. simpl List.length in Epos.
          assert (0 < k)%nat by lia. lia. }
        subst bs. simpl skipn. rewrite skipn_nil.
        destruct (offset >=? size) eqn:E; [lia|].
        simpl app. exact (IH buffer offset rest Hoff Hlen).
Qed.
End RecvLoop.

(** ** The constructor of the device tracker *)

Module Handshake.
Import Psvr2Toolkit.

Lemma connect_loop_spec (n : nat) :
  forall script,
    fst (connect_loop n script) = O <-> Spec.connects_within n script = false.
Proof.
  unfold Spec.connects_within.
  induction n as [|n IH]; intros script; [simpl; tauto|].
  destruct script as [|[|e] rest]; cbn [connect_loop connect].
  - change (SOCKET_ERROR =? 0) with false.
    change (WSAEWOULDBLOCK =? WSAEISCONN) with false.
    cbv iota. rewrite IH. destruct n; simpl; tauto.
  - simpl. split; discriminate.
  - change (SOCKET_ERROR =? 0) with false. cbv iota.
    cbn [firstn existsb Spec.connect_attempt_ok].
    destruct (e =? WSAEISCONN); simpl; [split; discriminate | apply IH].
Qed.

(** What the handshake read of the constructor leaves in [response]. *)
Lemma handshake_read (abi : IpcProtocol) (inb : list recv_event) :
  0 < sizeof_handshake_response abi ->
  let size := sizeof_handshake_response abi in
  let '(r, buf, _, _) := recv_loop size 5 (zeroed size) 0 inb in
  (r <> O <-> Spec.fully_read size inb)
  /\ buf = Spec.response_bytes size inb.
Proof.
  intros Hsize size.
  pose proof (RecvLoop.recv_loop_spec size 5 (zeroed size) 0 inb) as H.
  cbn zeta in H.
  destruct (recv_loop size 5 (zeroed size) 0 inb) as [[[r buf] off] inb'].
  destruct H as [H1 H2]; [subst size; lia | unfold zeroed; apply repeat_length |].
  unfold Spec.fully_read, Spec.response_bytes.
  rewrite Z.sub_0_r in H2. split; [rewrite H1; lia | exact H2].
Qed.
End Handshake.

Module HandshakeClaims.
Import Psvr2Toolkit Examples.

(** C4, as the code has it. Construction of the device tracker fails
    (the constructor throws and the factory gives no tracker) exactly
    when the fifteen connection attempts are exhausted, or the
    handshake read exhausts its five attempts, or the type of the
    response is not the handshake-result type, or the result code in it
    is not success. With a connection, a fully received response of
    that type and a success code, construction succeeds. *)
Theorem construction_fails_exactly_when (abi : IpcProtocol) (sock : SOCKET)
    (net : Network) :
  0 < sizeof_handshake_response abi ->
  let size := sizeof_handshake_response abi in
  let response := Spec.response_bytes size (inbound net) in
  (fst (createPsvr2ToolkitEyeTracker abi sock net) = None
   <-> (Spec.connects_within 15 (connects net) = false
        \/ ~ Spec.fully_read size (inbound net)
        \/ handshake_header_type abi response <> Command_ServerHandshakeResult abi
        \/ handshake_payload_result abi response <> HandshakeResult_Success abi))
  /\ (Spec.connects_within 15 (connects net) = true ->
      Spec.fully_read size (inbound net) ->
      handshake_header_type abi response = Command_ServerHandshakeResult abi ->
      handshake_payload_result abi response = HandshakeResult_Success abi ->
      fst (createPsvr2ToolkitEyeTracker abi sock net) = Some (constructed sock)).
Proof.
  intros Hsize size response.
  unfold createPsvr2ToolkitEyeTracker, ctor. fold size.
  pose proof (Handshake.connect_loop_spec 15 (connects net)) as Hc.
  destruct (connect_loop 15 (connects net)) as [r1 script]. cbn [fst] in Hc.
  pose proof (Handshake.handshake_read abi (inbound net) Hsize) as Hr.
  cbn zeta in Hr. fold size in Hr.
  destruct (recv_loop size 5 (zeroed size) 0 (inbound net)) as [[[r buf] off] inb'].
  destruct Hr as [Hr Hbuf]. fold response in Hbuf. subst buf.
  destruct (Nat.eqb_spec r1 0) as [E1|E1].
  - (* no connection *)
    apply Hc in E1. cbn [fst]. split; [tauto | congruence].
  - assert (Hconn : Spec.connects_within 15 (connects net) = true).
    { destruct (Spec.connects_within 15 (connects net)); [reflexivity | tauto]. }
    destruct (Nat.eqb_spec r 0) as [E2|E2]; cbn [orb].
    + cbn [fst]. split; [tauto | intros _ Hfull; tauto].
    + destruct (Z.eqb_spec (handshake_header_type abi response)
                  (Command_ServerHandshakeResult abi)) as [E3|E3];
        destruct (Z.eqb_spec (handshake_payload_result abi response)
                    (HandshakeResult_Success abi)) as [E4|E4];
        cbn [negb orb fst]; (split; [split |]); try tauto; try discriminate;
        try congruence.
Qed.

Lemma construction_fails_exactly_when_witness :
  0 < sizeof_handshake_response Sample.abi
  /\ fst (createPsvr2ToolkitEyeTracker Sample.abi 1 net_ready) = Some (constructed 1).
Proof.
  assert (Hsize : 0 < sizeof_handshake_response Sample.abi) by reflexivity.
  split; [exact Hsize|].
  apply (construction_fails_exactly_when Sample.abi 1 net_ready Hsize).
  - reflexivity.
  - unfold Spec.fully_read. vm_compute. discriminate.
  - reflexivity.
  - reflexivity.
Defined.

(** C4, as stated, fails: when the fifteen connection attempts are
    refused the constructor throws before it reads anything, although
    none of the three handshake conditions holds. *)
Lemma construction_fails_without_handshake :
  let size := sizeof_handshake_response Sample.abi in
  let response := Spec.response_bytes size (inbound net_late) in
  ~ (fst (createPsvr2ToolkitEyeTracker Sample.abi 1 net_late) = None
     <-> (~ Spec.fully_read size (inbound net_late)
          \/ handshake_header_type Sample.abi response
             <> Command_ServerHandshakeResult Sample.abi
          \/ handshake_payload_result Sample.abi response
             <> HandshakeResult_Success Sample.abi)).
Proof.
  intros size response [H _].
  assert (Hnone : fst (createPsvr2ToolkitEyeTracker Sample.abi 1 net_late) = None)
    by reflexivity.
  destruct (H Hnone) as [Hread|[Htype|Hres]].
  - apply Hread. unfold Spec.fully_read. vm_compute. discriminate.
  - apply Htype. reflexivity.
  - apply Hres. reflexivity.
Qed.
End HandshakeClaims.

(** ** The gaze response of the device *)

Module GazeResponse.
Import Psvr2Toolkit Examples.

(** What the read of [ipcThread] leaves in [response]. *)
Lemma gaze_read (abi : IpcProtocol) (inb : list recv_event) :
  0 < sizeof_gaze_response abi ->
  let size := sizeof_gaze_response abi in
  let '(r, buf, _, _) := recv_loop size 5 (zeroed size) 0 inb in
  (r <> O <-> Spec.fully_read size inb)
  /\ buf = Spec.response_bytes size inb.
Proof.
  intros Hsize size.
  pose proof (RecvLoop.recv_loop_spec size 5 (zeroed size) 0 inb) as H.
  cbn zeta in H.
  destruct (recv_loop size 5 (zeroed size) 0 inb) as [[[r buf] off] inb'].
  destruct H as [H1 H2]; [subst size; lia | unfold zeroed; apply repeat_length |].
  unfold Spec.fully_read, Spec.response_bytes.
  rewrite Z.sub_0_r in H2. split; [rewrite H1; lia | exact H2].
Qed.

(** The expression of lines 200-202 is the average with X and Z negated. *)
Lemma averaged_gaze_spec (payload : CommandDataServerGazeDataResult_t) :
  averaged_gaze payload
  = Spec.negate_x_z (Spec.vec_average (gazeDirNorm (leftEye payload))
                                      (gazeDirNorm (rightEye payload))).
Proof.
  unfold averaged_gaze, Spec.negate_x_z, Spec.vec_average, Spec.average; cbn [x y z].
  unfold F32.div, F32.opp. rewrite !SFdiv_opp_l. reflexivity.
Qed.

(** The loop body, in terms of what arrives: the cache takes the
    converted average at [now] when the response is complete, both
    flags are set and no component is NaN, and is left alone otherwise. *)
Lemma ipcThread_body_spec (abi : IpcProtocol) (now : time_point)
    (t : Psvr2ToolkitEyeTracker) (inb : list recv_event) :
  0 < sizeof_gaze_response abi ->
  let size := sizeof_gaze_response abi in
  let payload := gaze_payload abi (Spec.response_bytes size inb) in
  let v := Spec.negate_x_z (Spec.vec_average (gazeDirNorm (leftEye payload))
                                             (gazeDirNorm (rightEye payload))) in
  fst (ipcThread_body abi now t inb)
  = if (size <=? Z.of_nat (List.length (Spec.arrivals 5 inb)))
       && isGazeDirValid (leftEye payload)
       && isGazeDirValid (rightEye payload)
       && negb (has_nan v)
    then {| m_started := m_started t;
            m_listeningThread := m_listeningThread t;
            m_socket := m_socket t;
            m_latestGaze := v;
            m_lastReceivedTime := now |}
    else t.
Proof.
  intros Hsize size payload v.
  unfold ipcThread_body. fold size.
  pose proof (gaze_read abi inb Hsize) as Hr. cbn zeta in Hr. fold size in Hr.
  destruct (recv_loop size 5 (zeroed size) 0 inb) as [[[r buf] off] inb'].
  destruct Hr as [Hr Hbuf]. subst buf. fold payload.
  rewrite averaged_gaze_spec. fold v.
  unfold Spec.fully_read in Hr.
  change (F32.isnan (x v) || F32.isnan (y v) || F32.isnan (z v)) with (has_nan v).
  destruct (Z.leb_spec size (Z.of_nat (List.length (Spec.arrivals 5 inb)))) as [Hfull|Hpart].
  - apply Hr in Hfull. destruct r as [|r']; [congruence|]. cbn [Nat.eqb negb andb].
    destruct (isGazeDirValid (leftEye payload)), (isGazeDirValid (rightEye payload)),
      (has_nan v); reflexivity.
  - destruct r as [|r']; [reflexivity|].
    assert (Hne : S r' <> O) by discriminate. apply Hr in Hne. lia.
Qed.

(** C5, as the code has it. For every fully read gaze response: if
    both validity flags are set and no component of the result is NaN,
    the cached vector is the component-wise average of the two
    direction vectors with X and Z negated and Y unchanged, stored with
    the clock reading of the iteration; if a flag is unset, or a
    component of the result is NaN, the cache is not updated. The pair
    left = (1, 0, 0), right = (-1, 0, 0) gives a vector equal to
    (0, 0, 0). *)
Theorem gaze_response_cached (abi : IpcProtocol) (now : time_point)
    (t : Psvr2ToolkitEyeTracker) (inb : list recv_event) :
  0 < sizeof_gaze_response abi ->
  Spec.fully_read (sizeof_gaze_response abi) inb ->
  let payload := gaze_payload abi (Spec.response_bytes (sizeof_gaze_response abi) inb) in
  let v := Spec.negate_x_z (Spec.vec_average (gazeDirNorm (leftEye payload))
                                             (gazeDirNorm (rightEye payload))) in
  let t' := fst (ipcThread_body abi now t inb) in
  (isGazeDirValid (leftEye payload) = true ->
   isGazeDirValid (rightEye payload) = true ->
   has_nan v = false ->
   m_latestGaze t' = v /\ m_lastReceivedTime t' = now)
  /\ (isGazeDirValid (leftEye payload) = false
      \/ isGazeDirValid (rightEye payload) = false
      \/ has_nan v = true ->
      t' = t)
  /\ vec_eqb
       (Spec.negate_x_z
          (Spec.vec_average (mkXrVector3f F32.one F32.zero F32.zero)
                            (mkXrVector3f (F32.opp F32.one) F32.zero F32.zero)))
       XrVector3f_zero = true.
Proof.
  intros Hsize Hfull payload v t'.
  subst t'. rewrite (ipcThread_body_spec abi now t inb Hsize).
  fold payload. fold v.
  unfold Spec.fully_read in Hfull. apply Z.leb_le in Hfull. rewrite Hfull.
  cbn [andb]. split; [|split].
  - intros Hl Hr Hv. rewrite Hl, Hr, Hv. split; reflexivity.
  - intros [H|[H|H]]; rewrite H; rewrite ?andb_false_r; reflexivity.
  - reflexivity.
Qed.

Lemma gaze_response_cached_witness :
  m_latestGaze (fst (ipcThread_body Sample.abi 77 (constructed 1) stream_opposite))
    = mkXrVector3f F32.neg_zero F32.zero F32.neg_zero
  /\ m_lastReceivedTime (fst (ipcThread_body Sample.abi 77 (constructed 1) stream_opposite))
     = 77
  /\ fst (ipcThread_body Sample.abi 77 (constructed 1) stream_one_invalid)
     = constructed 1.
Proof.
  assert (Hsize : 0 < sizeof_gaze_response Sample.abi) by reflexivity.
  assert (H1 : Spec.fully_read (sizeof_gaze_response Sample.abi) stream_opposite)
    by (unfold Spec.fully_read; vm_compute; discriminate).
  assert (H2 : Spec.fully_read (sizeof_gaze_response Sample.abi) stream_one_invalid)
    by (unfold Spec.fully_read; vm_compute; discriminate).
  destruct (gaze_response_cached Sample.abi 77 (constructed 1) stream_opposite Hsize H1)
    as [Hstore _].
  destruct (gaze_response_cached Sample.abi 77 (constructed 1) stream_one_invalid Hsize H2)
    as [_ [Hkeep _]].
  destruct Hstore as [Hg Ht]; [reflexivity | reflexivity | reflexivity |].
  split; [exact Hg | split; [exact Ht |]].
  apply Hkeep. right; left; reflexivity.
Defined.

(** C5, as stated, fails: a fully read response with both flags set
    whose left X is NaN leaves the cache as it was. *)
Lemma gaze_response_nan_not_cached :
  let abi := Sample.abi in
  let payload := gaze_payload abi (Spec.response_bytes (sizeof_gaze_response abi) stream_nan) in
  let v := Spec.negate_x_z (Spec.vec_average (gazeDirNorm (leftEye payload))
                                             (gazeDirNorm (rightEye payload))) in
  let t' := fst (ipcThread_body abi 77 (constructed 1) stream_nan) in
  Spec.fully_read (sizeof_gaze_response abi) stream_nan
  /\ isGazeDirValid (leftEye payload) = true
  /\ isGazeDirValid (rightEye payload) = true
  /\ m_latestGaze t' <> v
  /\ vec_eqb (m_latestGaze t') v = false
  /\ t' = constructed 1.
Proof.
  cbv zeta. repeat split; try reflexivity.
  - unfold Spec.fully_read. vm_compute. discriminate.
  - vm_compute. discriminate.
Qed.
End GazeResponse.

(** ** The network feed *)

Module NetworkFeed.
Import VRChatOSC Examples.

Section WithLibm.
Variables sinf cosf : float -> float.

(** The initialiser of [unitVector] is the per-axis average of the
    projections of the two eyes. *)
Lemma unit_vector_spec (leftPitch leftYaw rightPitch rightYaw : float) :
  unit_vector sinf cosf leftPitch leftYaw rightPitch rightYaw
  = Spec.vec_average
      (Spec.project sinf cosf (pitch_radians leftPitch) (yaw_radians leftYaw))
      (Spec.project sinf cosf (pitch_radians rightPitch) (yaw_radians rightYaw)).
Proof.
  unfold unit_vector, Spec.vec_average, Spec.project, Spec.average; cbn [x y z].
  unfold F32.sub, F32.add, F32.mul, F32.opp.
  rewrite SFsub_add_opp, SFmul_opp_l. reflexivity.
Qed.

(** A well-formed message on the eye-tracking address: the sample is
    stored unless one of the four angles is NaN. *)
Lemma ProcessMessage_eye_message (now : time_point) (t : VRChatOSCEyeTracker)
    (leftPitch leftYaw rightPitch rightYaw : float) :
  ProcessMessage sinf cosf now (eye_message leftPitch leftYaw rightPitch rightYaw) t
  = if F32.isnan leftPitch || F32.isnan leftYaw
       || F32.isnan rightPitch || F32.isnan rightYaw
    then t
    else {| m_started := m_started t;
            m_listeningThread := m_listeningThread t;
            m_socket := m_socket t;
            m_latestGaze := unit_vector sinf cosf leftPitch leftYaw rightPitch rightYaw;
            m_lastReceivedTime := now |}.
Proof.
  unfold ProcessMessage, ProcessMessage_try, eye_message.
  cbn [AddressPattern ArgumentStream]. rewrite String.eqb_refl.
  cbn [read_float read_EndMessage bind].
  destruct (F32.isnan leftPitch || F32.isnan leftYaw
            || F32.isnan rightPitch || F32.isnan rightYaw); reflexivity.
Qed.

(** A message on any other address leaves the tracker as it was. *)
Lemma other_address_ignored (now : time_point) (m : ReceivedMessage)
    (t : VRChatOSCEyeTracker) :
  AddressPattern m <> address_pattern ->
  ProcessMessage sinf cosf now m t = t.
Proof.
  intros H. unfold ProcessMessage, ProcessMessage_try.
  apply String.eqb_neq in H. rewrite H. reflexivity.
Qed.

(** Whatever the message, [ProcessMessage] leaves the tracker as it
    was or stores one sample: the vector of four non-NaN angles the
    message carries, with the clock reading taken for it. *)
Lemma ProcessMessage_cases (now : time_point) (m : ReceivedMessage)
    (t : VRChatOSCEyeTracker) :
  ProcessMessage sinf cosf now m t = t
  \/ exists leftPitch leftYaw rightPitch rightYaw,
       m = eye_message leftPitch leftYaw rightPitch rightYaw
       /\ F32.isnan leftPitch || F32.isnan leftYaw
          || F32.isnan rightPitch || F32.isnan rightYaw = false
       /\ ProcessMessage sinf cosf now m t
          = {| m_started := m_started t;
               m_listeningThread := m_listeningThread t;
               m_socket := m_socket t;
               m_latestGaze := unit_vector sinf cosf leftPitch leftYaw rightPitch rightYaw;
               m_lastReceivedTime := now |}.
Proof.
  destruct m as [addr args].
  destruct (String.eqb_spec addr address_pattern) as [E|E].
  - subst addr.
    destruct args as [|[lp| |] [|[ly| |] [|[rp| |] [|[ry| |] [|extra rest]]]]];
      try (left; unfold ProcessMessage, ProcessMessage_try;
           cbn [AddressPattern ArgumentStream]; rewrite String.eqb_refl;
           reflexivity).
    change (mkMessage address_pattern [OscFloat lp; OscFloat ly; OscFloat rp; OscFloat ry])
      with (eye_message lp ly rp ry).
    rewrite ProcessMessage_eye_message.
    destruct (F32.isnan lp || F32.isnan ly || F32.isnan rp || F32.isnan ry) eqn:En;
      [left; reflexivity|].
    right. exists lp, ly, rp, ry. auto.
  - left. apply other_address_ignored. exact E.
Qed.

(** A NaN angle: nothing is stored, whatever [sin] and [cos] are. *)
Lemma nan_angle_keeps_cache (now : time_point) (t : VRChatOSCEyeTracker)
    (leftPitch leftYaw rightPitch rightYaw : float) :
  F32.isnan leftPitch || F32.isnan leftYaw
    || F32.isnan rightPitch || F32.isnan rightYaw = true ->
  ProcessMessage sinf cosf now (eye_message leftPitch leftYaw rightPitch rightYaw) t = t.
Proof.
  intros H. rewrite ProcessMessage_eye_message, H. reflexivity.
Qed.

(** One message stores the sample the specification describes, with the
    clock reading taken for it, or nothing. *)
Lemma ProcessMessage_sample (now : time_point) (m : ReceivedMessage)
    (t : VRChatOSCEyeTracker) :
  ProcessMessage sinf cosf now m t
  = match Spec.osc_sample sinf cosf m with
    | Some v => {| m_started := m_started t;
                   m_listeningThread := m_listeningThread t;
                   m_socket := m_socket t;
                   m_latestGaze := v;
                   m_lastReceivedTime := now |}
    | None => t
    end.
Proof.
destruct m as [addr args]. unfold Spec.osc_sample. cbn [AddressPattern ArgumentStream].
destruct (String.eqb_spec addr address_pattern) as [E|E].
- subst addr.
  destruct args as [|[lp| |] [|[ly| |] [|[rp| |] [|[ry| |] [|extra rest]]]]];
    try (unfold ProcessMessage, ProcessMessage_try;
         cbn [AddressPattern ArgumentStream]; rewrite String.eqb_refl;
         reflexivity).
  change (mkMessage address_pattern [OscFloat lp; OscFloat ly; OscFloat rp; OscFloat ry])
    with (eye_message lp ly rp ry).
  rewrite ProcessMessage_eye_message, unit_vector_spec.
  destruct (F32.isnan lp || F32.isnan ly || F32.isnan rp || F32.isnan ry); reflexivity.
- apply other_address_ignored. exact E.
Qed.

(** After any run of messages the two cached fields are those of the
    newest sample handed over, or still the ones the run began with. *)
Lemma process_all_cache (ms : list (time_point * ReceivedMessage)) :
  forall t : VRChatOSCEyeTracker,
    cached (process_all sinf cosf ms t)
    = last (Spec.osc_samples sinf cosf ms) (cached t).
Proof.
induction ms as [|[now m] ms IH]; intros t; [reflexivity|].
cbn [process_all Spec.osc_samples]. rewrite IH, ProcessMessage_sample.
destruct (Spec.osc_sample sinf cosf m) as [v|]; [|reflexivity].
rewrite ListFacts.last_cons. reflexivity.
Qed.

(** An infinite yaw passes the test of the four angles; its sine is
    NaN, and so is the X of the vector that is stored. *)
Lemma infinite_yaw_stored (now : time_point) (t : VRChatOSCEyeTracker) :
  sinf F32.infinity = F32.nan ->
  let v := unit_vector sinf cosf F32.zero F32.infinity F32.zero F32.zero in
  ProcessMessage sinf cosf now msg_infinite_yaw t
  = {| m_started := m_started t;
       m_listeningThread := m_listeningThread t;
       m_socket := m_socket t;
       m_latestGaze := v;
       m_lastReceivedTime := now |}
  /\ x v = S754_nan.
Proof.
intros Hsin v. unfold msg_infinite_yaw.
rewrite ProcessMessage_eye_message.
change (F32.isnan F32.zero) with false.
change (F32.isnan F32.infinity) with false.
cbn [orb]. split; [reflexivity|].
subst v. unfold unit_vector; cbn [x].
change (yaw_radians F32.infinity) with F32.infinity.
rewrite Hsin. reflexivity.
Qed.
End WithLibm.

(** The conversion of a pitch is the conversion of a yaw with the sign
    inverted, on a sample of angles. *)
Example pitch_is_inverted_yaw :
  Forall (fun angle => pitch_radians angle = F32.opp (yaw_radians angle)) sample_angles.
Proof. repeat constructor. Qed.




(** C3 at the input on which the code departs from it. A message whose
    left yaw is +infinity passes the test of the four angles, and the
    vector it stores has NaN as X: with sin(+infinity) = NaN the record
    is made, with the clock reading of the message, whatever was cached
    before. *)
Theorem osc_infinite_angle_stores_nan (sinf cosf : float -> float)
    (now : time_point) (t : VRChatOSCEyeTracker) :
  sinf F32.infinity = F32.nan ->
  let t' := ProcessMessage sinf cosf now msg_infinite_yaw t in
  has_nan (m_latestGaze t') = true
  /\ F32.isnan (x (m_latestGaze t')) = true
  /\ m_lastReceivedTime t' = now.
Proof.
  intros Hsin t'. subst t'.
destruct (infinite_yaw_stored sinf cosf now t Hsin) as [Hstore Hx].
rewrite Hstore. cbn [m_latestGaze m_lastReceivedTime].
unfold has_nan. rewrite Hx. repeat split.
Qed.

Lemma osc_infinite_angle_stores_nan_witness :
  has_nan (m_latestGaze
             (ProcessMessage Sample.sinf Sample.cosf 20 msg_infinite_yaw constructed))
  = true.
Proof.
  apply (osc_infinite_angle_stores_nan Sample.sinf Sample.cosf 20 constructed).
  reflexivity.
Defined.
End NetworkFeed.

(** ** The queries of the caller *)

Module CacheQueries.
Import Examples.

Lemma psvr2_getGaze_spec (t : Psvr2Toolkit.Psvr2ToolkitEyeTracker)
    (now : time_point) (time : XrTime) (out : XrVector3f) :
  Psvr2Toolkit.getGaze t now time out
  = match Spec.readIfFresh (Psvr2Toolkit.m_latestGaze t,
                            Psvr2Toolkit.m_lastReceivedTime t) now with
    | Some v => (true, v)
    | None => (false, out)
    end.
Proof.
unfold Psvr2Toolkit.getGaze, Psvr2Toolkit.isGazeAvailable, Spec.readIfFresh, Spec.isFresh.
cbn [fst snd]. change Spec.FreshnessWindow with 1000000000.
destruct (now - Psvr2Toolkit.m_lastReceivedTime t <? 1000000000); reflexivity.
Qed.

Lemma osc_getGaze_spec (t : VRChatOSC.VRChatOSCEyeTracker)
    (now : time_point) (time : XrTime) (out : XrVector3f) :
  VRChatOSC.getGaze t now time out
  = match Spec.readIfFresh (VRChatOSC.m_latestGaze t,
                            VRChatOSC.m_lastReceivedTime t) now with
    | Some v => (true, v)
    | None => (false, out)
    end.
Proof.
unfold VRChatOSC.getGaze, VRChatOSC.isGazeAvailable, Spec.readIfFresh, Spec.isFresh.
cbn [fst snd]. change Spec.FreshnessWindow with 1000000000.
destruct (now - VRChatOSC.m_lastReceivedTime t <? 1000000000); reflexivity.
Qed.

(** C9. For both trackers, [isGazeAvailable(time)] and
    [getGaze(time, out)] do not depend on [time]: with the same object and
    the same reading of the internal clock, any two values of the
    argument give the same flag and the same output vector. *)
Theorem queries_ignore_time_argument :
  (forall (t : Psvr2Toolkit.Psvr2ToolkitEyeTracker) (now : time_point)
          (time1 time2 : XrTime) (out : XrVector3f),
      Psvr2Toolkit.isGazeAvailable t now time1 = Psvr2Toolkit.isGazeAvailable t now time2
      /\ Psvr2Toolkit.getGaze t now time1 out = Psvr2Toolkit.getGaze t now time2 out)
  /\ (forall (t : VRChatOSC.VRChatOSCEyeTracker) (now : time_point)
             (time1 time2 : XrTime) (out : XrVector3f),
         VRChatOSC.isGazeAvailable t now time1 = VRChatOSC.isGazeAvailable t now time2
         /\ VRChatOSC.getGaze t now time1 out = VRChatOSC.getGaze t now time2 out).
Proof.
split; intros t now time1 time2 out.
- split; [reflexivity|]. rewrite !psvr2_getGaze_spec. reflexivity.
- split; [reflexivity|]. rewrite !osc_getGaze_spec. reflexivity.
Qed.

(** A tracker that has not stored a sample still has the timestamp of
    its member initialiser, the epoch of the clock; the time at which it
    was constructed is nowhere in the object. *)
Lemma never_sampled_timestamp (sock : Psvr2Toolkit.SOCKET) (session : XrSession) :
  Psvr2Toolkit.m_lastReceivedTime (Psvr2Toolkit.constructed sock) = time_point_default
  /\ Psvr2Toolkit.m_lastReceivedTime
       (Psvr2Toolkit.start session (Psvr2Toolkit.constructed sock)) = time_point_default
  /\ VRChatOSC.m_lastReceivedTime VRChatOSC.constructed = time_point_default
  /\ VRChatOSC.m_lastReceivedTime
       (VRChatOSC.start session VRChatOSC.constructed) = time_point_default.
Proof. repeat split. Qed.

(** C7, as the code has it. A tracker that has never stored a sample,
    started or not, reports unavailable ([isGazeAvailable] false,
    [getGaze] false with the output untouched) at every query whose
    reading of the internal clock is at least one second after the epoch
    of that clock, because the timestamp defaults to the epoch of the
    clock; at an earlier reading it reports available. *)
Theorem never_sampled_unavailable (sock : Psvr2Toolkit.SOCKET) (session : XrSession)
    (now : time_point) (time : XrTime) (out : XrVector3f) :
  let p := Psvr2Toolkit.constructed sock in
  let p' := Psvr2Toolkit.start session p in
  let o := VRChatOSC.constructed in
  let o' := VRChatOSC.start session o in
  (1000000000 <= now ->
   Psvr2Toolkit.isGazeAvailable p now time = false
   /\ Psvr2Toolkit.getGaze p now time out = (false, out)
   /\ Psvr2Toolkit.isGazeAvailable p' now time = false
   /\ Psvr2Toolkit.getGaze p' now time out = (false, out)
   /\ VRChatOSC.isGazeAvailable o now time = false
   /\ VRChatOSC.getGaze o now time out = (false, out)
   /\ VRChatOSC.isGazeAvailable o' now time = false
   /\ VRChatOSC.getGaze o' now time out = (false, out))
  /\ (now < 1000000000 ->
      Psvr2Toolkit.isGazeAvailable p now time = true
      /\ Psvr2Toolkit.isGazeAvailable p' now time = true
      /\ VRChatOSC.isGazeAvailable o now time = true
      /\ VRChatOSC.isGazeAvailable o' now time = true).
Proof.
cbv zeta.
unfold Psvr2Toolkit.getGaze, VRChatOSC.getGaze,
  Psvr2Toolkit.isGazeAvailable, VRChatOSC.isGazeAvailable.
cbn [Psvr2Toolkit.m_lastReceivedTime VRChatOSC.m_lastReceivedTime
     Psvr2Toolkit.constructed VRChatOSC.constructed
     Psvr2Toolkit.start VRChatOSC.start].
unfold time_point_default. rewrite Z.sub_0_r.
split; intros H.
- apply Z.ltb_ge in H. rewrite H. repeat split.
- apply Z.ltb_lt in H. rewrite H. repeat split.
Qed.

Lemma never_sampled_unavailable_witness :
  Psvr2Toolkit.getGaze (Psvr2Toolkit.constructed 1) 1000000000 0 XrVector3f_zero
    = (false, XrVector3f_zero)
  /\ VRChatOSC.getGaze VRChatOSC.constructed 1000000000 0 XrVector3f_zero
    = (false, XrVector3f_zero).
Proof.
destruct (never_sampled_unavailable 1 0 1000000000 0 XrVector3f_zero) as [H _].
destruct H as (_ & H1 & _ & _ & _ & H2 & _); [lia|].
split; [exact H1 | exact H2].
Defined.

(** C7, as stated, fails: a tracker constructed when the clock reads
    less than one second, and queried before the clock reaches one
    second, reports available and gives out the zero vector. *)
Lemma never_sampled_available_near_epoch :
  Psvr2Toolkit.isGazeAvailable (Psvr2Toolkit.constructed 1) 999999999 0 = true
  /\ Psvr2Toolkit.getGaze (Psvr2Toolkit.constructed 1) 999999999 0
       (mkXrVector3f F32.one F32.one F32.one) = (true, XrVector3f_zero)
  /\ VRChatOSC.isGazeAvailable VRChatOSC.constructed 999999999 0 = true
  /\ VRChatOSC.getGaze VRChatOSC.constructed 999999999 0
       (mkXrVector3f F32.one F32.one F32.one) = (true, XrVector3f_zero).
Proof. repeat split. Qed.

(** Had the timestamp defaulted to the time of construction, the tracker
    would have reported available for the whole second that follows. *)
Lemma timestamp_of_construction_would_be_fresh (sock : Psvr2Toolkit.SOCKET)
    (constructed_at now : time_point) (time : XrTime) :
  constructed_at <= now < constructed_at + 1000000000 ->
  Psvr2Toolkit.isGazeAvailable
    (Psvr2Toolkit.mkTracker false NoThread sock XrVector3f_zero constructed_at)
    now time = true.
Proof.
intros H. unfold Psvr2Toolkit.isGazeAvailable. cbn. apply Z.ltb_lt. lia.
Qed.

(** What the callers get after the message of
    [NetworkFeed.infinite_yaw_stored]: with sin(+infinity) = NaN, every
    query less than one second after it reports available and gives out
    a vector with a NaN component. *)
Lemma osc_read_gives_nan_vector (sinf cosf : float -> float)
    (t : VRChatOSC.VRChatOSCEyeTracker) (now now' : time_point)
    (time : XrTime) (out : XrVector3f) :
  sinf F32.infinity = F32.nan ->
  now' - now < Spec.FreshnessWindow ->
  let t' := VRChatOSC.ProcessMessage sinf cosf now msg_infinite_yaw t in
  VRChatOSC.isGazeAvailable t' now' time = true
  /\ fst (VRChatOSC.getGaze t' now' time out) = true
  /\ has_nan (snd (VRChatOSC.getGaze t' now' time out)) = true.
Proof.
intros Hsin Hfresh t'. subst t'.
destruct (NetworkFeed.infinite_yaw_stored sinf cosf now t Hsin) as [Hstore Hx].
rewrite Hstore.
unfold VRChatOSC.getGaze, VRChatOSC.isGazeAvailable. cbn [VRChatOSC.m_lastReceivedTime].
apply Z.ltb_lt in Hfresh. change Spec.FreshnessWindow with 1000000000 in Hfresh.
rewrite Hfresh. cbn [negb fst snd VRChatOSC.m_latestGaze].
unfold has_nan. rewrite Hx. repeat split.
Qed.

Example osc_read_after_infinite_yaw :
  let t := VRChatOSC.ProcessMessage Sample.sinf Sample.cosf 10 msg_zero
             VRChatOSC.constructed in
  let t' := VRChatOSC.ProcessMessage Sample.sinf Sample.cosf 20 msg_infinite_yaw t in
  VRChatOSC.getGaze t 30 0 XrVector3f_zero
    = (true, mkXrVector3f F32.zero F32.neg_zero (F32.opp F32.one))
  /\ VRChatOSC.getGaze t' 30 0 XrVector3f_zero
     = (true, mkXrVector3f F32.nan F32.neg_zero F32.nan).
Proof. split; reflexivity. Qed.
End CacheQueries.

(** ** The cache of the device tracker over a run of its loop *)

Module DeviceCache.
Import Psvr2Toolkit.

Lemma ipcThread_body_stream (abi : IpcProtocol) (now : time_point)
    (t : Psvr2ToolkitEyeTracker) (inb : list recv_event) :
  snd (ipcThread_body abi now t inb)
  = snd (recv_loop (sizeof_gaze_response abi) 5
           (zeroed (sizeof_gaze_response abi)) 0 inb).
Proof.
unfold ipcThread_body.
destruct (recv_loop _ 5 _ 0 inb) as [[[r buf] off] inb'].
cbn [snd].
destruct (negb (r =? 0)%nat && _ && _); [|reflexivity].
destruct (negb _); reflexivity.
Qed.

(** One iteration stores the sample the specification describes, with
    the clock reading of the iteration, or nothing. *)
Lemma ipcThread_body_sample (abi : IpcProtocol) (now : time_point)
    (t : Psvr2ToolkitEyeTracker) (inb : list recv_event) :
  0 < sizeof_gaze_response abi ->
  fst (ipcThread_body abi now t inb)
  = match Spec.device_sample abi inb with
    | Some v => {| m_started := m_started t;
                   m_listeningThread := m_listeningThread t;
                   m_socket := m_socket t;
                   m_latestGaze := v;
                   m_lastReceivedTime := now |}
    | None => t
    end.
Proof.
intros Hsize. rewrite (GazeResponse.ipcThread_body_spec abi now t inb Hsize).
unfold Spec.device_sample.
destruct (_ && _ && _ && _); reflexivity.
Qed.

Lemma device_sample_no_nan (abi : IpcProtocol) (inb : list recv_event) (v : XrVector3f) :
  Spec.device_sample abi inb = Some v -> has_nan v = false.
Proof.
unfold Spec.device_sample.
destruct (has_nan (Spec.negate_x_z _)) eqn:E.
- rewrite andb_false_r. discriminate.
- destruct (_ && _); [|discriminate].
  intros H. injection H as <-. exact E.
Qed.

Lemma device_samples_no_nan (abi : IpcProtocol) (clock : list time_point) :
  forall inb, Forall (fun s => has_nan (fst s) = false) (Spec.device_samples abi clock inb).
Proof.
induction clock as [|now clock IH]; intros inb; cbn [Spec.device_samples]; [constructor|].
destruct (Spec.device_sample abi inb) as [v|] eqn:E; [|apply IH].
constructor; [|apply IH].
exact (device_sample_no_nan abi inb v E).
Qed.

(** After any run of the loop the two cached fields are those of the
    newest sample handed over, or still the ones the run began with; the
    rest of the object is as it was. *)
Lemma ipc_run_cache (abi : IpcProtocol) (clock : list time_point) :
  0 < sizeof_gaze_response abi ->
  forall (t : Psvr2ToolkitEyeTracker) (inb : list recv_event),
    let t' := fst (ipc_run abi clock t inb) in
    (m_latestGaze t', m_lastReceivedTime t')
      = last (Spec.device_samples abi clock inb) (m_latestGaze t, m_lastReceivedTime t)
    /\ m_started t' = m_started t
    /\ m_listeningThread t' = m_listeningThread t
    /\ m_socket t' = m_socket t.
Proof.
intros Hsize. induction clock as [|now clock IH]; intros t inb; cbn zeta.
- cbn. auto.
- cbn [ipc_run Spec.device_samples].
  pose proof (ipcThread_body_sample abi now t inb Hsize) as Hfst.
  pose proof (ipcThread_body_stream abi now t inb) as Hsnd.
  destruct (ipcThread_body abi now t inb) as [t1 inb1].
  cbn [fst snd] in Hfst, Hsnd. subst inb1.
  specialize (IH t1 (snd (recv_loop (sizeof_gaze_response abi) 5
                            (zeroed (sizeof_gaze_response abi)) 0 inb))).
  cbn zeta in IH. destruct IH as (IH1 & IH2 & IH3 & IH4).
  rewrite IH1, IH2, IH3, IH4.
  destruct (Spec.device_sample abi inb) as [v|]; subst t1;
    cbn [m_started m_listeningThread m_socket m_latestGaze m_lastReceivedTime];
    [|auto].
  rewrite ListFacts.last_cons. auto.
Qed.

(** The device tracker keeps NaN out of the cache: after any run of the
    loop from a fresh object no component of the cached vector is NaN. *)
Lemma device_cache_never_nan (abi : IpcProtocol) (clock : list time_point)
    (sock : SOCKET) (session : XrSession) (inb : list recv_event) :
  0 < sizeof_gaze_response abi ->
  has_nan (m_latestGaze (fst (ipc_run abi clock (start session (constructed sock)) inb)))
  = false.
Proof.
intros Hsize.
destruct (ipc_run_cache abi clock Hsize (start session (constructed sock)) inb) as [H _].
pose proof (ListFacts.last_Forall (fun s => has_nan (fst s) = false)
              (Spec.device_samples abi clock inb)
              (m_latestGaze (start session (constructed sock)),
               m_lastReceivedTime (start session (constructed sock)))
              (device_samples_no_nan abi clock inb) eq_refl) as Hlast.
rewrite <- H in Hlast. exact Hlast.
Qed.

(** The freshness-gated read of the device tracker: once a sample has
    been handed over, [getGaze] gives the newest one, which has no NaN
    component, exactly when the query comes less than one second after
    its clock reading, and reports unavailable otherwise. *)
Lemma device_read_newest_sample (abi : IpcProtocol) (clock : list time_point)
    (sock : SOCKET) (session : XrSession) (inb : list recv_event)
    (older : list (XrVector3f * time_point)) (v : XrVector3f) (ts : time_point) :
  0 < sizeof_gaze_response abi ->
  Spec.device_samples abi clock inb = older ++ [(v, ts)] ->
  let t' := fst (ipc_run abi clock (start session (constructed sock)) inb) in
  has_nan v = false
  /\ forall (now : time_point) (time : XrTime) (out : XrVector3f),
       getGaze t' now time out
       = if now - ts <? Spec.FreshnessWindow then (true, v) else (false, out).
Proof.
intros Hsize Hlog t'.
destruct (ipc_run_cache abi clock Hsize (start session (constructed sock)) inb) as [H _].
fold t' in H. rewrite Hlog, last_last in H. injection H as Hg Ht.
split.
- pose proof (device_samples_no_nan abi clock inb) as Hall.
  rewrite Hlog in Hall. apply Forall_app in Hall. destruct Hall as [_ Hs].
  inversion Hs as [|? ? Hnan _]. exact Hnan.
- intros now time out. rewrite CacheQueries.psvr2_getGaze_spec.
  unfold Spec.readIfFresh, Spec.isFresh. cbn [fst snd]. rewrite Hg, Ht.
  destruct (now - ts <? Spec.FreshnessWindow); reflexivity.
Qed.
End DeviceCache.

(** ** The freshness-gated read *)

Module FreshRead.
Import Examples.

(** A difference that is a 64-bit count is what the subtraction of
    lines 142 and 63 leaves, with no wrapping round. *)
Lemma difference_exact (count : Z) :
  Int64.in_range count -> Int64.wrap count = count.
Proof.
unfold Int64.in_range, Int64.wrap, Int64.min_value, Int64.max_value. intros H.
rewrite Z.mod_small; lia.
Qed.

Lemma newest_non_nan_snoc (l : list (XrVector3f * time_point))
    (a : XrVector3f * time_point) :
  Spec.newest_non_nan (l ++ [a])
  = if has_nan (fst a) then Spec.newest_non_nan l else Some a.
Proof.
unfold Spec.newest_non_nan. rewrite filter_app. cbn [filter].
destruct (has_nan (fst a)); cbn [negb].
- rewrite app_nil_r. reflexivity.
- rewrite map_app. cbn [map]. apply last_last.
Qed.

(** When the sample stored last has no NaN component, it is the
    newest non-NaN sample. *)
Lemma newest_non_nan_stored_last (l : list (XrVector3f * time_point))
    (v : XrVector3f) (ts : time_point) (d : XrVector3f * time_point) :
  Spec.newest_non_nan l = Some (v, ts) ->
  has_nan (fst (last l d)) = false ->
  has_nan v = false /\ exists older, l = older ++ [(v, ts)].
Proof.
intros Hnew Hlast.
destruct (exists_last (l := l)) as (older & a & ->).
{ intros ->. discriminate Hnew. }
rewrite last_last in Hlast. rewrite newest_non_nan_snoc, Hlast in Hnew.
injection Hnew as ->. split; [exact Hlast | exists older; reflexivity].
Qed.

Lemma newest_non_nan_all (l : list (XrVector3f * time_point))
    (v : XrVector3f) (ts : time_point) :
  Forall (fun s => has_nan (fst s) = false) l ->
  Spec.newest_non_nan l = Some (v, ts) ->
  has_nan v = false /\ exists older, l = older ++ [(v, ts)].
Proof.
intros Hall Hnew.
apply (newest_non_nan_stored_last l v ts (v, ts) Hnew).
apply (ListFacts.last_Forall (fun s => has_nan (fst s) = false)); [exact Hall|].
destruct (exists_last (l := l)) as (older & a & ->).
{ intros ->. discriminate Hnew. }
unfold Spec.newest_non_nan in Hnew.
assert (Hin : In (Some (v, ts))
                (map Some (filter (fun s => negb (has_nan (fst s))) (older ++ [a])))).
{ destruct (map Some (filter _ (older ++ [a]))) as [|o os] eqn:E; [discriminate Hnew|].
  rewrite <- Hnew. destruct (exists_last (l := o :: os)) as (os' & o' & E').
  { discriminate. }
  rewrite E', last_last. apply in_or_app. right. left. reflexivity. }
apply in_map_iff in Hin. destruct Hin as (p & Hp & Hin). injection Hp as ->.
apply filter_In in Hin. destruct Hin as [_ Hin].
cbn [fst] in Hin. apply negb_true_iff in Hin. exact Hin.
Qed.

(** C1, as the code has it. For every run of either tracker in which a
    non-NaN vector has been recorded, and every query whose clock
    reading less the timestamp of that record is a 64-bit count,
    [isGazeAvailable] is true and [getGaze] gives the most recently
    recorded non-NaN vector exactly when the query comes strictly less
    than one second after the clock reading recorded with it; otherwise
    both report unavailable and the output is left alone. For the
    network tracker this is said of a cache whose vector has no NaN
    component; nothing is said of the other case. *)
Theorem read_returns_newest_sample :
  (forall (abi : Psvr2Toolkit.IpcProtocol) (clock : list time_point)
          (sock : Psvr2Toolkit.SOCKET) (session : XrSession)
          (inb : list Psvr2Toolkit.recv_event) (v : XrVector3f) (ts : time_point),
      0 < Psvr2Toolkit.sizeof_gaze_response abi ->
      Spec.newest_non_nan (Spec.device_samples abi clock inb) = Some (v, ts) ->
      let t := fst (Psvr2Toolkit.ipc_run abi clock
                      (Psvr2Toolkit.start session (Psvr2Toolkit.constructed sock)) inb) in
      has_nan v = false
      /\ forall (now : time_point) (time : XrTime) (out : XrVector3f),
           Int64.in_range (now - ts) ->
           Psvr2Toolkit.isGazeAvailable t now time = (now - ts <? Spec.FreshnessWindow)
           /\ Psvr2Toolkit.getGaze t now time out
              = if now - ts <? Spec.FreshnessWindow then (true, v) else (false, out))
  /\ (forall (sinf cosf : float -> float)
             (ms : list (time_point * VRChatOSC.ReceivedMessage)) (session : XrSession)
             (v : XrVector3f) (ts : time_point),
         Spec.newest_non_nan (Spec.osc_samples sinf cosf ms) = Some (v, ts) ->
         let t := VRChatOSC.process_all sinf cosf ms
                    (VRChatOSC.start session VRChatOSC.constructed) in
         has_nan (VRChatOSC.m_latestGaze t) = false ->
         has_nan v = false
         /\ forall (now : time_point) (time : XrTime) (out : XrVector3f),
              Int64.in_range (now - ts) ->
              VRChatOSC.isGazeAvailable t now time = (now - ts <? Spec.FreshnessWindow)
              /\ VRChatOSC.getGaze t now time out
                 = if now - ts <? Spec.FreshnessWindow then (true, v) else (false, out)).
Proof.
split.
- intros abi clock sock session inb v ts Hsize Hnew t.
  destruct (newest_non_nan_all _ v ts (DeviceCache.device_samples_no_nan abi clock inb) Hnew)
    as [Hnan [older Hlog]].
  destruct (DeviceCache.device_read_newest_sample abi clock sock session inb older v ts
              Hsize Hlog) as [_ Hget].
  split; [exact Hnan|]. intros now time out _. split; [|apply Hget].
  destruct (DeviceCache.ipc_run_cache abi clock Hsize
              (Psvr2Toolkit.start session (Psvr2Toolkit.constructed sock)) inb) as [H _].
  fold t in H. rewrite Hlog, last_last in H. injection H as _ Ht.
  unfold Psvr2Toolkit.isGazeAvailable. rewrite Ht. reflexivity.
- intros sinf cosf ms session v ts Hnew t Hcache.
  pose proof (NetworkFeed.process_all_cache sinf cosf ms
                (VRChatOSC.start session VRChatOSC.constructed)) as H.
  fold t in H. unfold VRChatOSC.cached in H.
  assert (Hlast : has_nan (fst (last (Spec.osc_samples sinf cosf ms)
                                  (VRChatOSC.m_latestGaze
                                     (VRChatOSC.start session VRChatOSC.constructed),
                                   VRChatOSC.m_lastReceivedTime
                                     (VRChatOSC.start session VRChatOSC.constructed))))
                  = false).
  { rewrite <- H. exact Hcache. }
  destruct (newest_non_nan_stored_last _ v ts _ Hnew Hlast) as [Hnan [older Hlog]].
  split; [exact Hnan|]. intros now time out _.
  rewrite Hlog, last_last in H. injection H as Hg Ht.
  unfold VRChatOSC.getGaze, VRChatOSC.isGazeAvailable. rewrite Hg, Ht.
  change Spec.FreshnessWindow with 1000000000.
  destruct (now - ts <? 1000000000); split; reflexivity.
Qed.

Lemma read_returns_newest_sample_witness :
  Psvr2Toolkit.getGaze
    (fst (Psvr2Toolkit.ipc_run Sample.abi clock_one
            (Psvr2Toolkit.start 0 (Psvr2Toolkit.constructed 1)) stream_opposite))
    1000000076 0 XrVector3f_zero
  = (true, mkXrVector3f F32.neg_zero F32.zero F32.neg_zero)
  /\ VRChatOSC.getGaze
       (VRChatOSC.process_all Sample.sinf Sample.cosf messages_one
          (VRChatOSC.start 0 VRChatOSC.constructed))
       1000000010 0 XrVector3f_zero
     = (false, XrVector3f_zero).
Proof.
destruct read_returns_newest_sample as [Hdev Hosc].
split.
- destruct (Hdev Sample.abi clock_one 1 0 stream_opposite
              (mkXrVector3f F32.neg_zero F32.zero F32.neg_zero) 77 eq_refl eq_refl)
    as [_ H].
  refine (proj2 (H 1000000076 0 XrVector3f_zero _)).
  unfold Int64.in_range, Int64.min_value, Int64.max_value. lia.
- destruct (Hosc Sample.sinf Sample.cosf messages_one 0
              (mkXrVector3f F32.zero F32.neg_zero (F32.opp F32.one)) 10 eq_refl eq_refl)
    as [_ H].
  refine (proj2 (H 1000000010 0 XrVector3f_zero _)).
  unfold Int64.in_range, Int64.min_value, Int64.max_value. lia.
Defined.

(** C1, as stated, fails: after a run that has handed no sample to the
    cache, a query made while the clock reads less than one second is
    answered with the zero vector instead of unavailable. *)
Lemma read_without_sample_near_epoch :
  Spec.device_samples Sample.abi clock_idle [] = []
  /\ Psvr2Toolkit.getGaze
       (fst (Psvr2Toolkit.ipc_run Sample.abi clock_idle
               (Psvr2Toolkit.start 0 (Psvr2Toolkit.constructed 1)) []))
       5 0 (mkXrVector3f F32.one F32.one F32.one)
     = (true, XrVector3f_zero)
  /\ Spec.osc_samples Sample.sinf Sample.cosf messages_idle = []
  /\ VRChatOSC.getGaze
       (VRChatOSC.process_all Sample.sinf Sample.cosf messages_idle
          (VRChatOSC.start 0 VRChatOSC.constructed))
       5 0 (mkXrVector3f F32.one F32.one F32.one)
     = (true, XrVector3f_zero).
Proof. repeat split. Qed.
End FreshRead.

(** ** Teardown of the device tracker *)

Module DeviceTeardown.
Import Psvr2Toolkit Examples.

(** An iteration of the loop touches the two cached fields only. *)
Lemma ipcThread_body_fields (abi : IpcProtocol) (now : time_point)
    (t : Psvr2ToolkitEyeTracker) (inb : list recv_event) :
  let t' := fst (ipcThread_body abi now t inb) in
  m_started t' = m_started t
  /\ m_listeningThread t' = m_listeningThread t
  /\ m_socket t' = m_socket t.
Proof.
unfold ipcThread_body.
destruct (recv_loop _ 5 _ 0 inb) as [[[r buf] off] inb'].
destruct (negb (r =? 0)%nat && _ && _); cbn zeta; [|cbn; auto].
destruct (negb _); cbn; auto.
Qed.

(** Nothing in the class assigns [false] to [m_started]: a step of the
    system never clears it. *)
Lemma step_keeps_started (abi : IpcProtocol) (s s' : System) :
  step abi s s' -> m_started (obj s) = true -> m_started (obj s') = true.
Proof.
intros Hstep Hst. destruct Hstep as [session s s' H|now s s' H|s s' H].
- unfold start_step in H. destruct (dtor s); try discriminate.
  rewrite Hst in H. discriminate.
- unfold ipc_step in H. destruct (m_listeningThread (obj s)); try discriminate.
  rewrite Hst in H.
  pose proof (ipcThread_body_fields abi now (obj s) (stream s)) as Hf.
  destruct (ipcThread_body abi now (obj s) (stream s)) as [t' inb'].
  injection H as <-. cbn [obj fst] in *. destruct Hf as [Hf _]. congruence.
- unfold dtor_step in H.
  destruct (dtor s); try discriminate;
    try (injection H as <-; exact Hst).
  destruct (m_listeningThread (obj s)); try discriminate.
  injection H as <-; exact Hst.
Qed.

Lemma step_keeps_waiting (abi : IpcProtocol) (s s' : System) :
  step abi s s' -> waiting s -> waiting s'.
Proof.
intros Hstep (Hst & Hth & Hcalls & Hpc).
destruct Hstep as [session s s' H|now s s' H|s s' H].
- unfold start_step in H. destruct (dtor s); try discriminate.
  rewrite Hst in H. discriminate.
- unfold ipc_step in H. rewrite Hth, Hst in H.
  pose proof (ipcThread_body_fields abi now (obj s) (stream s)) as Hf.
  destruct (ipcThread_body abi now (obj s) (stream s)) as [t' inb'].
  injection H as <-. cbn [fst] in Hf. destruct Hf as (Hf1 & Hf2 & _).
  unfold waiting; cbn [obj calls dtor]. rewrite Hf1, Hf2. auto 10.
- unfold dtor_step in H. destruct Hpc as [Hpc|[Hpc|Hpc]]; rewrite Hpc in H.
  + injection H as <-. unfold waiting; cbn [obj calls dtor]. auto 10.
  + rewrite Hst in H. injection H as <-. unfold waiting; cbn [obj calls dtor]. auto 10.
  + rewrite Hth in H. discriminate.
Qed.

Lemma steps_keep_waiting (abi : IpcProtocol) (s0 s : System) :
  steps abi s0 s -> waiting s0 -> waiting s.
Proof.
intros Hsteps H0. induction Hsteps as [s|s1 s2 s3 _ IH Hstep]; [exact H0|].
exact (step_keeps_waiting abi s2 s3 Hstep (IH H0)).
Qed.

(** C2 at the input on which the code departs from it. Once [start] has
    been called, in every state that the destructor and [ipcThread] can
    reach together [m_started] is still true and the thread is still in
    its loop, able to take another turn; the destructor has not
    returned and has made no call, so the socket has not been shut
    down: it waits in [join] for a thread that does not end. *)
Theorem device_destructor_never_returns (abi : IpcProtocol) (sock : SOCKET)
    (session : XrSession) (inb : list recv_event) (s : System) :
  steps abi (mkSystem (start session (constructed sock)) inb DtorNotCalled []) s ->
  m_started (obj s) = true
  /\ m_listeningThread (obj s) = Running
  /\ dtor s <> DtorReturned
  /\ calls s = []
  /\ (forall now, exists s', ipc_step abi now s = Some s')
  /\ (dtor s = DtorJoin -> dtor_step s = None).
Proof.
intros Hsteps.
assert (H0 : waiting (mkSystem (start session (constructed sock)) inb DtorNotCalled []))
  by (unfold waiting; cbn; auto 10).
destruct (steps_keep_waiting abi _ s Hsteps H0) as (Hst & Hth & Hcalls & Hpc).
repeat split; try assumption.
- destruct Hpc as [Hpc|[Hpc|Hpc]]; rewrite Hpc; discriminate.
- intros now. unfold ipc_step. rewrite Hth, Hst.
  destruct (ipcThread_body abi now (obj s) (stream s)) as [t' inb']. eauto.
- intros Hj. unfold dtor_step. rewrite Hj, Hth. reflexivity.
Qed.

Lemma device_destructor_never_returns_witness :
  let s := mkSystem (start 0 (constructed 1)) [] DtorJoin [] in
  steps Sample.abi device_started s
  /\ m_started (obj s) = true
  /\ dtor_step s = None.
Proof.
cbv zeta.
assert (Hs : steps Sample.abi device_started
               (mkSystem (start 0 (constructed 1)) [] DtorJoin [])).
{ apply (steps_snoc _ _ (mkSystem (start 0 (constructed 1)) [] DtorJoin [])).
  - apply (steps_snoc _ _ (mkSystem (start 0 (constructed 1)) [] DtorIfStarted [])).
    + apply (steps_snoc _ _ device_started); [apply steps_refl|].
      apply step_dtor. reflexivity.
    + apply step_dtor. reflexivity.
  - apply (step_ipc _ 5). reflexivity. }
destruct (device_destructor_never_returns Sample.abi 1 0 [] _ Hs)
  as (Hst & _ & _ & _ & _ & Hjoin).
split; [exact Hs | split; [exact Hst | apply Hjoin; reflexivity]].
Defined.



(** The destructor of a started object run to its end, supposing the
    thread has returned: [join] comes first, then [shutdown],
    [closesocket] and [WSACleanup]. *)
Example destructor_calls_in_order :
  calls (run_dtor 8 (mkSystem (set_thread Finished (start 0 (constructed 1))) []
                       DtorNotCalled []))
  = [JoinReturned; ShutdownCalled; ClosesocketCalled; WSACleanupCalled].
Proof. reflexivity. Qed.


End DeviceTeardown.

(** ** Teardown of the network tracker

    The sibling of the device tracker interrupts its thread before it
    joins it, and its destructor returns. *)

Module NetworkTeardown.
Import VRChatOSC Examples.

Section WithLibm.
Variables sinf cosf : float -> float.

Lemma ProcessMessage_fields (now : time_point) (m : ReceivedMessage)
    (t : VRChatOSCEyeTracker) :
  let t' := ProcessMessage sinf cosf now m t in
  m_started t' = m_started t
  /\ m_listeningThread t' = m_listeningThread t
  /\ m_socket t' = m_socket t.
Proof.
destruct (NetworkFeed.ProcessMessage_cases sinf cosf now m t) as [H|H].
- cbn zeta. rewrite H. auto.
- destruct H as (lp & ly & rp & ry & _ & _ & H). cbn zeta. rewrite H. cbn. auto.
Qed.

Lemma step_keeps_break_requested (s s' : System) :
  step sinf cosf s s' -> break_requested s -> break_requested s'.
Proof.
intros Hstep (Hst & Hth & Hbr).
destruct Hstep as [session s s' H|now m s s' H|s s' H].
- unfold start_step in H. destruct (dtor s); try discriminate.
  rewrite Hst in H. discriminate.
- unfold run_step in H. destruct (m_listeningThread (obj s)) eqn:Et; try discriminate.
  destruct (break_ (m_socket (obj s))) eqn:Eb; injection H as <-.
  + unfold break_requested; cbn. repeat split; [exact Hst | discriminate | auto].
  + pose proof (ProcessMessage_fields now m (obj s)) as (H1 & H2 & H3).
    unfold break_requested; cbn [obj dtor]. rewrite H1, H2, H3, Et.
    repeat split; [exact Hst | discriminate | intros Hj; specialize (Hbr Hj); congruence].
- unfold dtor_step in H. destruct (dtor s) eqn:Hpc; try discriminate.
  + injection H as <-. unfold break_requested; cbn. repeat split; auto. discriminate.
  + injection H as <-. unfold break_requested; cbn [obj dtor]. rewrite Hst.
    repeat split; auto. discriminate.
  + injection H as <-. unfold break_requested; cbn. repeat split; auto.
  + destruct (m_listeningThread (obj s)) eqn:Et; try discriminate.
    injection H as <-. unfold break_requested; cbn. rewrite Et.
    repeat split; auto; discriminate.
Qed.

Lemma steps_keep_break_requested (s0 s : System) :
  steps sinf cosf s0 s -> break_requested s0 -> break_requested s.
Proof.
intros Hsteps H0. induction Hsteps as [s|s1 s2 s3 _ IH Hstep]; [exact H0|].
exact (step_keeps_break_requested s2 s3 Hstep (IH H0)).
Qed.

Lemma steps_trans (s1 s2 s3 : System) :
  steps sinf cosf s1 s2 -> steps sinf cosf s2 s3 -> steps sinf cosf s1 s3.
Proof.
intros H12 H23. induction H23 as [s|s2 s3 s4 _ IH Hstep]; [exact H12|].
exact (steps_snoc sinf cosf s1 s3 s4 (IH H12) Hstep).
Qed.

(** From [join] on, with the break requested, the thread returns at its
    next step and the destructor returns after it. *)
Lemma join_returns (s : System) :
  break_requested s -> dtor s = DtorJoin ->
  exists s', steps sinf cosf s s' /\ dtor s' = DtorReturned.
Proof.
intros (Hst & Hth & Hbr) Hpc. specialize (Hbr Hpc).
destruct (m_listeningThread (obj s)) eqn:Et; [congruence | |].
- (* the thread is in [Run] *)
  eexists. split.
  + eapply steps_snoc; [eapply steps_snoc; [apply steps_refl|]|].
    * apply (step_run sinf cosf 0 msg_zero). unfold run_step. rewrite Et, Hbr. reflexivity.
    * apply step_dtor. unfold dtor_step. cbn [dtor obj]. rewrite Hpc. reflexivity.
  + reflexivity.
- eexists. split.
  + eapply steps_snoc; [apply steps_refl|].
    apply step_dtor. unfold dtor_step. rewrite Hpc, Et. reflexivity.
  + reflexivity.
Qed.

(** Once the destructor of a started network tracker has been called,
    it can always run to its return: no reachable state leaves it
    waiting for ever. *)
Lemma osc_destructor_returns (s : System) :
  steps sinf cosf osc_started s ->
  dtor s <> DtorNotCalled ->
  exists s', steps sinf cosf s s' /\ dtor s' = DtorReturned.
Proof.
intros Hsteps Hcalled.
assert (H0 : break_requested osc_started)
  by (unfold break_requested; cbn; repeat split; discriminate).
pose proof (steps_keep_break_requested osc_started s Hsteps H0) as Hinv.
destruct (dtor s) eqn:Hpc; [congruence | | | |].
- (* before [if (m_started)] *)
  pose (s1 := mkSystem (obj s) DtorAsynchronousBreak (calls s)).
  pose (s2 := mkSystem (set_socket (mkSocket true) (obj s)) DtorJoin
                (calls s ++ [AsynchronousBreakCalled])).
  assert (H12 : steps sinf cosf s s2).
  { apply (steps_snoc _ _ _ s1).
    - apply (steps_snoc _ _ _ s); [apply steps_refl|].
      apply step_dtor. unfold dtor_step. rewrite Hpc.
      destruct Hinv as (Hst & _). rewrite Hst. reflexivity.
    - apply step_dtor. reflexivity. }
  destruct (join_returns s2) as (s' & Hs' & Hret); [|reflexivity|].
  + exact (steps_keep_break_requested s s2 H12 Hinv).
  + exists s'. split; [exact (steps_trans s s2 s' H12 Hs') | exact Hret].
- (* before [AsynchronousBreak] *)
  pose (s2 := mkSystem (set_socket (mkSocket true) (obj s)) DtorJoin
                (calls s ++ [AsynchronousBreakCalled])).
  assert (H12 : steps sinf cosf s s2).
  { apply (steps_snoc _ _ _ s); [apply steps_refl|].
    apply step_dtor. unfold dtor_step. rewrite Hpc. reflexivity. }
  destruct (join_returns s2) as (s' & Hs' & Hret); [|reflexivity|].
  + exact (steps_keep_break_requested s s2 H12 Hinv).
  + exists s'. split; [exact (steps_trans s s2 s' H12 Hs') | exact Hret].
- exact (join_returns s Hinv Hpc).
- exists s. split; [apply steps_refl | exact Hpc].
Qed.
End WithLibm.
End NetworkTeardown.

(** ** The two cached fields change together *)

Module CachedPair.
Import CriticalSection.

Lemma from_one_is_from_a (v : XrVector3f) (t : time_point)
    (acc : list (XrVector3f * time_point)) :
  from_one_sample v t acc -> from_a_sample v t acc.
Proof.
unfold from_one_sample, from_a_sample.
destruct acc as [|s acc]; [auto|]. intros ->. right. left. reflexivity.
Qed.

Lemma set_reader_same (i : nat) (pc : reader_pc) (rs : nat -> reader_pc) :
  set_reader i pc rs i = pc.
Proof. unfold set_reader. rewrite Nat.eqb_refl. reflexivity. Qed.

Lemma set_reader_other (i j : nat) (pc : reader_pc) (rs : nat -> reader_pc) :
  j <> i -> set_reader i pc rs j = rs j.
Proof.
intros H. unfold set_reader. apply Nat.eqb_neq in H. rewrite H. reflexivity.
Qed.

(** A caller inside a block keeps the background thread outside. *)
Lemma reader_inside_writer_outside (m : Machine) (i : nat) :
  consistent m -> readers m i <> ROutside ->
  writer m = WOutside
  /\ from_one_sample (m_latestGaze m) (m_lastReceivedTime m) (accepted m).
Proof.
intros (Hw & Hr & _) Hin. specialize (Hr i Hin).
destruct (writer m); destruct Hw as [Hmx Hw]; try congruence. auto.
Qed.

Lemma step_keeps_consistent (m m' : Machine) :
  step m m' -> consistent m -> consistent m'.
Proof.
intros Hstep Hinv. pose proof Hinv as (Hw & Hr & Hl).
destruct Hstep as [v now m Hpc Hfree|v now m Hpc|v now m Hpc|m Hpc
                  |i m Hpc Hfree|i m Hpc|i v t m Hpc];
  unfold consistent; cbn [writer m_mutex m_latestGaze m_lastReceivedTime readers accepted].
- (* the background thread locks *)
  rewrite Hpc in Hw. destruct Hw as [_ Hw].
  repeat split; [exact Hw | | exact Hl].
  intros i Hi. specialize (Hr i Hi). congruence.
- (* m_latestGaze = v *)
  rewrite Hpc in Hw. destruct Hw as [Hmx _].
  repeat split; [exact Hmx | exact Hr | exact Hl].
- (* m_lastReceivedTime = now *)
  rewrite Hpc in Hw. destruct Hw as [Hmx Hg].
  repeat split; [exact Hmx | cbn; congruence | exact Hr |].
  intros i v' t' Hi. destruct (Hl i v' t' Hi) as [H|H]; [left; exact H|].
  right. right. exact H.
- (* the background thread unlocks *)
  rewrite Hpc in Hw. destruct Hw as [Hmx Hw].
  repeat split; [discriminate | exact Hw | | exact Hl].
  intros i Hi. specialize (Hr i Hi). congruence.
- (* a caller locks *)
  assert (Hout : writer m = WOutside).
  { destruct (writer m); destruct Hw as [Hmx _]; congruence. }
  rewrite Hout in Hw |- *. destruct Hw as [_ Hw].
  repeat split; [discriminate | exact Hw | |].
  + intros j Hj. destruct (Nat.eq_dec j i) as [->|Hne]; [reflexivity|].
    rewrite set_reader_other in Hj by exact Hne.
    specialize (Hr j Hj). congruence.
  + intros j v t Hj. destruct (Nat.eq_dec j i) as [->|Hne].
    * rewrite set_reader_same in Hj. discriminate.
    * rewrite set_reader_other in Hj by exact Hne. exact (Hl j v t Hj).
- (* a caller loads *)
  assert (Hin : readers m i <> ROutside) by (rewrite Hpc; discriminate).
  destruct (reader_inside_writer_outside m i Hinv Hin) as [Hout Hone].
  repeat split; [exact Hw | |].
  + intros j Hj. destruct (Nat.eq_dec j i) as [->|Hne]; [exact (Hr i Hin)|].
    rewrite set_reader_other in Hj by exact Hne. exact (Hr j Hj).
  + intros j v t Hj. destruct (Nat.eq_dec j i) as [->|Hne].
    * rewrite set_reader_same in Hj. injection Hj as <- <-.
      apply from_one_is_from_a. exact Hone.
    * rewrite set_reader_other in Hj by exact Hne. exact (Hl j v t Hj).
- (* a caller unlocks *)
  assert (Hin : readers m i <> ROutside) by (rewrite Hpc; discriminate).
  destruct (reader_inside_writer_outside m i Hinv Hin) as [Hout Hone].
  rewrite Hout. repeat split; [discriminate | exact Hone | |].
  + intros j Hj. destruct (Nat.eq_dec j i) as [->|Hne].
    * rewrite set_reader_same in Hj. congruence.
    * rewrite set_reader_other in Hj by exact Hne.
      pose proof (Hr j Hj) as Hj'. pose proof (Hr i Hin) as Hi'.
      congruence.
  + intros j v' t' Hj. destruct (Nat.eq_dec j i) as [->|Hne].
    * rewrite set_reader_same in Hj. discriminate.
    * rewrite set_reader_other in Hj by exact Hne. exact (Hl j v' t' Hj).
Qed.

Lemma steps_keep_consistent (m0 m : Machine) :
  steps m0 m -> consistent m0 -> consistent m.
Proof.
intros Hsteps H0. induction Hsteps as [m|m1 m2 m3 _ IH Hstep]; [exact H0|].
exact (step_keeps_consistent m2 m3 Hstep (IH H0)).
Qed.

Lemma initial_consistent : consistent initial.
Proof.
unfold consistent, initial; cbn. repeat split; try discriminate.
intros i H. congruence.
Qed.

Lemma chain_steps (ms : list Machine) :
  forall m0 m, steps m0 m -> chain m ms -> steps m0 (last ms m).
Proof.
induction ms as [|m' ms IH]; intros m0 m Hsteps Hchain; [exact Hsteps|].
destruct Hchain as [Hstep Hchain].
rewrite ListFacts.last_cons.
exact (IH m0 m' (steps_snoc m0 m m' Hsteps Hstep) Hchain).
Qed.

(** *** Each step against the sample it hands over *)

Lemma last_app_default {A : Type} (l l' : list A) (d : A) :
  last (l ++ l') d = last l' (last l d).
Proof.
induction l' as [|a l' IH] using rev_ind; [rewrite app_nil_r; reflexivity|].
rewrite app_assoc, !last_last. reflexivity.
Qed.

Lemma device_ipc_step_cached (abi : Psvr2Toolkit.IpcProtocol) (now : time_point)
    (s s' : Psvr2Toolkit.System) :
  0 < Psvr2Toolkit.sizeof_gaze_response abi ->
  Psvr2Toolkit.ipc_step abi now s = Some s' ->
  Psvr2Toolkit.cached (Psvr2Toolkit.obj s')
  = last (History.device_handed abi now s) (Psvr2Toolkit.cached (Psvr2Toolkit.obj s)).
Proof.
intros Hsize H. unfold Psvr2Toolkit.ipc_step in H. unfold History.device_handed.
destruct (Psvr2Toolkit.m_listeningThread (Psvr2Toolkit.obj s)); try discriminate.
destruct (Psvr2Toolkit.m_started (Psvr2Toolkit.obj s));
  [|injection H as <-; reflexivity].
pose proof (DeviceCache.ipcThread_body_sample abi now (Psvr2Toolkit.obj s)
              (Psvr2Toolkit.stream s) Hsize) as Hbody.
destruct (Psvr2Toolkit.ipcThread_body abi now (Psvr2Toolkit.obj s) (Psvr2Toolkit.stream s))
  as [t' inb'].
injection H as <-. cbn [fst] in Hbody. cbn [Psvr2Toolkit.obj]. rewrite Hbody.
destruct (Spec.device_sample abi (Psvr2Toolkit.stream s)); reflexivity.
Qed.

Lemma device_start_step_cached (session : XrSession) (s s' : Psvr2Toolkit.System) :
  Psvr2Toolkit.start_step session s = Some s' ->
  Psvr2Toolkit.cached (Psvr2Toolkit.obj s') = Psvr2Toolkit.cached (Psvr2Toolkit.obj s).
Proof.
intros H. unfold Psvr2Toolkit.start_step in H.
destruct (Psvr2Toolkit.dtor s); try discriminate.
destruct (Psvr2Toolkit.m_started (Psvr2Toolkit.obj s)); try discriminate.
injection H as <-. reflexivity.
Qed.

Lemma device_dtor_step_cached (s s' : Psvr2Toolkit.System) :
  Psvr2Toolkit.dtor_step s = Some s' ->
  Psvr2Toolkit.cached (Psvr2Toolkit.obj s') = Psvr2Toolkit.cached (Psvr2Toolkit.obj s).
Proof.
intros H. unfold Psvr2Toolkit.dtor_step in H.
destruct (Psvr2Toolkit.dtor s); try discriminate;
  try (injection H as <-; reflexivity).
destruct (Psvr2Toolkit.m_listeningThread (Psvr2Toolkit.obj s)); try discriminate.
injection H as <-; reflexivity.
Qed.

Lemma osc_run_step_cached (sinf cosf : float -> float) (now : time_point)
    (m : VRChatOSC.ReceivedMessage) (s s' : VRChatOSC.System) :
  VRChatOSC.run_step sinf cosf now m s = Some s' ->
  VRChatOSC.cached (VRChatOSC.obj s')
  = last (History.osc_handed sinf cosf now m s) (VRChatOSC.cached (VRChatOSC.obj s)).
Proof.
intros H. unfold VRChatOSC.run_step in H. unfold History.osc_handed.
destruct (VRChatOSC.m_listeningThread (VRChatOSC.obj s)); try discriminate.
destruct (VRChatOSC.break_ _); injection H as <-; [reflexivity|].
cbn [VRChatOSC.obj]. rewrite NetworkFeed.ProcessMessage_sample.
destruct (Spec.osc_sample sinf cosf m); reflexivity.
Qed.

Lemma osc_start_step_cached (session : XrSession) (s s' : VRChatOSC.System) :
  VRChatOSC.start_step session s = Some s' ->
  VRChatOSC.cached (VRChatOSC.obj s') = VRChatOSC.cached (VRChatOSC.obj s).
Proof.
intros H. unfold VRChatOSC.start_step in H.
destruct (VRChatOSC.dtor s); try discriminate.
destruct (VRChatOSC.m_started (VRChatOSC.obj s)); try discriminate.
injection H as <-. reflexivity.
Qed.

Lemma osc_dtor_step_cached (s s' : VRChatOSC.System) :
  VRChatOSC.dtor_step s = Some s' ->
  VRChatOSC.cached (VRChatOSC.obj s') = VRChatOSC.cached (VRChatOSC.obj s).
Proof.
intros H. unfold VRChatOSC.dtor_step in H.
destruct (VRChatOSC.dtor s); try discriminate;
  try (injection H as <-; reflexivity).
destruct (VRChatOSC.m_listeningThread (VRChatOSC.obj s)); try discriminate.
injection H as <-; reflexivity.
Qed.

(** *** Every reachable state against the samples of its run *)

Lemma device_steps_trace (abi : Psvr2Toolkit.IpcProtocol) (s0 s : Psvr2Toolkit.System) :
  Psvr2Toolkit.steps abi s0 s -> exists log, History.device_trace abi s0 log s.
Proof.
induction 1 as [s|s1 s2 s3 _ [log IH] Hstep].
- exists []. constructor.
- destruct Hstep as [session s2 s3 H|now s2 s3 H|s2 s3 H].
  + exists log. exact (History.device_trace_start abi s1 log s2 session s3 IH H).
  + exists (log ++ History.device_handed abi now s2).
    exact (History.device_trace_ipc abi s1 log s2 now s3 IH H).
  + exists log. exact (History.device_trace_dtor abi s1 log s2 s3 IH H).
Qed.

Lemma device_trace_cached (abi : Psvr2Toolkit.IpcProtocol)
    (s0 s : Psvr2Toolkit.System) (log : list History.sample) :
  0 < Psvr2Toolkit.sizeof_gaze_response abi ->
  History.device_trace abi s0 log s ->
  Psvr2Toolkit.cached (Psvr2Toolkit.obj s)
  = last log (Psvr2Toolkit.cached (Psvr2Toolkit.obj s0)).
Proof.
intros Hsize Htrace.
induction Htrace as [s|s1 log s2 session s3 _ IH H|s1 log s2 now s3 _ IH H
                    |s1 log s2 s3 _ IH H].
- reflexivity.
- rewrite (device_start_step_cached session s2 s3 H). exact IH.
- rewrite (device_ipc_step_cached abi now s2 s3 Hsize H), last_app_default, IH.
  reflexivity.
- rewrite (device_dtor_step_cached s2 s3 H). exact IH.
Qed.

Lemma osc_steps_trace (sinf cosf : float -> float) (s0 s : VRChatOSC.System) :
  VRChatOSC.steps sinf cosf s0 s -> exists log, History.osc_trace sinf cosf s0 log s.
Proof.
induction 1 as [s|s1 s2 s3 _ [log IH] Hstep].
- exists []. constructor.
- destruct Hstep as [session s2 s3 H|now m s2 s3 H|s2 s3 H].
  + exists log. exact (History.osc_trace_start sinf cosf s1 log s2 session s3 IH H).
  + exists (log ++ History.osc_handed sinf cosf now m s2).
    exact (History.osc_trace_run sinf cosf s1 log s2 now m s3 IH H).
  + exists log. exact (History.osc_trace_dtor sinf cosf s1 log s2 s3 IH H).
Qed.

Lemma osc_trace_cached (sinf cosf : float -> float)
    (s0 s : VRChatOSC.System) (log : list History.sample) :
  History.osc_trace sinf cosf s0 log s ->
  VRChatOSC.cached (VRChatOSC.obj s)
  = last log (VRChatOSC.cached (VRChatOSC.obj s0)).
Proof.
intros Htrace.
induction Htrace as [s|s1 log s2 session s3 _ IH H|s1 log s2 now m s3 _ IH H
                    |s1 log s2 s3 _ IH H].
- reflexivity.
- rewrite (osc_start_step_cached session s2 s3 H). exact IH.
- rewrite (osc_run_step_cached sinf cosf now m s2 s3 H), last_app_default, IH.
  reflexivity.
- rewrite (osc_dtor_step_cached s2 s3 H). exact IH.
Qed.

(** *** The same run, statement by statement under the mutex *)

(** The four statements of the locked block are steps of the machine
    when the background thread is outside and the mutex is free. *)
Lemma store_block_chain (v : XrVector3f) (now : time_point) (m : Machine) :
  writer m = WOutside -> m_mutex m = None ->
  chain m (History.store_block v now m).
Proof.
intros Hout Hfree. unfold History.store_block. cbn [chain]. repeat split.
- exact (w_lock v now m Hout Hfree).
- match goal with |- step ?a _ => exact (w_store_gaze v now a eq_refl) end.
- match goal with |- step ?a _ => exact (w_store_time v now a eq_refl) end.
- match goal with |- step ?a _ => exact (w_unlock a eq_refl) end.
Qed.

(** Running the locked block once for each sample of a run is a run of
    the machine; it ends with the background thread outside, the mutex
    free, the two fields those of the newest sample and every sample of
    the run accepted, newest first. *)
Lemma replay_steps (log : list History.sample) :
  forall m0 m,
    steps m0 m -> writer m = WOutside -> m_mutex m = None ->
    let m' := History.replay log m in
    steps m0 m'
    /\ writer m' = WOutside /\ m_mutex m' = None
    /\ (m_latestGaze m', m_lastReceivedTime m')
       = last log (m_latestGaze m, m_lastReceivedTime m)
    /\ accepted m' = rev log ++ accepted m.
Proof.
induction log as [|[v now] log IH]; intros m0 m Hsteps Hout Hfree; cbn zeta.
- cbn. auto.
- cbn [History.replay].
  pose proof (chain_steps _ m0 m Hsteps (store_block_chain v now m Hout Hfree)) as Hblock.
  destruct (IH m0 (last (History.store_block v now m) m) Hblock eq_refl eq_refl)
    as (H1 & H2 & H3 & H4 & H5).
  repeat split; [exact H1 | exact H2 | exact H3 | |].
  + rewrite H4, ListFacts.last_cons. reflexivity.
  + rewrite H5. cbn [History.store_block last accepted rev].
    rewrite <- app_assoc. reflexivity.
Qed.

(** C10. For both trackers the cached vector and its timestamp are
    written from one accepted sample. A step of the background thread,
    whatever clock reading [now] it takes, leaves the two fields alone
    when it hands no sample over, and otherwise leaves in them the vector
    of the sample it has read and that very [now]; no step of the owner
    or of the destructor changes either field. So in every state that
    the owner, the destructor and the thread can reach from a
    constructed object, the two fields are the vector and the clock
    reading of the newest sample the steps of the run have handed over,
    or both initial. Statement by statement under the mutex, the locked
    blocks for those samples are a run of the machine that ends with the
    same two fields; and in every state that the background thread and
    the callers can reach in the machine, the two fields are those of
    the newest accepted sample whenever the background thread does not
    hold the mutex, a caller inside a block excludes the background
    thread, and every pair a caller has loaded is the pair of one
    sample. *)
Theorem cached_fields_written_together :
  (forall abi now s s',
      0 < Psvr2Toolkit.sizeof_gaze_response abi ->
      Psvr2Toolkit.ipc_step abi now s = Some s' ->
      Psvr2Toolkit.cached (Psvr2Toolkit.obj s')
      = last (History.device_handed abi now s)
             (Psvr2Toolkit.cached (Psvr2Toolkit.obj s)))
  /\ (forall s s',
         (exists session, Psvr2Toolkit.start_step session s = Some s')
         \/ Psvr2Toolkit.dtor_step s = Some s' ->
         Psvr2Toolkit.cached (Psvr2Toolkit.obj s')
         = Psvr2Toolkit.cached (Psvr2Toolkit.obj s))
  /\ (forall sinf cosf now msg s s',
         VRChatOSC.run_step sinf cosf now msg s = Some s' ->
         VRChatOSC.cached (VRChatOSC.obj s')
         = last (History.osc_handed sinf cosf now msg s)
                (VRChatOSC.cached (VRChatOSC.obj s)))
  /\ (forall s s',
         (exists session, VRChatOSC.start_step session s = Some s')
         \/ VRChatOSC.dtor_step s = Some s' ->
         VRChatOSC.cached (VRChatOSC.obj s') = VRChatOSC.cached (VRChatOSC.obj s))
  /\ (forall abi sock inb s,
         0 < Psvr2Toolkit.sizeof_gaze_response abi ->
         let s0 := Psvr2Toolkit.mkSystem (Psvr2Toolkit.constructed sock) inb
                     Psvr2Toolkit.DtorNotCalled [] in
         Psvr2Toolkit.steps abi s0 s ->
         exists log,
           History.device_trace abi s0 log s
           /\ Psvr2Toolkit.cached (Psvr2Toolkit.obj s)
              = last log (XrVector3f_zero, time_point_default)
           /\ steps initial (History.replay log initial)
           /\ (m_latestGaze (History.replay log initial),
               m_lastReceivedTime (History.replay log initial))
              = Psvr2Toolkit.cached (Psvr2Toolkit.obj s)
           /\ accepted (History.replay log initial) = rev log)
  /\ (forall sinf cosf s,
         let s0 := VRChatOSC.mkSystem VRChatOSC.constructed
                     VRChatOSC.DtorNotCalled [] in
         VRChatOSC.steps sinf cosf s0 s ->
         exists log,
           History.osc_trace sinf cosf s0 log s
           /\ VRChatOSC.cached (VRChatOSC.obj s)
              = last log (XrVector3f_zero, time_point_default)
           /\ steps initial (History.replay log initial)
           /\ (m_latestGaze (History.replay log initial),
               m_lastReceivedTime (History.replay log initial))
              = VRChatOSC.cached (VRChatOSC.obj s)
           /\ accepted (History.replay log initial) = rev log)
  /\ (forall m,
         steps initial m ->
         (m_mutex m <> Some Writer ->
          from_one_sample (m_latestGaze m) (m_lastReceivedTime m) (accepted m))
         /\ (forall i, readers m i <> ROutside -> writer m = WOutside)
         /\ (forall i v t, readers m i = RLoaded v t -> from_a_sample v t (accepted m))).
Proof.
split; [exact device_ipc_step_cached|].
split.
{ intros s s' [[session H]|H];
    [exact (device_start_step_cached session s s' H)
    |exact (device_dtor_step_cached s s' H)]. }
split; [exact osc_run_step_cached|].
split.
{ intros s s' [[session H]|H];
    [exact (osc_start_step_cached session s s' H)
    |exact (osc_dtor_step_cached s s' H)]. }
split.
{ intros abi sock inb s Hsize s0 Hsteps.
  destruct (device_steps_trace abi s0 s Hsteps) as [log Htrace].
  pose proof (device_trace_cached abi s0 s log Hsize Htrace) as Hcache.
  destruct (replay_steps log initial initial (steps_refl initial) eq_refl eq_refl)
    as (H1 & _ & _ & H4 & H5).
  exists log. repeat split.
  - exact Htrace.
  - exact Hcache.
  - exact H1.
  - rewrite H4, Hcache. reflexivity.
  - rewrite H5. apply app_nil_r. }
split.
{ intros sinf cosf s s0 Hsteps.
  destruct (osc_steps_trace sinf cosf s0 s Hsteps) as [log Htrace].
  pose proof (osc_trace_cached sinf cosf s0 s log Htrace) as Hcache.
  destruct (replay_steps log initial initial (steps_refl initial) eq_refl eq_refl)
    as (H1 & _ & _ & H4 & H5).
  exists log. repeat split.
  - exact Htrace.
  - exact Hcache.
  - exact H1.
  - rewrite H4, Hcache. reflexivity.
  - rewrite H5. apply app_nil_r. }
intros m Hsteps.
pose proof (steps_keep_consistent initial m Hsteps initial_consistent) as Hinv.
pose proof Hinv as (Hw & Hr & Hl).
split; [|split; [|exact Hl]].
- intros Hfree. destruct (writer m); destruct Hw as [Hmx Hw]; congruence.
- intros i Hi. exact (proj1 (reader_inside_writer_outside m i Hinv Hi)).
Qed.

Lemma cached_fields_written_together_witness :
  (let s := Psvr2Toolkit.mkSystem (Psvr2Toolkit.start 0 (Psvr2Toolkit.constructed 1))
              Examples.stream_opposite Psvr2Toolkit.DtorNotCalled [] in
   let s' := Psvr2Toolkit.mkSystem
               (Psvr2Toolkit.mkTracker true Running 1
                  (mkXrVector3f F32.neg_zero F32.zero F32.neg_zero) 77)
               [] Psvr2Toolkit.DtorNotCalled [] in
   Psvr2Toolkit.ipc_step Sample.abi 77 s = Some s'
   /\ Psvr2Toolkit.cached (Psvr2Toolkit.obj s')
      = (mkXrVector3f F32.neg_zero F32.zero F32.neg_zero, 77))
  /\ (let m := last Examples.machine_run initial in
      steps initial m
      /\ readers m 0%nat = RLoaded Examples.sample_vector 5
      /\ from_a_sample Examples.sample_vector 5 (accepted m)).
Proof.
destruct cached_fields_written_together as (Hipc & _ & _ & _ & _ & _ & H).
split.
- cbv zeta. split; [reflexivity|].
  exact (Hipc Sample.abi 77
           (Psvr2Toolkit.mkSystem (Psvr2Toolkit.start 0 (Psvr2Toolkit.constructed 1))
              Examples.stream_opposite Psvr2Toolkit.DtorNotCalled [])
           (Psvr2Toolkit.mkSystem
              (Psvr2Toolkit.mkTracker true Running 1
                 (mkXrVector3f F32.neg_zero F32.zero F32.neg_zero) 77)
              [] Psvr2Toolkit.DtorNotCalled [])
           eq_refl eq_refl).
- cbv zeta.
  assert (Hs : steps initial (last Examples.machine_run initial)).
  { apply chain_steps; [apply steps_refl|].
    unfold Examples.machine_run; cbn [chain]. repeat split.
    - exact (w_lock Examples.sample_vector 5 initial eq_refl eq_refl).
    - match goal with |- step ?a _ =>
        exact (w_store_gaze Examples.sample_vector 5 a eq_refl) end.
    - match goal with |- step ?a _ =>
        exact (w_store_time Examples.sample_vector 5 a eq_refl) end.
    - match goal with |- step ?a _ => exact (w_unlock a eq_refl) end.
    - match goal with |- step ?a _ => exact (r_lock 0%nat a eq_refl eq_refl) end.
    - match goal with |- step ?a _ => exact (r_load 0%nat a eq_refl) end. }
  split; [exact Hs | split; [reflexivity|]].
  destruct (H _ Hs) as (_ & _ & Hload).
  exact (Hload 0%nat Examples.sample_vector 5 eq_refl).
Defined.
End CachedPair.

(** ** More on the read loop and the connect loop *)

Module Loops.
Import Psvr2Toolkit.

Lemma stream_bytes_arrivals_nil (n : nat) : Spec.arrivals n [] = [].
Proof. destruct n; reflexivity. Qed.

(** Everything the loop does to its stream, its offset and its clock. *)
Lemma recv_loop_account (delay size : Z) (n : nat) :
  forall (buffer : list byte) (offset : Z) (inb : list recv_event),
    0 <= offset < size ->
    List.length buffer = Z.to_nat size ->
    let taken := firstn (Z.to_nat (size - offset)) (Spec.arrivals n inb) in
    let '(r, buf, off, inb') := recv_loop size n buffer offset inb in
    off = offset + Z.of_nat (List.length taken)
    /\ Spec.stream_bytes inb = taken ++ Spec.stream_bytes inb'
    /\ List.length buf = List.length buffer
    /\ (r <= n)%nat
    /\ (r = O -> inb' = skipn n inb)
    /\ recv_loop_slept delay size n offset inb = delay * Z.of_nat (n - r).
Proof.
induction n as [|n IH]; intros buffer offset inb Hoff Hlen; cbn zeta.
- cbn [recv_loop recv_loop_slept Spec.arrivals]. rewrite firstn_nil. cbn.
  repeat split; try lia.
- destruct inb as [|[|bs] rest].
  + (* nothing arrives *)
    cbn [recv_loop recv recv_loop_slept Spec.arrivals].
    destruct (0 <? SOCKET_ERROR) eqn:E0; [discriminate|].
    destruct (offset >=? size) eqn:E; [lia|].
    specialize (IH buffer offset [] Hoff Hlen). cbn zeta in IH.
    rewrite stream_bytes_arrivals_nil in IH.
    destruct (recv_loop size n buffer offset []) as [[[r buf] off] inb'].
    destruct IH as (H1 & H2 & H3 & H4 & H5 & H6).
    rewrite H6. repeat split; try assumption; try lia;
      try (replace (S n - r)%nat with (S (n - r)) by lia; rewrite Nat2Z.inj_succ; ring).
    intros Hr. rewrite (H5 Hr). rewrite !skipn_nil. reflexivity.
  + cbn [recv_loop recv recv_loop_slept Spec.arrivals Spec.stream_bytes].
    destruct (0 <? SOCKET_ERROR) eqn:E0; [discriminate|].
    destruct (offset >=? size) eqn:E; [lia|].
    specialize (IH buffer offset rest Hoff Hlen). cbn zeta in IH.
    destruct (recv_loop size n buffer offset rest) as [[[r buf] off] inb'].
    destruct IH as (H1 & H2 & H3 & H4 & H5 & H6).
    rewrite H6. repeat split; try assumption; try lia;
      try (replace (S n - r)%nat with (S (n - r)) by lia; rewrite Nat2Z.inj_succ; ring).
  + cbn [recv_loop recv recv_loop_slept Spec.arrivals Spec.stream_bytes].
    set (k := Z.to_nat (size - offset)).
    set (got := firstn k bs).
    assert (Hgot : (List.length got <= k)%nat) by apply firstn_le_length.
    destruct (0 <? Z.of_nat (List.length got)) eqn:Epos.
    * destruct (offset + Z.of_nat (List.length got) >=? size) eqn:Efull.
      -- (* the response is complete *)
         assert (Hk : List.length got = k) by lia.
         assert (Hbs : (k <= List.length bs)%nat).
         { subst got. rewrite length_firstn in Hk. lia. }
         assert (Htaken : firstn k (bs ++ Spec.arrivals n rest) = got).
         { rewrite firstn_app.
           replace (k - List.length bs)%nat with 0%nat by lia.
           simpl firstn. apply app_nil_r. }
         rewrite Htaken.
         assert (Hstream : bs ++ Spec.stream_bytes rest
                           = got ++ Spec.stream_bytes
                                      match skipn k bs with
                                      | [] => rest
                                      | _ :: _ => RecvData (skipn k bs) :: rest
                                      end).
         { rewrite <- (firstn_skipn k bs) at 1. fold got. rewrite <- app_assoc.
           f_equal. destruct (skipn k bs); reflexivity. }
         repeat split; try lia; try exact Hstream; try discriminate;
           try (rewrite Nat.sub_diag, Z.mul_0_r; reflexivity).
         rewrite RecvLoop.store_length; [reflexivity | lia].
      -- (* a part of it has arrived *)
         assert (Hlt : (List.length got < k)%nat) by lia.
         assert (Hall : got = bs).
         { subst got. apply firstn_all2. rewrite length_firstn in Hlt. lia. }
         assert (Hskip : skipn k bs = []).
         { apply skipn_all2. rewrite <- Hall. lia. }
         rewrite Hskip. rewrite Hall in *.
         specialize (IH (store buffer offset bs) (offset + Z.of_nat (List.length bs)) rest).
         cbn zeta in IH.
         destruct (recv_loop size n (store buffer offset bs)
                     (offset + Z.of_nat (List.length bs)) rest)
           as [[[r buf] off] inb'].
         destruct IH as (H1 & H2 & H3 & H4 & H5 & H6);
           [lia | rewrite RecvLoop.store_length; lia |].
         rewrite H6.
         assert (Htaken : firstn k (bs ++ Spec.arrivals n rest)
                          = bs ++ firstn (Z.to_nat (size - (offset + Z.of_nat (List.length bs))))
                                    (Spec.arrivals n rest)).
         { rewrite firstn_app. rewrite (firstn_all2 (n := k)) by lia.
           f_equal. f_equal. lia. }
         rewrite Htaken. rewrite length_app.
         repeat split; try lia.
         ++ rewrite H2, app_assoc. reflexivity.
         ++ rewrite H3. apply RecvLoop.store_length. lia.
         ++ exact H5.
         ++ replace (S n - r)%nat with (S (n - r)) by lia.
            rewrite Nat2Z.inj_succ. ring.
    * (* the peer has closed the stream *)
      assert (Hnil : bs = []).
      { destruct bs as [|b bs']; [reflexivity|].
        subst got. rewrite length_firstn in Epos.
        apply Z.ltb_ge in Epos. simpl List.length in Epos.
        assert (0 < k)%nat by lia. lia. }
      subst bs. simpl skipn. rewrite skipn_nil.
      destruct (offset >=? size) eqn:E; [lia|].
      simpl app.
      specialize (IH buffer offset rest Hoff Hlen). cbn zeta in IH.
      destruct (recv_loop size n buffer offset rest) as [[[r buf] off] inb'].
      destruct IH as (H1 & H2 & H3 & H4 & H5 & H6).
      rewrite H6. repeat split; try assumption; try lia;
      try (replace (S n - r)%nat with (S (n - r)) by lia; rewrite Nat2Z.inj_succ; ring).
Qed.

(** The loop sleeps once for each attempt it gives up. *)
Lemma recv_loop_slept_spec (delay size : Z) (n : nat) :
  forall (buffer : list byte) (offset : Z) (inb : list recv_event),
    let '(r, _, _, _) := recv_loop size n buffer offset inb in
    (r <= n)%nat
    /\ recv_loop_slept delay size n offset inb = delay * Z.of_nat (n - r).
Proof.
induction n as [|n IH]; intros buffer offset inb.
- cbn. split; [lia | ring].
- cbn [recv_loop recv_loop_slept].
  destruct (recv inb (size - offset)) as [[result data] inb1].
  destruct ((if 0 <? result then offset + result else offset) >=? size).
  + rewrite Nat.sub_diag, Z.mul_0_r. split; [lia | reflexivity].
  + specialize (IH (if 0 <? result then store buffer offset data else buffer)
                   (if 0 <? result then offset + result else offset) inb1).
    destruct (recv_loop size n _ _ inb1) as [[[r buf] off] inb'].
    destruct IH as [Hle Hs]. rewrite Hs. split; [lia|].
    replace (S n - r)%nat with (S (n - r)) by lia.
    rewrite Nat2Z.inj_succ. ring.
Qed.

Lemma connect_loop_slept_spec (n : nat) :
  forall script,
    (fst (connect_loop n script) <= n)%nat
    /\ connect_loop_slept n script
       = 100 * Z.of_nat (n - fst (connect_loop n script)).
Proof.
induction n as [|n IH]; intros script.
- cbn. split; [lia | reflexivity].
- cbn [connect_loop connect_loop_slept].
  destruct (connect script) as [[rc last_error] script'].
  destruct (rc =? 0); [cbn [fst]; rewrite Nat.sub_diag; split; [lia | reflexivity]|].
  destruct (last_error =? WSAEISCONN);
    [cbn [fst]; rewrite Nat.sub_diag; split; [lia | reflexivity]|].
  destruct (IH script') as [Hle Hs]. rewrite Hs. split; [lia|].
  replace (S n - fst (connect_loop n script'))%nat
    with (S (n - fst (connect_loop n script'))) by lia.
  rewrite Nat2Z.inj_succ. ring.
Qed.

(** A first read that completes the response costs no sleep. *)
Lemma first_read_no_sleep (delay size : Z) (n : nat) (bs : list byte)
    (rest : list recv_event) :
  size <= Z.of_nat (List.length bs) ->
  recv_loop_slept delay size (S n) 0 (RecvData bs :: rest) = 0.
Proof.
intros Hfull. cbn [recv_loop_slept recv]. rewrite Z.sub_0_r.
set (got := firstn (Z.to_nat size) bs).
assert (Hlen : List.length got = Z.to_nat size)
  by (subst got; rewrite length_firstn; lia).
destruct (0 <? Z.of_nat (List.length got)) eqn:E0.
- destruct (0 + Z.of_nat (List.length got) >=? size) eqn:E1; [reflexivity | lia].
- destruct (0 >=? size) eqn:E1; [reflexivity | lia].
Qed.

(** X1. The read loop, from any offset inside the response: it stops
    with attempts left exactly when what arrives during its attempts
    fills the rest of the response, and it leaves in the buffer, from
    that offset on and in their order, the bytes that arrived, over what
    the buffer held before. *)
Theorem recv_loop_accumulates (size : Z) (n : nat) (buffer : list byte)
    (offset : Z) (inb : list recv_event) :
  0 <= offset < size ->
  List.length buffer = Z.to_nat size ->
  let a := Spec.arrivals n inb in
  (fst (fst (fst (recv_loop size n buffer offset inb))) <> O
   <-> size <= offset + Z.of_nat (List.length a))
  /\ snd (fst (fst (recv_loop size n buffer offset inb)))
     = store buffer offset (firstn (Z.to_nat (size - offset)) a).
Proof.
intros Hoff Hlen a.
pose proof (RecvLoop.recv_loop_spec size n buffer offset inb Hoff Hlen) as H.
cbn zeta in H.
destruct (recv_loop size n buffer offset inb) as [[[r buf] off] inb'].
exact H.
Qed.

Lemma recv_loop_accumulates_witness :
  snd (fst (fst (recv_loop 7 5 (zeroed 7) 0 (inbound Examples.net_ready))))
  = Examples.good_response.
Proof.
destruct (recv_loop_accumulates 7 5 (zeroed 7) 0 (inbound Examples.net_ready))
  as [_ H]; [lia | reflexivity |].
rewrite H. reflexivity.
Defined.

(** X2. The read loop stays inside the response: the offset it ends
    with is at most the size of the response, the buffer keeps its
    length, and the attempts left are at most those it began with. *)
Theorem recv_loop_in_bounds (size : Z) (n : nat) (buffer : list byte)
    (offset : Z) (inb : list recv_event) :
  0 <= offset < size ->
  List.length buffer = Z.to_nat size ->
  let '(r, buf, off, _) := recv_loop size n buffer offset inb in
  offset <= off <= size
  /\ List.length buf = Z.to_nat size
  /\ (r <= n)%nat.
Proof.
intros Hoff Hlen.
pose proof (recv_loop_account 1 size n buffer offset inb Hoff Hlen) as H.
cbn zeta in H.
destruct (recv_loop size n buffer offset inb) as [[[r buf] off] inb'].
destruct H as (H1 & _ & H3 & H4 & _).
pose proof (firstn_le_length (Z.to_nat (size - offset)) (Spec.arrivals n inb)) as Hle.
repeat split; try lia.
Qed.

Lemma recv_loop_in_bounds_witness :
  snd (fst (recv_loop 7 5 (zeroed 7) 0 (inbound Examples.net_late))) <= 7.
Proof.
pose proof (recv_loop_in_bounds 7 5 (zeroed 7) 0 (inbound Examples.net_late)) as H.
destruct (recv_loop 7 5 (zeroed 7) 0 (inbound Examples.net_late)) as [[[r buf] off] inb'].
destruct H as [[_ H] _]; [lia | reflexivity |]. exact H.
Defined.

(** X3. The read loop loses no byte and invents none: the bytes it has
    put in the buffer, followed by the bytes it leaves in the stream,
    are the bytes of the stream it began with. *)
Theorem recv_loop_conserves_stream (size : Z) (n : nat) (buffer : list byte)
    (offset : Z) (inb : list recv_event) :
  0 <= offset < size ->
  List.length buffer = Z.to_nat size ->
  let '(_, buf, off, inb') := recv_loop size n buffer offset inb in
  Spec.stream_bytes inb
  = firstn (Z.to_nat (off - offset)) (skipn (Z.to_nat offset) buf)
    ++ Spec.stream_bytes inb'.
Proof.
intros Hoff Hlen.
pose proof (recv_loop_account 1 size n buffer offset inb Hoff Hlen) as H.
pose proof (RecvLoop.recv_loop_spec size n buffer offset inb Hoff Hlen) as Hs.
cbn zeta in H, Hs.
destruct (recv_loop size n buffer offset inb) as [[[r buf] off] inb'].
destruct H as (H1 & H2 & _). destruct Hs as [_ Hbuf].
set (taken := firstn (Z.to_nat (size - offset)) (Spec.arrivals n inb)) in *.
rewrite H2. f_equal.
assert (Hn : Z.to_nat (off - offset) = List.length taken) by lia.
rewrite Hn, Hbuf. unfold store.
rewrite skipn_app, skipn_all2 by (rewrite length_firstn; lia).
rewrite length_firstn.
replace (Z.to_nat offset - Nat.min (Z.to_nat offset) (List.length buffer))%nat
  with 0%nat by lia.
cbn [skipn app]. rewrite firstn_app, Nat.sub_diag, firstn_all. cbn [firstn].
symmetry. apply app_nil_r.
Qed.

Lemma recv_loop_conserves_stream_witness :
  Spec.stream_bytes Examples.stream_opposite
  = firstn 32 (snd (fst (fst (recv_loop 32 5 (zeroed 32) 0 Examples.stream_opposite)))).
Proof.
pose proof (recv_loop_conserves_stream 32 5 (zeroed 32) 0 Examples.stream_opposite) as H.
destruct (recv_loop 32 5 (zeroed 32) 0 Examples.stream_opposite)
  as [[[r buf] off] inb'] eqn:E.
rewrite H; [|lia|reflexivity].
injection E as _ <- <- <-. reflexivity.
Defined.

(** X4. A gaze response that is not complete after the five attempts
    changes nothing in the tracker, whatever flags and vectors the bytes
    received so far spell, and what the five attempts received is gone:
    the next turn of the loop starts five arrivals further on, at the
    beginning of a fresh response object. *)
Theorem incomplete_response_dropped (abi : IpcProtocol) (now : time_point)
    (t : Psvr2ToolkitEyeTracker) (inb : list recv_event) :
  0 < sizeof_gaze_response abi ->
  ~ Spec.fully_read (sizeof_gaze_response abi) inb ->
  ipcThread_body abi now t inb = (t, skipn 5 inb).
Proof.
intros Hsize Hpart. unfold ipcThread_body.
set (size := sizeof_gaze_response abi) in *.
pose proof (recv_loop_account 1 size 5 (zeroed size) 0 inb) as Ha.
pose proof (RecvLoop.recv_loop_spec size 5 (zeroed size) 0 inb) as Hs.
cbn zeta in Ha, Hs.
destruct (recv_loop size 5 (zeroed size) 0 inb) as [[[r buf] off] inb'].
destruct Ha as (_ & _ & _ & _ & Hskip & _);
  [lia | unfold zeroed; apply repeat_length |].
destruct Hs as [Hr _]; [lia | unfold zeroed; apply repeat_length |].
assert (Hr0 : r = O).
{ destruct r as [|r']; [reflexivity|]. exfalso. apply Hpart.
  unfold Spec.fully_read. apply Hr. discriminate. }
subst r. rewrite (Hskip eq_refl). reflexivity.
Qed.

Lemma incomplete_response_dropped_witness :
  ipcThread_body Sample.abi 77 (constructed 1) Examples.stream_slow
  = (constructed 1, [RecvData [xbf; x01]]).
Proof.
rewrite (incomplete_response_dropped Sample.abi 77 (constructed 1) Examples.stream_slow).
- reflexivity.
- reflexivity.
- unfold Spec.fully_read. vm_compute. intros H. apply H. reflexivity.
Defined.

(** X5. A constructor that succeeds takes from the stream the bytes of
    the handshake response and no more: what arrived behind them is
    still there for the first turn of [ipcThread]. *)
Theorem ctor_leaves_rest_of_stream (abi : IpcProtocol) (sock : SOCKET)
    (net : Network) (t : Psvr2ToolkitEyeTracker) :
  0 < sizeof_handshake_response abi ->
  fst (createPsvr2ToolkitEyeTracker abi sock net) = Some t ->
  Spec.stream_bytes (inbound (snd (createPsvr2ToolkitEyeTracker abi sock net)))
  = skipn (Z.to_nat (sizeof_handshake_response abi)) (Spec.stream_bytes (inbound net)).
Proof.
intros Hsize. unfold createPsvr2ToolkitEyeTracker, ctor.
set (size := sizeof_handshake_response abi) in *.
destruct (connect_loop 15 (connects net)) as [r1 script].
destruct (r1 =? 0)%nat; [discriminate|].
pose proof (recv_loop_account 1 size 5 (zeroed size) 0 (inbound net)) as Ha.
pose proof (RecvLoop.recv_loop_spec size 5 (zeroed size) 0 (inbound net)) as Hs.
cbn zeta in Ha, Hs.
destruct (recv_loop size 5 (zeroed size) 0 (inbound net)) as [[[r buf] off] inb'].
destruct Ha as (_ & Hstream & _); [lia | unfold zeroed; apply repeat_length |].
destruct Hs as [Hr _]; [lia | unfold zeroed; apply repeat_length |].
destruct (Nat.eqb_spec r 0) as [E|E]; cbn [orb]; [discriminate|].
destruct (negb _ || negb _); [discriminate|]. intros _. cbn [snd inbound].
apply Hr in E. rewrite Z.sub_0_r in Hstream.
set (taken := firstn (Z.to_nat size) (Spec.arrivals 5 (inbound net))) in *.
assert (Hlen : List.length taken = Z.to_nat size).
{ subst taken. rewrite length_firstn. lia. }
rewrite Hstream, <- Hlen, skipn_app, skipn_all, Nat.sub_diag. reflexivity.
Qed.

Lemma ctor_leaves_rest_of_stream_witness :
  Spec.stream_bytes
    (inbound (snd (createPsvr2ToolkitEyeTracker Sample.abi 1 Examples.net_coalesced)))
  = Examples.gaze_response Examples.f_one Examples.f_zero Examples.f_zero x01
      Examples.f_minus_one Examples.f_zero Examples.f_zero x01.
Proof.
rewrite (ctor_leaves_rest_of_stream Sample.abi 1 Examples.net_coalesced (constructed 1)).
- reflexivity.
- reflexivity.
- reflexivity.
Defined.

(** X6. Every turn of the loop of [ipcThread] sleeps five milliseconds
    in all, whether the response is read at the first attempt, at a
    later one, or not at all: one millisecond for each attempt given up,
    and at line 216 as many as there are attempts left. *)
Theorem ipcThread_turn_sleeps_5ms (abi : IpcProtocol) (inb : list recv_event) :
  ipcThread_body_slept abi inb = 5.
Proof.
unfold ipcThread_body_slept.
pose proof (recv_loop_slept_spec 1 (sizeof_gaze_response abi) 5
              (zeroed (sizeof_gaze_response abi)) 0 inb) as H.
destruct (recv_loop _ 5 _ 0 inb) as [[[r buf] off] inb'].
destruct H as [Hle Hs]. rewrite Hs.
rewrite (Z.mod_small (5 - Z.of_nat r)) by lia.
rewrite Z.mod_small by lia. lia.
Qed.

(** X7. The constructor sleeps at most two seconds: a tenth of a second
    for each of the at most fifteen connection attempts that fail, and
    for each of the at most five reads that leave the response
    incomplete; it does not sleep at all when the first attempt
    connects and the first read completes the response. *)
Theorem ctor_sleeps_at_most_2s (abi : IpcProtocol) (net : Network) :
  0 <= ctor_slept abi net <= 2000
  /\ (forall rest inb,
        connects net = ConnectOk :: rest ->
        inbound net = RecvData inb :: nil ->
        sizeof_handshake_response abi <= Z.of_nat (List.length inb) ->
        ctor_slept abi net = 0).
Proof.
unfold ctor_slept. split.
- pose proof (connect_loop_slept_spec 15 (connects net)) as [Hle Hs].
  destruct (connect_loop 15 (connects net)) as [r1 script]. cbn [fst] in *.
  rewrite Hs.
  pose proof (recv_loop_slept_spec 100 (sizeof_handshake_response abi) 5
                (zeroed (sizeof_handshake_response abi)) 0 (inbound net)) as H.
  destruct (recv_loop _ 5 _ 0 (inbound net)) as [[[r buf] off] inb'].
  destruct H as [Hle2 Hs2]. rewrite Hs2.
  destruct (r1 =? 0)%nat; lia.
- intros rest inb Hc Hi Hfull. rewrite Hc, Hi.
  change (connect_loop 15 (ConnectOk :: rest)) with (15%nat, rest).
  change (connect_loop_slept 15 (ConnectOk :: rest)) with 0.
  cbn [Nat.eqb]. rewrite (first_read_no_sleep 100 _ 4 inb []) by exact Hfull.
  reflexivity.
Qed.

Lemma ctor_sleeps_at_most_2s_witness :
  ctor_slept Sample.abi Examples.net_coalesced = 0
  /\ ctor_slept Sample.abi Examples.net_late = 1500.
Proof.
split; [|reflexivity].
destruct (ctor_sleeps_at_most_2s Sample.abi Examples.net_coalesced) as [_ H].
eapply H; [reflexivity | reflexivity |]. vm_compute. discriminate.
Defined.

(** X8. The connect loop stops at the first attempt that connects or
    finds the socket connected: with [k] failures before it, it leaves
    fifteen less [k] in [retries] and has used up [k + 1] outcomes; when
    none of its attempts does, it leaves 0 in [retries] and has used
    them all. *)
Theorem connect_loop_first_success (n : nat) (script : list connect_outcome) :
  connect_loop n script
  = match Spec.first_connect n script with
    | Some k => ((n - k)%nat, skipn (S k) script)
    | None => (O, skipn n script)
    end.
Proof.
revert script. induction n as [|n IH]; intros script; [reflexivity|].
destruct script as [|[|e] rest]; cbn [connect_loop connect Spec.first_connect
                                       Spec.connect_attempt_ok].
- change (SOCKET_ERROR =? 0) with false.
  change (WSAEWOULDBLOCK =? WSAEISCONN) with false. cbv iota.
  rewrite IH. destruct n; reflexivity.
- reflexivity.
- change (SOCKET_ERROR =? 0) with false. cbv iota.
  destruct (e =? WSAEISCONN); [reflexivity|].
  rewrite IH. destruct (Spec.first_connect n rest); reflexivity.
Qed.
End Loops.

(** ** More on the device tracker *)

Module DeviceExtras.
Import Psvr2Toolkit Examples.

(** An iteration of the loop puts no NaN into the cache. *)
Lemma ipcThread_body_no_nan (abi : IpcProtocol) (now : time_point)
    (t : Psvr2ToolkitEyeTracker) (inb : list recv_event) :
  has_nan (m_latestGaze t) = false ->
  has_nan (m_latestGaze (fst (ipcThread_body abi now t inb))) = false.
Proof.
intros H. unfold ipcThread_body.
destruct (recv_loop _ 5 _ 0 inb) as [[[r buf] off] inb'].
destruct (negb (r =? 0)%nat && _ && _); [|exact H].
destruct (F32.isnan _ || F32.isnan _ || F32.isnan _) eqn:E; [exact H|].
exact E.
Qed.

Lemma step_no_nan (abi : IpcProtocol) (s s' : System) :
  step abi s s' ->
  has_nan (m_latestGaze (obj s)) = false ->
  has_nan (m_latestGaze (obj s')) = false.
Proof.
intros Hstep H. destruct Hstep as [session s s' Hs|now s s' Hs|s s' Hs].
- unfold start_step in Hs. destruct (dtor s); try discriminate.
  destruct (m_started (obj s)); try discriminate.
  injection Hs as <-. exact H.
- unfold ipc_step in Hs. destruct (m_listeningThread (obj s)); try discriminate.
  destruct (m_started (obj s)); [|injection Hs as <-; exact H].
  pose proof (ipcThread_body_no_nan abi now (obj s) (stream s) H) as Hb.
  destruct (ipcThread_body abi now (obj s) (stream s)) as [t' inb'].
  injection Hs as <-. exact Hb.
- unfold dtor_step in Hs.
  destruct (dtor s); try discriminate; try (injection Hs as <-; exact H).
  destruct (m_listeningThread (obj s)); try discriminate.
  injection Hs as <-; exact H.
Qed.

(** X9. The device tracker never has a NaN in its cache: in every state
    that the owner, the destructor and [ipcThread] can reach from a
    constructed object, whatever arrives on the socket and whatever the
    layout of the response, no component of [m_latestGaze] is NaN. *)
Theorem device_cache_has_no_nan (abi : IpcProtocol) (sock : SOCKET)
    (inb : list recv_event) (s : System) :
  steps abi (mkSystem (constructed sock) inb DtorNotCalled []) s ->
  has_nan (m_latestGaze (obj s)) = false.
Proof.
intros Hsteps.
remember (mkSystem (constructed sock) inb DtorNotCalled []) as s0 eqn:E0.
induction Hsteps as [s|s1 s2 s3 _ IH Hstep].
- subst s. reflexivity.
- exact (step_no_nan abi s2 s3 Hstep (IH E0)).
Qed.

Lemma device_cache_has_no_nan_witness :
  let s := mkSystem
             (mkTracker true Running 1
                (mkXrVector3f F32.neg_zero F32.zero F32.neg_zero) 8)
             [] DtorNotCalled [] in
  steps Sample.abi device_fresh s
  /\ has_nan (m_latestGaze (obj s)) = false.
Proof.
cbv zeta.
assert (Hs : steps Sample.abi device_fresh
               (mkSystem
                  (mkTracker true Running 1
                     (mkXrVector3f F32.neg_zero F32.zero F32.neg_zero) 8)
                  [] DtorNotCalled [])).
{ eapply steps_snoc; [eapply steps_snoc; [eapply steps_snoc; [apply steps_refl|]|]|].
  - apply (step_start _ 0). reflexivity.
  - apply (step_ipc _ 7). reflexivity.
  - apply (step_ipc _ 8). reflexivity. }
split; [exact Hs|].
exact (device_cache_has_no_nan Sample.abi 1 _ _ Hs).
Defined.

(** X10. Destroying a device tracker that was never started does not
    wait for anything: the destructor skips [join], shuts the socket
    down, closes it, sets [m_socket] to 0, calls [WSACleanup] and
    returns; with no socket it calls [WSACleanup] only. The cached
    fields are as they were. *)
Theorem unstarted_destructor_returns (t : Psvr2ToolkitEyeTracker)
    (inb : list recv_event) :
  m_started t = false ->
  run_dtor 8 (mkSystem t inb DtorNotCalled [])
  = if m_socket t =? INVALID_SOCKET
    then mkSystem t inb DtorReturned [WSACleanupCalled]
    else mkSystem (set_socket 0 t) [] DtorReturned
           [ShutdownCalled; ClosesocketCalled; WSACleanupCalled].
Proof.
intros Hst.
cbn [run_dtor dtor_step dtor obj stream calls]. rewrite Hst.
cbn [run_dtor dtor_step dtor obj stream calls].
destruct (m_socket t =? INVALID_SOCKET); reflexivity.
Qed.

Lemma unstarted_destructor_returns_witness :
  calls (run_dtor 8 (mkSystem (constructed 1) stream_opposite DtorNotCalled []))
  = [ShutdownCalled; ClosesocketCalled; WSACleanupCalled].
Proof.
rewrite (unstarted_destructor_returns (constructed 1) stream_opposite eq_refl).
reflexivity.
Defined.
End DeviceExtras.

(** ** More on the network tracker *)

Module NetworkExtras.
Import VRChatOSC Examples.

(** X11. A message on any address other than
    /tracking/eye/LeftRightPitchYaw leaves the tracker exactly as it
    was, whatever its arguments: the comparison is on the whole string,
    and neither the cache nor the timestamp is touched. *)
Theorem other_address_never_updates (sinf cosf : float -> float)
    (now : time_point) (m : ReceivedMessage) (t : VRChatOSCEyeTracker) :
  AddressPattern m <> address_pattern ->
  ProcessMessage sinf cosf now m t = t.
Proof.
intros H. unfold ProcessMessage, ProcessMessage_try.
apply String.eqb_neq in H. rewrite H. reflexivity.
Qed.

Lemma other_address_never_updates_witness :
  ProcessMessage Sample.sinf Sample.cosf 20 msg_other_address osc_with_sample
  = osc_with_sample.
Proof.
apply (other_address_never_updates Sample.sinf Sample.cosf 20 msg_other_address
         osc_with_sample).
discriminate.
Defined.

(** X12. A message on the eye-tracking address whose arguments are not
    exactly four floats - too few, too many, or one of another type -
    makes the argument stream throw; the exception is caught and the
    tracker is left exactly as it was, so that the last good sample
    stays in the cache. *)
Theorem malformed_message_ignored (sinf cosf : float -> float)
    (now : time_point) (m : ReceivedMessage) (t : VRChatOSCEyeTracker) :
  AddressPattern m = address_pattern ->
  (forall a b c d, ArgumentStream m <> [OscFloat a; OscFloat b; OscFloat c; OscFloat d]) ->
  (exists e, ProcessMessage_try sinf cosf now m t = Throw e)
  /\ ProcessMessage sinf cosf now m t = t.
Proof.
intros Haddr Hargs. unfold ProcessMessage, ProcessMessage_try.
rewrite Haddr, String.eqb_refl.
destruct (ArgumentStream m) as [|[a| |] [|[b| |] [|[c| |] [|[d| |] [|extra rest]]]]];
  cbn [read_float read_EndMessage bind]; try (split; [eexists|]; reflexivity).
exfalso. exact (Hargs a b c d eq_refl).
Qed.

Lemma malformed_message_ignored_witness :
  ProcessMessage Sample.sinf Sample.cosf 20 msg_short osc_with_sample = osc_with_sample
  /\ ProcessMessage Sample.sinf Sample.cosf 20 msg_wrong_type osc_with_sample
     = osc_with_sample
  /\ ProcessMessage Sample.sinf Sample.cosf 20 msg_long osc_with_sample = osc_with_sample.
Proof.
split; [|split].
- apply (malformed_message_ignored Sample.sinf Sample.cosf 20 msg_short osc_with_sample);
    [reflexivity | discriminate].
- apply (malformed_message_ignored Sample.sinf Sample.cosf 20 msg_wrong_type
           osc_with_sample); [reflexivity | discriminate].
- apply (malformed_message_ignored Sample.sinf Sample.cosf 20 msg_long osc_with_sample);
    [reflexivity | discriminate].
Defined.

(** X13. A message of four floats of which at least one is NaN is
    discarded whole: the tracker is left exactly as it was, whatever
    [sin] and [cos] make of the angles and whatever the other three
    angles are. *)
Theorem nan_angle_discarded (sinf cosf : float -> float) (now : time_point)
    (t : VRChatOSCEyeTracker) (leftPitch leftYaw rightPitch rightYaw : float) :
  F32.isnan leftPitch = true \/ F32.isnan leftYaw = true
  \/ F32.isnan rightPitch = true \/ F32.isnan rightYaw = true ->
  ProcessMessage sinf cosf now (eye_message leftPitch leftYaw rightPitch rightYaw) t = t.
Proof.
intros H. apply NetworkFeed.nan_angle_keeps_cache.
destruct H as [H|[H|[H|H]]]; rewrite H; rewrite ?orb_true_r; reflexivity.
Qed.

Lemma nan_angle_discarded_witness :
  ProcessMessage Sample.sinf Sample.cosf 20
    (eye_message F32.zero F32.zero F32.nan F32.infinity) osc_with_sample
  = osc_with_sample.
Proof.
apply (nan_angle_discarded Sample.sinf Sample.cosf 20 osc_with_sample).
right; right; left; reflexivity.
Defined.

(** X14. The destructor of a started network tracker always gets to
    return: from every state that the owner, the destructor and the
    listening thread can reach once the destructor has been called,
    there is a continuation in which the thread leaves [Run] and [join]
    returns - at most the break, one step of the thread and the join. *)
Theorem network_destructor_returns (sinf cosf : float -> float) (s : System) :
  steps sinf cosf osc_started s ->
  dtor s <> DtorNotCalled ->
  exists s', steps sinf cosf s s' /\ dtor s' = DtorReturned.
Proof.
exact (NetworkTeardown.osc_destructor_returns sinf cosf s).
Qed.

Lemma network_destructor_returns_witness :
  exists s',
    steps Sample.sinf Sample.cosf
      (mkSystem (start 0 constructed) DtorIfStarted []) s'
    /\ dtor s' = DtorReturned.
Proof.
apply (network_destructor_returns Sample.sinf Sample.cosf
         (mkSystem (start 0 constructed) DtorIfStarted [])).
- apply (steps_snoc _ _ _ osc_started); [apply steps_refl|].
  apply step_dtor. reflexivity.
- discriminate.
Defined.

Lemma step_keeps_teardown_order (sinf cosf : float -> float) (s s' : System) :
  step sinf cosf s s' -> teardown_order s -> teardown_order s'.
Proof.
intros Hstep [Hst Hord].
destruct Hstep as [session s s' H|now m s s' H|s s' H].
- unfold start_step in H. destruct (dtor s); try discriminate.
  rewrite Hst in H. discriminate.
- unfold run_step in H. destruct (m_listeningThread (obj s)) eqn:Et; try discriminate.
  destruct (break_ (m_socket (obj s))) eqn:Eb; injection H as <-.
  + unfold teardown_order; cbn [obj dtor calls set_thread m_started m_socket
                                 m_listeningThread].
    split; [exact Hst|].
    destruct (dtor s); destruct Hord as (Hc & Hb & Hth); try congruence.
    repeat split; [exact Hc | exact Eb | discriminate].
  + pose proof (NetworkTeardown.ProcessMessage_fields sinf cosf now m (obj s))
      as (H1 & H2 & H3).
    unfold teardown_order; cbn [obj dtor calls]. rewrite H1, H2, H3, Et, Eb.
    split; [exact Hst|].
    destruct (dtor s); destruct Hord as (Hc & Hb & Hth); try congruence;
      repeat split; try assumption; try reflexivity.
- unfold dtor_step in H. destruct (dtor s) eqn:Hpc; try discriminate.
  + injection H as <-. unfold teardown_order; cbn [obj dtor calls]. auto.
  + injection H as <-. unfold teardown_order; cbn [obj dtor calls].
    rewrite Hst. auto.
  + injection H as <-. destruct Hord as (Hc & Hb & Hth).
    unfold teardown_order; cbn [obj dtor calls set_socket m_started m_socket
                                 m_listeningThread break_].
    rewrite Hc, Hth. repeat split; [exact Hst | discriminate].
  + destruct (m_listeningThread (obj s)) eqn:Et; try discriminate.
    injection H as <-. destruct Hord as (Hc & Hb & Hth).
    unfold teardown_order; cbn [obj dtor calls]. rewrite Hc, Et. auto.
Qed.

(** X15. The network tracker interrupts before it joins and leaks no
    thread: once [start] has been called, the listening thread does not
    leave [Run] before [AsynchronousBreak] has been called, and when the
    destructor has returned it has called [AsynchronousBreak] and then
    [join], in that order and nothing else, and the thread has ended. *)
Theorem network_interrupts_then_joins (sinf cosf : float -> float)
    (session : XrSession) (s : System) :
  steps sinf cosf (mkSystem (start session constructed) DtorNotCalled []) s ->
  (m_listeningThread (obj s) = Finished -> In AsynchronousBreakCalled (calls s))
  /\ (dtor s = DtorJoin -> calls s = [AsynchronousBreakCalled])
  /\ (dtor s = DtorReturned ->
      calls s = [AsynchronousBreakCalled; JoinReturned]
      /\ m_listeningThread (obj s) = Finished).
Proof.
intros Hsteps.
assert (Hord : teardown_order s).
{ remember (mkSystem (start session constructed) DtorNotCalled []) as s0 eqn:E0.
  induction Hsteps as [s|s1 s2 s3 _ IH Hstep].
  - subst s. unfold teardown_order; cbn. auto.
  - exact (step_keeps_teardown_order sinf cosf s2 s3 Hstep (IH E0)). }
destruct Hord as [_ Hord].
repeat split.
- intros Hfin. destruct (dtor s); destruct Hord as (Hc & Hb & Hth);
    rewrite Hc; cbn; auto; congruence.
- intros Hj. rewrite Hj in Hord. exact (proj1 Hord).
- rewrite H in Hord. exact (proj1 Hord).
- rewrite H in Hord. exact (proj2 (proj2 Hord)).
Qed.

Lemma network_interrupts_then_joins_witness :
  let s := mkSystem (set_thread Finished (set_socket (mkSocket true) (start 0 constructed)))
             DtorReturned [AsynchronousBreakCalled; JoinReturned] in
  steps Sample.sinf Sample.cosf osc_started s
  /\ m_listeningThread (obj s) = Finished.
Proof.
cbv zeta.
assert (Hs : steps Sample.sinf Sample.cosf osc_started
               (mkSystem
                  (set_thread Finished (set_socket (mkSocket true) (start 0 constructed)))
                  DtorReturned [AsynchronousBreakCalled; JoinReturned])).
{ eapply steps_snoc; [eapply steps_snoc; [eapply steps_snoc; [eapply steps_snoc;
    [eapply steps_snoc; [apply steps_refl|]|]|]|]|].
  - apply step_dtor. reflexivity.
  - apply step_dtor. reflexivity.
  - apply step_dtor. reflexivity.
  - apply (step_run _ _ 5 msg_zero). reflexivity.
  - apply step_dtor. reflexivity. }
split; [exact Hs|].
destruct (network_interrupts_then_joins Sample.sinf Sample.cosf 0 _ Hs) as (_ & _ & H).
exact (proj2 (H eq_refl)).
Defined.
End NetworkExtras.

(** ** Freshness, symmetry and the mutex *)

Module MoreExtras.
Import Examples.

(** X16. A sample only ages: for both trackers, with the object
    unchanged and the clock readings of both queries less the cached
    timestamp 64-bit counts, a query that finds the gaze unavailable is
    followed by unavailable at every later clock reading, and [getGaze]
    then leaves the output of the caller untouched. *)
Theorem stale_stays_stale :
  (forall (t : Psvr2Toolkit.Psvr2ToolkitEyeTracker) (now now' : time_point)
          (time time' : XrTime) (out : XrVector3f),
      Int64.in_range (now - Psvr2Toolkit.m_lastReceivedTime t) ->
      Int64.in_range (now' - Psvr2Toolkit.m_lastReceivedTime t) ->
      now <= now' ->
      Psvr2Toolkit.isGazeAvailable t now time = false ->
      Psvr2Toolkit.isGazeAvailable t now' time' = false
      /\ Psvr2Toolkit.getGaze t now' time' out = (false, out))
  /\ (forall (t : VRChatOSC.VRChatOSCEyeTracker) (now now' : time_point)
             (time time' : XrTime) (out : XrVector3f),
         Int64.in_range (now - VRChatOSC.m_lastReceivedTime t) ->
         Int64.in_range (now' - VRChatOSC.m_lastReceivedTime t) ->
         now <= now' ->
         VRChatOSC.isGazeAvailable t now time = false ->
         VRChatOSC.isGazeAvailable t now' time' = false
         /\ VRChatOSC.getGaze t now' time' out = (false, out)).
Proof.
split; intros t now now' time time' out _ _ Hle Hstale.
- unfold Psvr2Toolkit.getGaze, Psvr2Toolkit.isGazeAvailable in *.
  apply Z.ltb_ge in Hstale.
  assert (H : (now' - Psvr2Toolkit.m_lastReceivedTime t <? 1000000000) = false)
    by (apply Z.ltb_ge; lia).
  rewrite H. split; reflexivity.
- unfold VRChatOSC.getGaze, VRChatOSC.isGazeAvailable in *.
  apply Z.ltb_ge in Hstale.
  assert (H : (now' - VRChatOSC.m_lastReceivedTime t <? 1000000000) = false)
    by (apply Z.ltb_ge; lia).
  rewrite H. split; reflexivity.
Qed.

Lemma stale_stays_stale_witness :
  VRChatOSC.getGaze osc_with_sample 2000000000 0 XrVector3f_zero
  = (false, XrVector3f_zero).
Proof.
destruct stale_stays_stale as [_ H].
apply (H osc_with_sample 1000000010 2000000000 0 0 XrVector3f_zero).
- unfold Int64.in_range, Int64.min_value, Int64.max_value. cbn. lia.
- unfold Int64.in_range, Int64.min_value, Int64.max_value. cbn. lia.
- lia.
- reflexivity.
Defined.

Lemma SFadd_comm (prec emax : Z) (a b : spec_float) :
  SFadd prec emax a b = SFadd prec emax b a.
Proof.
destruct a as [sa|sa| |sa ma ea], b as [sb|sb| |sb mb eb]; cbn [SFadd];
  try reflexivity; try (destruct sa, sb; reflexivity).
rewrite (Z.min_comm eb ea), Z.add_comm. reflexivity.
Qed.

(** X17. The vector of the device tracker does not depend on which eye
    is which: a response with the two eyes exchanged gives the same
    vector, each component the same number with the same sign, zeros and
    infinities included, or NaN in both (a NaN is one value here, its
    sign and payload are not compared). *)
Theorem averaged_gaze_eyes_exchanged
    (left right : Psvr2Toolkit.GazeEyeResult) :
  Psvr2Toolkit.averaged_gaze (Psvr2Toolkit.mkGazeDataResult right left)
  = Psvr2Toolkit.averaged_gaze (Psvr2Toolkit.mkGazeDataResult left right).
Proof.
unfold Psvr2Toolkit.averaged_gaze.
cbn [Psvr2Toolkit.leftEye Psvr2Toolkit.rightEye]. unfold F32.add.
rewrite (SFadd_comm _ _ (x (Psvr2Toolkit.gazeDirNorm right))),
        (SFadd_comm _ _ (y (Psvr2Toolkit.gazeDirNorm right))),
        (SFadd_comm _ _ (z (Psvr2Toolkit.gazeDirNorm right))).
reflexivity.
Qed.

(** X18. Nor does the vector of the network tracker: with the angles of
    the two eyes exchanged the initialiser of [unitVector] gives the
    same vector, although its third component is written with the minus
    sign on the left eye's cosine and a subtraction of the right eye's
    product. Each component is the same number with the same sign, or
    NaN in both (a NaN is one value here, its sign and payload are not
    compared). *)
Theorem unit_vector_eyes_exchanged (sinf cosf : float -> float)
    (leftPitch leftYaw rightPitch rightYaw : float) :
  VRChatOSC.unit_vector sinf cosf rightPitch rightYaw leftPitch leftYaw
  = VRChatOSC.unit_vector sinf cosf leftPitch leftYaw rightPitch rightYaw.
Proof.
unfold VRChatOSC.unit_vector, F32.sub, F32.add, F32.mul, F32.opp.
rewrite !SFsub_add_opp, !SFmul_opp_l.
f_equal; f_equal; apply SFadd_comm.
Qed.





(** X22. The background work of either tracker writes the two cached
    fields and nothing else: a turn of the loop of [ipcThread] and a
    call of [ProcessMessage] leave [m_started], [m_listeningThread] and
    [m_socket] as they were, whatever arrives. *)
Theorem background_work_keeps_lifecycle_fields :
  (forall (abi : Psvr2Toolkit.IpcProtocol) (now : time_point)
          (t : Psvr2Toolkit.Psvr2ToolkitEyeTracker)
          (inb : list Psvr2Toolkit.recv_event),
      let t' := fst (Psvr2Toolkit.ipcThread_body abi now t inb) in
      Psvr2Toolkit.m_started t' = Psvr2Toolkit.m_started t
      /\ Psvr2Toolkit.m_listeningThread t' = Psvr2Toolkit.m_listeningThread t
      /\ Psvr2Toolkit.m_socket t' = Psvr2Toolkit.m_socket t)
  /\ (forall (sinf cosf : float -> float) (now : time_point)
             (m : VRChatOSC.ReceivedMessage) (t : VRChatOSC.VRChatOSCEyeTracker),
         let t' := VRChatOSC.ProcessMessage sinf cosf now m t in
         VRChatOSC.m_started t' = VRChatOSC.m_started t
         /\ VRChatOSC.m_listeningThread t' = VRChatOSC.m_listeningThread t
         /\ VRChatOSC.m_socket t' = VRChatOSC.m_socket t).
Proof.
split.
- exact DeviceTeardown.ipcThread_body_fields.
- exact NetworkTeardown.ProcessMessage_fields.
Qed.
End MoreExtras.

Module MutexExtras.
Import CriticalSection.

Lemma step_keeps_held_from_inside (m m' : Machine) :
  step m m' -> consistent m -> held_from_inside m -> held_from_inside m'.
Proof.
intros Hstep (Hw & Hr & _) Hheld.
destruct Hstep as [v now m Hpc Hfree|v now m Hpc|v now m Hpc|m Hpc
                  |i m Hpc Hfree|i m Hpc|i v t m Hpc];
  unfold held_from_inside in *;
  cbn [writer m_mutex m_latestGaze m_lastReceivedTime readers accepted].
- discriminate.
- rewrite Hpc in Hw. destruct Hw as [Hmx _]. rewrite Hmx. discriminate.
- rewrite Hpc in Hw. destruct Hw as [Hmx _]. rewrite Hmx. discriminate.
- exact I.
- rewrite CachedPair.set_reader_same. discriminate.
- assert (Hin : readers m i <> ROutside) by (rewrite Hpc; discriminate).
  rewrite (Hr i Hin). rewrite CachedPair.set_reader_same. discriminate.
- exact I.
Qed.

Lemma reachable_invariants (m0 m : Machine) :
  steps m0 m -> consistent m0 -> held_from_inside m0 ->
  consistent m /\ held_from_inside m.
Proof.
intros Hsteps Hc0 Hh0. induction Hsteps as [m|m1 m2 m3 _ IH Hstep]; [auto|].
destruct (IH Hc0 Hh0) as [Hc Hh]. split.
- exact (CachedPair.step_keeps_consistent m2 m3 Hstep Hc).
- exact (step_keeps_held_from_inside m2 m3 Hstep Hc Hh).
Qed.

(** X19. The mutex excludes: in every state that the background thread
    and the callers can reach, two different callers are never inside
    their blocks at once, and the mutex is owned exactly by the thread
    that is inside a block, if there is one. *)
Theorem one_thread_inside (m : Machine) :
  steps initial m ->
  (forall i j, readers m i <> ROutside -> readers m j <> ROutside -> i = j)
  /\ (forall i, readers m i <> ROutside <-> m_mutex m = Some (Reader i))
  /\ (writer m <> WOutside <-> m_mutex m = Some Writer).
Proof.
intros Hsteps.
destruct (reachable_invariants initial m Hsteps CachedPair.initial_consistent I)
  as [Hc Hh].
pose proof Hc as (Hw & Hr & _).
split; [|split].
- intros i j Hi Hj. pose proof (Hr i Hi) as H1. pose proof (Hr j Hj) as H2.
  congruence.
- intros i. split; [apply Hr|].
  intros Hm. unfold held_from_inside in Hh. rewrite Hm in Hh. exact Hh.
- split.
  + intros Hin. destruct (writer m); destruct Hw as [Hmx _]; congruence.
  + intros Hm. unfold held_from_inside in Hh. rewrite Hm in Hh. exact Hh.
Qed.

Lemma one_thread_inside_witness :
  let m := last Examples.machine_run initial in
  steps initial m
  /\ (readers m 0%nat <> ROutside <-> m_mutex m = Some (Reader 0)).
Proof.
cbv zeta.
assert (Hs : steps initial (last Examples.machine_run initial)).
{ apply CachedPair.chain_steps; [apply steps_refl|].
  unfold Examples.machine_run; cbn [chain]. repeat split.
  - exact (w_lock Examples.sample_vector 5 initial eq_refl eq_refl).
  - match goal with |- step ?a _ =>
      exact (w_store_gaze Examples.sample_vector 5 a eq_refl) end.
  - match goal with |- step ?a _ =>
      exact (w_store_time Examples.sample_vector 5 a eq_refl) end.
  - match goal with |- step ?a _ => exact (w_unlock a eq_refl) end.
  - match goal with |- step ?a _ => exact (r_lock 0%nat a eq_refl eq_refl) end.
  - match goal with |- step ?a _ => exact (r_load 0%nat a eq_refl) end. }
split; [exact Hs|].
destruct (one_thread_inside _ Hs) as (_ & H & _).
exact (H 0%nat).
Defined.

(** X20. The mutex is always given back: from every reachable state the
    thread that owns the mutex reaches the end of its block by itself,
    in at most three statements, without waiting for any other thread;
    no block contains a call that could wait. *)
Theorem mutex_is_released (m : Machine) :
  steps initial m ->
  exists m1 m2 m3,
    (m1 = m \/ step m m1) /\ (m2 = m1 \/ step m1 m2) /\ (m3 = m2 \/ step m2 m3)
    /\ m_mutex m3 = None.
Proof.
intros Hsteps.
destruct (reachable_invariants initial m Hsteps CachedPair.initial_consistent I)
  as [Hc Hh].
pose proof Hc as (Hw & Hr & _).
unfold held_from_inside in Hh.
destruct (m_mutex m) as [[|i]|] eqn:Hm.
- (* the background thread *)
  destruct (writer m) as [|v now|v now|] eqn:Epc; [congruence| | |].
  + eexists _, _, _. split; [right; exact (w_store_gaze v now m Epc)|].
    split; [right; eapply (w_store_time v now); reflexivity|].
    split; [right; eapply w_unlock; reflexivity|]. reflexivity.
  + eexists _, _, _. split; [right; exact (w_store_time v now m Epc)|].
    split; [right; eapply w_unlock; reflexivity|].
    split; [left; reflexivity|]. reflexivity.
  + eexists _, _, _. split; [right; exact (w_unlock m Epc)|].
    split; [left; reflexivity|].
    split; [left; reflexivity|]. reflexivity.
- (* a caller *)
  destruct (readers m i) as [| |v t] eqn:Epc; [congruence| |].
  + eexists _, _, _. split; [right; exact (r_load i m Epc)|].
    split; [right; eapply (r_unlock i); cbn [readers];
            apply CachedPair.set_reader_same|].
    split; [left; reflexivity|]. reflexivity.
  + eexists _, _, _. split; [right; exact (r_unlock i v t m Epc)|].
    split; [left; reflexivity|].
    split; [left; reflexivity|]. reflexivity.
- exists m, m, m. auto.
Qed.

Lemma mutex_is_released_witness :
  let m := mkMachine XrVector3f_zero 0 (Some Writer)
             (WLocked Examples.sample_vector 5) Examples.nobody_inside [] in
  steps initial m
  /\ exists m1 m2 m3,
       (m1 = m \/ step m m1) /\ (m2 = m1 \/ step m1 m2) /\ (m3 = m2 \/ step m2 m3)
       /\ m_mutex m3 = None.
Proof.
cbv zeta.
assert (Hs : steps initial
               (mkMachine XrVector3f_zero 0 (Some Writer)
                  (WLocked Examples.sample_vector 5) Examples.nobody_inside [])).
{ apply (steps_snoc _ initial); [apply steps_refl|].
  exact (w_lock Examples.sample_vector 5 initial eq_refl eq_refl). }
split; [exact Hs|].
exact (mutex_is_released _ Hs).
Defined.
End MutexExtras.
